(** * sync-downloaded-files: the rsync output watchdog

    A shallow embedding of [sync_downloaded_files.py] (and of the rate
    sub-parser of its other copy, [sync-downloaded-files.py]) together with
    the properties of the progress-line parser, the rate sub-parser, the
    low-rate policy and the activity monitor.

    Layout:
    - [Text]     Python [str] values and the string methods the program calls;
    - [Re]       [re.search] for the patterns the program uses;
    - [PyNum]    [int()], [locale.atoi], [float()] and binary64 arithmetic;
    - [Runtime]  the effects: clock, select/read/poll, signals, stdout,
                 exceptions;
    - [SyncDownloadedFiles]  the module [sync_downloaded_files.py];
    - [SyncDownloadedFilesScript]  [parse_rate] of [sync-downloaded-files.py];
    - [Vocabulary]  the words the statements are written in;
    - [Frames], [Turns]  what a computation leaves as it was, and the states
                 of the loop;
    - [Process], [Session], [Hosts]  [execute_rsync], [pty_open] and
                 [countdown] of the module, and the effects they need;
    - [SyncDownloadedFilesScriptLoop], [ScriptSession]  [watch_rsync_command]
                 and [execute_rsync] of [sync-downloaded-files.py];
    - [Versions], [ScriptTurns]  the words that compare the two versions;
    - the lemmas on texts, patterns, the parsers, the policy, the loop, its
      frames and its turns;
    - [RateClaims], [ProgressClaims], [LoopClaims]  the properties;
    - the lemmas on descriptors, the countdown and the session;
    - [LoopTheorems], [WatchTheorems], [RateExtras], [SessionTheorems],
      [ExecuteTheorems], [VersionTheorems], [ScriptSessionTheorems]  further
      properties of the code.

    What is modelled how:
    - a [str] is the list of its characters, a [float] is a binary64 given by
      its exact value, and every float operation rounds as IEEE 754 does;
    - [int()] takes numerals of at most 4300 digits, as the interpreter does
      unless it is told otherwise;
    - [re.search] is a backtracking matcher over the pattern as written, and
      its meaning apart from the search order is [Re.Matches];
    - the clock, [select], [os.read] and [process.poll] answer from the
      [Runtime.world]; [print], [process.terminate] and [process.kill] leave
      events there; an exception leaves the world as it was when raised;
    - [while True] runs for a given number of turns;
    - [pty.openpty], [os.close], [datetime.datetime.now] and [time.sleep]
      answer from the [Process.host]; a [KeyboardInterrupt] arrives during a
      sleep, or in the loop of a run of rsync at the turn where the model
      stops following the run, or not at all;
    - [parse_args] and [main] are left out, and [subprocess.Popen] is taken
      to succeed. *)

From Stdlib Require Import String Ascii List ZArith QArith Bool Lia.
Import ListNotations.

Set Implicit Arguments.

(* ===================================================================== *)
(** * Text *)
(* ===================================================================== *)

Module Text.

(** A Python [str], as the list of its characters.  Characters are the code
    points below 256, which covers everything rsync prints on a progress
    line; on this range [\d] is [[0-9]]. *)
Definition str := list ascii.

(** A literal. *)
Definition txt (s : string) : str := list_ascii_of_string s.

Definition code (c : ascii) : N := N_of_ascii c.

Definition between (lo hi c : ascii) : bool :=
  ((code lo <=? code c) && (code c <=? code hi))%N.

Definition is_digit (c : ascii) : bool := between "0" "9" c.
Definition is_lower (c : ascii) : bool := between "a" "z" c.
Definition is_upper (c : ascii) : bool := between "A" "Z" c.

(** [str.isspace] on one character: TAB, LF, VT, FF, CR, FS, GS, RS, US,
    space, NEL and NBSP. *)
Definition is_space (c : ascii) : bool :=
  let n := code c in
  ((9 <=? n) && (n <=? 13) || (28 <=? n) && (n <=? 32)
   || (n =? 133) || (n =? 160))%N.

(** The line boundaries of [str.splitlines]: LF, CR, VT, FF, FS, GS, RS and
    NEL (CR LF counts once). *)
Definition is_linebreak (c : ascii) : bool :=
  let n := code c in
  ((10 <=? n) && (n <=? 13) || (28 <=? n) && (n <=? 30) || (n =? 133))%N.

Definition LF : ascii := ascii_of_N 10.
Definition CR : ascii := ascii_of_N 13.

Definition eqc (a b : ascii) : bool := Ascii.eqb a b.

(** Stripping the characters of [p] from the left, from the right and from
    both ends. *)
Fixpoint lstrip_by (p : ascii -> bool) (s : str) : str :=
  match s with
  | c :: s' => if p c then lstrip_by p s' else s
  | [] => []
  end.

Definition rstrip_by (p : ascii -> bool) (s : str) : str :=
  rev (lstrip_by p (rev s)).

Definition strip_by (p : ascii -> bool) (s : str) : str :=
  rstrip_by p (lstrip_by p s).

(** [s.strip()] *)
Definition strip (s : str) : str := strip_by is_space s.

(** [s.splitlines()]: [cur] is the line being read, reversed. *)
Fixpoint splitlines_from (cur : str) (s : str) : list str :=
  match s with
  | [] => match cur with [] => [] | _ => [rev cur] end
  | c :: s' =>
      if eqc c CR then
        match s' with
        | c' :: s'' =>
            if eqc c' LF then rev cur :: splitlines_from [] s''
            else rev cur :: splitlines_from [] s'
        | [] => rev cur :: splitlines_from [] s'
        end
      else if is_linebreak c then rev cur :: splitlines_from [] s'
      else splitlines_from (c :: cur) s'
  end.

Definition splitlines (s : str) : list str := splitlines_from [] s.

(** [s.replace(c, '')] for a one-character [c]. *)
Definition remove_char (c : ascii) (s : str) : str :=
  filter (fun x => negb (eqc x c)) s.

(** [s.upper()] on one character of [[a-zA-Z]]; the program calls it on
    text captured by [[a-zA-Z]+] only, other characters are left alone. *)
Definition upper_char (c : ascii) : ascii :=
  if is_lower c then ascii_of_N (code c - 32) else c.

Definition upper (s : str) : str := map upper_char s.

Definition str_eqb (a b : str) : bool :=
  if list_eq_dec ascii_dec a b then true else false.

End Text.

Import Text.

(* ===================================================================== *)
(** * Regular expressions *)
(* ===================================================================== *)

Module Re.

(** One-character classes of the patterns. *)
Inductive cclass : Type :=
| Dot                                  (* [.]: anything but a newline *)
| Lit (c : ascii)                      (* a literal character *)
| Range (rs : list (ascii * ascii))    (* [[...]]: ranges, [c] as [(c, c)] *)
| Digit.                               (* [\d] *)

Definition in_class (k : cclass) (c : ascii) : bool :=
  match k with
  | Dot => negb (eqc c LF)
  | Lit x => eqc c x
  | Range rs => existsb (fun r => between (fst r) (snd r) c) rs
  | Digit => is_digit c
  end.

(** The fragment of the pattern language the program uses: every repetition
    is a greedy [*] or [+] over a one-character class, and groups are
    named. *)
Inductive regex : Type :=
| Eps
| One (k : cclass)
| Star (k : cclass)
| Plus (k : cclass)
| Cat (r1 r2 : regex)
| Group (name : string) (r : regex).

(** The captured groups, most recent first. *)
Definition groups := list (string * str).

Fixpoint group (name : string) (g : groups) : option str :=
  match g with
  | [] => None
  | (n, v) :: g' => if String.eqb n name then Some v else group name g'
  end.

(** The part of [s] read when [s'] remains. *)
Definition consumed (s s' : str) : str := firstn (length s - length s') s.

Section Matcher.
Variable A : Type.

(** Greedy repetition with backtracking: take as many characters of the
    class as there are, and give one back at a time while the rest of the
    pattern [k] fails. *)
Fixpoint star_k (c : cclass) (s : str) (k : str -> option A) : option A :=
  match s with
  | x :: s' =>
      if in_class c x then
        match star_k c s' k with
        | Some a => Some a
        | None => k s
        end
      else k s
  | [] => k s
  end.

(** The backtracking matcher, in continuation-passing style: [k] is the rest
    of the pattern. *)
Fixpoint match_k (r : regex) (s : str) (g : groups)
    (k : str -> groups -> option A) : option A :=
  match r with
  | Eps => k s g
  | One c =>
      match s with
      | x :: s' => if in_class c x then k s' g else None
      | [] => None
      end
  | Star c => star_k c s (fun s' => k s' g)
  | Plus c =>
      match s with
      | x :: s' => if in_class c x then star_k c s' (fun s' => k s' g) else None
      | [] => None
      end
  | Cat r1 r2 => match_k r1 s g (fun s' g' => match_k r2 s' g' k)
  | Group n r1 => match_k r1 s g (fun s' g' => k s' ((n, consumed s s') :: g'))
  end.

End Matcher.

(** [re.match]: the pattern at the start of [s]. *)
Definition match_here (r : regex) (s : str) : option groups :=
  match_k r s [] (fun _ g => Some g).

(** [re.search]: the leftmost position where the pattern matches. *)
Fixpoint search (r : regex) (s : str) : option groups :=
  match match_here r s with
  | Some g => Some g
  | None =>
      match s with
      | _ :: s' => search r s'
      | [] => None
      end
  end.

Fixpoint cat (rs : list regex) : regex :=
  match rs with
  | [] => Eps
  | [r] => r
  | r :: rs' => Cat r (cat rs')
  end.

(** Every character of [t] is in the class [k]. *)
Definition all_in (k : cclass) (t : str) : Prop :=
  Forall (fun c => in_class k c = true) t.

(** What a pattern means, apart from the order in which the matcher tries
    things: [Matches r t g g'] when [r] matches exactly the text [t] and
    adds its groups to [g], giving [g']. *)
Fixpoint Matches (r : regex) (t : str) (g g' : groups) : Prop :=
  match r with
  | Eps => t = [] /\ g' = g
  | One k => exists x, t = [x] /\ in_class k x = true /\ g' = g
  | Star k => all_in k t /\ g' = g
  | Plus k => t <> [] /\ all_in k t /\ g' = g
  | Cat r1 r2 =>
      exists t1 t2 g1,
        t = t1 ++ t2 /\ Matches r1 t1 g g1 /\ Matches r2 t2 g1 g'
  | Group n r1 => exists g1, Matches r1 t g g1 /\ g' = (n, t) :: g1
  end.

(** The pattern matches somewhere in [s]. *)
Definition occurs (r : regex) (s : str) : Prop :=
  exists pre t post g, s = pre ++ t ++ post /\ Matches r t [] g.

End Re.

Import Re.

(* ===================================================================== *)
(** * Numbers and exceptions *)
(* ===================================================================== *)

Module PyNum.

(** The exceptions the program can meet, with their messages (the
    interpreter's own messages are shortened to their fixed part). *)
Inductive exn : Type :=
| ValueError (msg : string)
| OverflowError (msg : string)
| RuntimeError (msg : string).

Inductive outcome (A : Type) : Type :=
| Ok (a : A)
| Raise (e : exn).

Arguments Ok {A} a.
Arguments Raise {A} e.

(** ** [int(s)] and [locale.atoi(s)] *)

Definition digit_value (c : ascii) : Z := Z.of_N (code c - 48).

(** Decimal digits, with single underscores allowed between two digits. *)
Fixpoint int_digits (acc : Z) (s : str) : option Z :=
  match s with
  | [] => None
  | c :: s' =>
      if is_digit c then
        let acc' := (10 * acc + digit_value c)%Z in
        match s' with
        | [] => Some acc'
        | c' :: s'' =>
            if eqc c' "_" then int_digits acc' s'' else int_digits acc' s'
        end
      else None
  end.

(** The whitespace [int()] and [float()] strip: that of [str.isspace] but
    for FS, GS, RS and US. *)
Definition is_int_space (c : ascii) : bool :=
  let n := code c in
  ((9 <=? n) && (n <=? 13) || (n =? 32) || (n =? 133) || (n =? 160))%N.

(** The digits and underscores a text begins with, and what follows
    them. *)
Fixpoint numeral_run (s : str) : str * str :=
  match s with
  | [] => ([], [])
  | c :: s' =>
      if is_digit c || eqc c "_" then
        let (run, rest) := numeral_run s' in (c :: run, rest)
      else ([], s)
  end.

(** [sys.get_int_max_str_digits()], as the interpreter starts. *)
Definition MAX_STR_DIGITS : Z := 4300.

(** [int(s)], base 10: surrounding whitespace, an optional sign, digits.
    The interpreter reads the digits and underscores the numeral begins
    with; when they are well formed and more than [MAX_STR_DIGITS] of them
    are digits it raises its own [ValueError], before it looks at what
    follows them. *)
Definition py_int (s : str) : outcome Z :=
  let t := strip_by is_int_space s in
  let '(negative, body) :=
    match t with
    | c :: r =>
        if eqc c "-" then (true, r)
        else if eqc c "+" then (false, r)
        else (false, t)
    | [] => (false, t)
    end in
  let (run, rest) := numeral_run body in
  match int_digits 0 run with
  | Some n =>
      if (MAX_STR_DIGITS <? Z.of_nat (length (filter is_digit run)))%Z then
        Raise (ValueError
                 "Exceeds the limit (4300 digits) for integer string conversion")
      else
        match rest with
        | [] => Ok (if negative then (- n)%Z else n)
        | _ :: _ => Raise (ValueError "invalid literal for int() with base 10")
        end
  | None => Raise (ValueError "invalid literal for int() with base 10")
  end.

(** [locale.delocalize] under [en_US.UTF-8]: the thousands separator [,] is
    removed and the decimal point stays [.]. *)
Definition delocalize (s : str) : str := remove_char "," s.

(** [locale.atoi(s)] is [int(delocalize(s))]. *)
Definition atoi (s : str) : outcome Z := py_int (delocalize s).

(** ** binary64 *)

(** A [float], by its exact value. *)
Inductive float : Type :=
| Finite (q : Q)
| PosInf
| NegInf
| NaN.

(** [n / d] rounded to the nearest integer, ties to even ([0 <= n], [0 < d]). *)
Definition round_half_even (n d : Z) : Z :=
  let q := (n / d)%Z in
  let r := (n mod d)%Z in
  match (2 * r ?= d)%Z with
  | Lt => q
  | Gt => (q + 1)%Z
  | Eq => if Z.even q then q else (q + 1)%Z
  end.

(** The binary64 nearest to the rational [q] (round to nearest, ties to
    even): 53 significant bits, least exponent -1074, overflow to infinity. *)
Definition round64 (q : Q) : float :=
  let n := Qnum q in
  let d := Zpos (Qden q) in
  if (n =? 0)%Z then Finite 0
  else
    let a := Z.abs n in
    let e0 := (Z.log2 a - Z.log2 d)%Z in
    (* e = floor (log2 (a / d)) *)
    let e :=
      if (d * 2 ^ Z.max 0 e0 <=? a * 2 ^ Z.max 0 (- e0))%Z then e0
      else (e0 - 1)%Z in
    (* the exponent of the last bit kept *)
    let qe := Z.max (e - 52) (-1074) in
    let m := round_half_even (a * 2 ^ Z.max 0 (- qe)) (d * 2 ^ Z.max 0 qe) in
    if (2 ^ 1024 <=? m * 2 ^ Z.max 0 qe)%Z then
      (if (n <? 0)%Z then NegInf else PosInf)
    else
      Finite (Qred (Qmake (Z.sgn n * m * 2 ^ Z.max 0 qe)
                          (Z.to_pos (2 ^ Z.max 0 (- qe))))).

Definition Qlt_bool (x y : Q) : bool := negb (Qle_bool y x).

Definition is_neg (f : float) : bool :=
  match f with
  | Finite q => (Qnum q <? 0)%Z
  | NegInf => true
  | _ => false
  end.

Definition is_zero (f : float) : bool :=
  match f with
  | Finite q => (Qnum q =? 0)%Z
  | _ => false
  end.

(** [a * b] *)
Definition fmul (a b : float) : float :=
  match a, b with
  | NaN, _ | _, NaN => NaN
  | Finite x, Finite y => round64 (x * y)
  | _, _ =>
      if is_zero a || is_zero b then NaN
      else if xorb (is_neg a) (is_neg b) then NegInf else PosInf
  end.

(** [a - b] *)
Definition fsub (a b : float) : float :=
  match a, b with
  | NaN, _ | _, NaN => NaN
  | Finite x, Finite y => round64 (x - y)
  | PosInf, PosInf | NegInf, NegInf => NaN
  | PosInf, _ | _, NegInf => PosInf
  | NegInf, _ | _, PosInf => NegInf
  end.

(** [a > b] *)
Definition fgt (a b : float) : bool :=
  match a, b with
  | NaN, _ | _, NaN => false
  | Finite x, Finite y => Qlt_bool y x
  | PosInf, PosInf | NegInf, _ | _, PosInf => false
  | PosInf, _ | _, NegInf => true
  end.

(** An [int] operand of a float operation. *)
Definition float_of_Z (z : Z) : float := round64 (inject_Z z).

(** [int(f)]: truncation toward zero. *)
Definition int_of_float (f : float) : outcome Z :=
  match f with
  | Finite q => Ok (Z.quot (Qnum q) (Zpos (Qden q)))
  | PosInf | NegInf =>
      Raise (OverflowError "cannot convert float infinity to integer")
  | NaN => Raise (ValueError "cannot convert float NaN to integer")
  end.

(** [round(f)]: the nearest integer, ties to even. *)
Definition py_round (f : float) : outcome Z :=
  match f with
  | Finite q =>
      let n := Qnum q in
      let m := round_half_even (Z.abs n) (Zpos (Qden q)) in
      Ok (Z.sgn n * m)%Z
  | PosInf | NegInf =>
      Raise (OverflowError "cannot convert float infinity to integer")
  | NaN => Raise (ValueError "cannot convert float NaN to integer")
  end.

(** ** [float(s)] *)

Fixpoint digits_value (acc : Z) (s : str) : Z :=
  match s with
  | [] => acc
  | c :: s' => digits_value (10 * acc + digit_value c)%Z s'
  end.

(** The text before the first [.], and the text after it if there is one. *)
Fixpoint split_point (s : str) : str * option str :=
  match s with
  | [] => ([], None)
  | c :: s' =>
      if eqc c "." then ([], Some s')
      else let '(i, f) := split_point s' in (c :: i, f)
  end.

(** The exact value of a decimal numeral: digits with at most one point and
    at least one digit. *)
Definition decimal_value (s : str) : option Q :=
  let '(i, f) := split_point s in
  let f := match f with Some f => f | None => [] end in
  if forallb is_digit i && forallb is_digit f
     && negb (Nat.eqb (length i + length f) 0)
  then Some (Qmake (digits_value 0 (i ++ f))
                   (Z.to_pos (10 ^ Z.of_nat (length f))))
  else None.

(** [float(s)] for a text [s] over [[0-9.]], the only texts the program
    passes to it: the correctly rounded value of the numeral. *)
Definition py_float (s : str) : outcome float :=
  match decimal_value s with
  | Some q => Ok (round64 q)
  | None => Raise (ValueError "could not convert string to float")
  end.

End PyNum.

Import PyNum.

(* ===================================================================== *)
(** * Effects *)
(* ===================================================================== *)

Module Runtime.

(** The two descriptors the loop watches: the master ends of the child's
    stdout and stderr pseudo-terminals. *)
Inductive fd : Type := m_out | m_err.

(** A value handed to [print]. *)
Inductive pyval : Type :=
| VStr (s : str)
| VInt (z : Z)
| VFloat (f : float).

(** What the program does to the outside, in the order it does it: a call of
    [print], with the text (or format) and the values put into it, and the
    calls [process.terminate()] and [process.kill()]. *)
Inductive event : Type :=
| Print (text : string) (args : list pyval)
| Terminate
| Kill.

(** The outside world.  The first four fields are what the world will
    answer: the [k]-th reading of [time.time()], the [k]-th result of
    [select.select], the bytes the [k]-th [os.read] returns (as text) and
    what the [k]-th look at the child finds (its exit status once it has
    exited).  Then the number of calls made so far, the cached
    [process.returncode], and the events so far, most recent first. *)
Record world : Type := {
  clock : nat -> Q;
  ready : nat -> list fd;
  chunk : nat -> fd -> str;
  status : nat -> option Z;
  n_clock : nat;
  n_select : nat;
  n_read : nat;
  n_poll : nat;
  returncode : option Z;
  trace : list event
}.

Definition tick_clock (w : world) : world :=
  {| clock := clock w; ready := ready w; chunk := chunk w; status := status w;
     n_clock := S (n_clock w); n_select := n_select w; n_read := n_read w;
     n_poll := n_poll w; returncode := returncode w; trace := trace w |}.

Definition tick_select (w : world) : world :=
  {| clock := clock w; ready := ready w; chunk := chunk w; status := status w;
     n_clock := n_clock w; n_select := S (n_select w); n_read := n_read w;
     n_poll := n_poll w; returncode := returncode w; trace := trace w |}.

Definition tick_read (w : world) : world :=
  {| clock := clock w; ready := ready w; chunk := chunk w; status := status w;
     n_clock := n_clock w; n_select := n_select w; n_read := S (n_read w);
     n_poll := n_poll w; returncode := returncode w; trace := trace w |}.

Definition tick_poll (r : option Z) (w : world) : world :=
  {| clock := clock w; ready := ready w; chunk := chunk w; status := status w;
     n_clock := n_clock w; n_select := n_select w; n_read := n_read w;
     n_poll := S (n_poll w); returncode := r; trace := trace w |}.

Definition emit (e : event) (w : world) : world :=
  {| clock := clock w; ready := ready w; chunk := chunk w; status := status w;
     n_clock := n_clock w; n_select := n_select w; n_read := n_read w;
     n_poll := n_poll w; returncode := returncode w; trace := e :: trace w |}.

Section Monad.
(** [V]: the program's own variables that outlive one call. *)
Variable V : Type.

(** A computation: from the world and the variables to a value or an
    exception, and the world and the variables it leaves. *)
Definition M (A : Type) : Type := world * V -> outcome A * (world * V).

Definition ret {A} (a : A) : M A := fun s => (Ok a, s).

Definition bind {A B} (m : M A) (k : A -> M B) : M B :=
  fun s =>
    match m s with
    | (Ok a, s') => k a s'
    | (Raise e, s') => (Raise e, s')
    end.

Definition raise {A} (e : exn) : M A := fun s => (Raise e, s).

(** A pure library call that may raise. *)
Definition lift {A} (o : outcome A) : M A := fun s => (o, s).

Definition get_vars : M V := fun s => (Ok (snd s), s).

Definition set_vars (f : V -> V) : M unit :=
  fun s => (Ok tt, (fst s, f (snd s))).

(** [time.time()] *)
Definition time_time : M float :=
  fun s => let w := fst s in
           (Ok (Finite (clock w (n_clock w))), (tick_clock w, snd s)).

(** [select.select([m_out, m_err], [], [], timeout)], its first component. *)
Definition select_select : M (list fd) :=
  fun s => let w := fst s in
           (Ok (ready w (n_select w)), (tick_select w, snd s)).

(** [os.fsdecode(os.read(fd, 512))]: the read is taken to return, with no
    bytes or some. *)
Definition os_read (d : fd) : M str :=
  fun s => let w := fst s in
           (Ok (chunk w (n_read w) d), (tick_read w, snd s)).

(** [process.poll()]: the exit status, kept once seen. *)
Definition process_poll : M (option Z) :=
  fun s => let w := fst s in
           match returncode w with
           | Some c => (Ok (Some c), s)
           | None => let r := status w (n_poll w) in
                     (Ok r, (tick_poll r w, snd s))
           end.

(** [subprocess.Popen(...)]: a new child, not yet known to have exited. *)
Definition subprocess_Popen : M unit :=
  fun s => let w := fst s in
           (Ok tt, ({| clock := clock w; ready := ready w; chunk := chunk w;
                       status := status w; n_clock := n_clock w;
                       n_select := n_select w; n_read := n_read w;
                       n_poll := n_poll w; returncode := None;
                       trace := trace w |}, snd s)).

Definition do_event (e : event) : M unit :=
  fun s => (Ok tt, (emit e (fst s), snd s)).

Definition print (text : string) (args : list pyval) : M unit :=
  do_event (Print text args).

(** [process.terminate()] and [process.kill()] *)
Definition process_terminate : M unit := do_event Terminate.
Definition process_kill : M unit := do_event Kill.

(** [for x in xs: acc = body(acc, x)] *)
Fixpoint for_each {X A} (xs : list X) (body : A -> X -> M A) (acc : A) : M A :=
  match xs with
  | [] => ret acc
  | x :: xs' => bind (body acc x) (for_each xs' body)
  end.

(** [if c: m] *)
Definition when (c : bool) (m : M unit) : M unit := if c then m else ret tt.

End Monad.

Arguments ret {V A} a.
Arguments bind {V A B} m k.
Arguments raise {V A} e.
Arguments lift {V A} o.
Arguments get_vars {V}.
Arguments set_vars {V} f.
Arguments time_time {V}.
Arguments select_select {V}.
Arguments os_read {V} d.
Arguments process_poll {V}.
Arguments subprocess_Popen {V}.
Arguments do_event {V} e.
Arguments print {V} text args.
Arguments process_terminate {V}.
Arguments process_kill {V}.
Arguments for_each {V X A} xs body acc.
Arguments when {V} c m.

Declare Scope py_scope.
Delimit Scope py_scope with py.
Notation "x <- m ;; k" := (bind m (fun x => k))
  (at level 61, m at next level, right associativity) : py_scope.
Notation "m ;; k" := (bind m (fun _ => k))
  (at level 61, right associativity) : py_scope.

End Runtime.

Import Runtime.

(* ===================================================================== *)
(** * sync_downloaded_files.py *)
(* ===================================================================== *)

Module SyncDownloadedFiles.

Local Open Scope py_scope.
Local Open Scope char_scope.

Definition RATE_LOW_TIMEOUT : float := Finite 30.
Definition TRANSFER_RATE_MIN : Z := 100000.

(** [class States].  The class body runs once, when the module is loaded,
    so the default of [last_acceptable_rate_time] is the reading of the clock
    at that moment, [loaded_at]. *)
Record States : Type := {
  low_xfer_rate : bool;
  last_acceptable_rate_time : float;
  last_line : str;
  last_was_progress : bool
}.

Definition new_States (loaded_at : float) : States :=
  {| low_xfer_rate := false;
     last_acceptable_rate_time := loaded_at;
     last_line := [];
     last_was_progress := false |}.

Definition with_low_xfer_rate (b : bool) (st : States) : States :=
  {| low_xfer_rate := b;
     last_acceptable_rate_time := last_acceptable_rate_time st;
     last_line := last_line st;
     last_was_progress := last_was_progress st |}.

Definition with_last_acceptable_rate_time (t : float) (st : States) : States :=
  {| low_xfer_rate := low_xfer_rate st;
     last_acceptable_rate_time := t;
     last_line := last_line st;
     last_was_progress := last_was_progress st |}.

Definition with_last_line (l : str) (st : States) : States :=
  {| low_xfer_rate := low_xfer_rate st;
     last_acceptable_rate_time := last_acceptable_rate_time st;
     last_line := l;
     last_was_progress := last_was_progress st |}.

Definition with_last_was_progress (b : bool) (st : States) : States :=
  {| low_xfer_rate := low_xfer_rate st;
     last_acceptable_rate_time := last_acceptable_rate_time st;
     last_line := last_line st;
     last_was_progress := b |}.

(** [class RsyncProgressStatus] *)
Record RsyncProgressStatus : Type := {
  bytes_transferred : Z;
  percent_transferred : float;
  transfer_rate : Z;
  eta : str
}.

(** The variables of [run_rsync_command] that live across the iterations of
    its loop: the [States] object it shares with [watch_rsync_progress], and
    [last_activity]. *)
Record vars : Type := {
  states : States;
  last_activity : float
}.

Definition Cmd : Type -> Type := M vars.

Definition get_states : Cmd States := v <- get_vars ;; ret (states v).

Definition set_states (f : States -> States) : Cmd unit :=
  set_vars (fun v => {| states := f (states v);
                        last_activity := last_activity v |}).

Definition get_last_activity : Cmd float := v <- get_vars ;; ret (last_activity v).

Definition set_last_activity (t : float) : Cmd unit :=
  set_vars (fun v => {| states := states v; last_activity := t |}).

(** The text of a named group of a match. *)
Definition group_text (name : string) (g : groups) : str :=
  match group name g with
  | Some v => v
  | None => []
  end.

Section ParseRate.
(** [parse_rate] touches no variable of the program: it is the same
    computation whatever they are. *)
Variable V : Type.

(** [(?P<val>[0-9.]+)(?P<unit>[a-zA-Z]+)/s] *)
Definition rate_pattern : regex :=
  cat [ Group "val" (Plus (Range [("0", "9"); (".", ".")]));
        Group "unit" (Plus (Range [("a", "z"); ("A", "Z")]));
        One (Lit "/");
        One (Lit "s") ].

Definition parse_rate (rate_string : str) : M V Z :=
  match search rate_pattern rate_string with
  | None =>
      print "rate_string:" [VStr rate_string] ;;
      print "rate_string NO match" [] ;;
      ret 0%Z
  | Some result =>
      val <- lift (py_float (group_text "val" result)) ;;
      let unit := upper (group_text "unit" result) in
      ret_val <-
        (if str_eqb unit (txt "KB") then
           ret (fmul val (float_of_Z 1024))
         else if str_eqb unit (txt "MB") then
           ret (fmul (fmul val (float_of_Z 1024)) (float_of_Z 1024))
         else
           raise (ValueError ("Unknown unit!: " ++ string_of_list_ascii unit))) ;;
      lift (int_of_float ret_val)
  end.

(** The pattern of [parse_progress_line], written with [re.VERBOSE]:
    [(?P<bytes>.*[0-9,]+) +(?P<percent>[0-9.]+)% +(?P<rate>[0-9A-Za-z.]+/s) +(?P<eta>\d+:\d\d:\d\d).*] *)
Definition progress_pattern : regex :=
  cat [ Group "bytes" (Cat (Star Dot) (Plus (Range [("0", "9"); (",", ",")])));
        Plus (Lit " ");
        Group "percent" (Plus (Range [("0", "9"); (".", ".")]));
        One (Lit "%");
        Plus (Lit " ");
        Group "rate"
          (cat [ Plus (Range [("0", "9"); ("A", "Z"); ("a", "z"); (".", ".")]);
                 One (Lit "/");
                 One (Lit "s") ]);
        Plus (Lit " ");
        Group "eta"
          (cat [ Plus Digit; One (Lit ":"); One Digit; One Digit;
                 One (Lit ":"); One Digit; One Digit ]);
        Star Dot ].

Definition parse_progress_line (line : str) : M V (option RsyncProgressStatus) :=
  match search progress_pattern line with
  | None => ret None
  | Some result =>
      bytes_transferred <- lift (atoi (group_text "bytes" result)) ;;
      percent_transferred <- lift (py_float (group_text "percent" result)) ;;
      transfer_rate <- parse_rate (group_text "rate" result) ;;
      let eta := group_text "eta" result in
      ret (Some {| bytes_transferred := bytes_transferred;
                   percent_transferred := percent_transferred;
                   transfer_rate := transfer_rate;
                   eta := eta |})
  end.

(** [print_progress(progress_stats=..., filename=..., last_was_progress=...)] *)
Definition print_progress (progress_stats : option RsyncProgressStatus)
    (filename : str) (last_was_progress : bool) : M V unit :=
  match progress_stats with
  | Some p =>
      when (negb last_was_progress) (print "{}" [VStr filename]) ;;
      print "\rMatch!: Rate: {:n} bytes/s, Bytes Transferred: {:n}, Percent Transferred: {}%, ETA: {}"
            [VInt (transfer_rate p); VInt (bytes_transferred p);
             VFloat (percent_transferred p); VStr (eta p)]
  | None => ret tt
  end.

End ParseRate.

Arguments parse_rate {V} rate_string.
Arguments parse_progress_line {V} line.
Arguments print_progress {V} progress_stats filename last_was_progress.

(** The low-rate policy: the body of [if progress_stats:] in
    [watch_rsync_progress] (lines 213-232), for the sample [p].  The result
    is the new value of [should_terminate]. *)
Definition check_transfer_rate (p : RsyncProgressStatus)
    (should_terminate : bool) : Cmd bool :=
  set_states (with_last_was_progress true) ;;
  if (transfer_rate p >? TRANSFER_RATE_MIN)%Z then
    now <- time_time ;;
    set_states (with_last_acceptable_rate_time now) ;;
    set_states (with_low_xfer_rate false) ;;
    ret should_terminate
  else
    st <- get_states ;;
    if negb (low_xfer_rate st) then
      set_states (with_low_xfer_rate true) ;;
      ret should_terminate
    else
      now <- time_time ;;
      st <- get_states ;;
      print "Rate is too low!!! {:2.2f} seconds"
            [VFloat (fsub RATE_LOW_TIMEOUT
                          (fsub now (last_acceptable_rate_time st)))] ;;
      set_states (with_last_was_progress false) ;;
      now <- time_time ;;
      st <- get_states ;;
      if fgt (fsub now (last_acceptable_rate_time st)) RATE_LOW_TIMEOUT then
        ret true
      else
        ret should_terminate.

(** The body of [for line in temp_string.splitlines():] (lines 203-236). *)
Definition watch_line (should_terminate : bool) (line : str) : Cmd bool :=
  st <- get_states ;;
  when (negb (last_was_progress st)) (print "\t{line!r}" [VStr line]) ;;
  progress_stats <- parse_progress_line line ;;
  st <- get_states ;;
  print_progress progress_stats (last_line st) (last_was_progress st) ;;
  match progress_stats with
  | Some p => check_transfer_rate p should_terminate
  | None =>
      match line with
      | _ :: _ =>
          set_states (with_last_was_progress false) ;;
          set_states (with_last_line line) ;;
          ret should_terminate
      | [] => ret should_terminate
      end
  end.

(** The body of [for fd in active_fds:] (lines 196-236). *)
Definition watch_fd (should_terminate : bool) (d : fd) : Cmd bool :=
  data <- os_read d ;;
  match data with
  | [] => ret should_terminate
  | _ :: _ =>
      let temp_string := strip data in
      for_each (splitlines temp_string) watch_line should_terminate
  end.

Definition watch_rsync_progress (active_fds : list fd) : Cmd bool :=
  for_each active_fds watch_fd false.

(** What one turn of [while True:] decides. *)
Inductive control : Type := Next | Break.

(** The body of the loop of [run_rsync_command] (lines 134-154). *)
Definition loop_body : Cmd control :=
  ready <- select_select ;;
  match ready with
  | _ :: _ =>
      now <- time_time ;;
      set_last_activity now ;;
      should_terminate <- watch_rsync_progress ready ;;
      when should_terminate
        (print "Killing process as rate too low" [] ;;
         process_terminate) ;;
      ret Next
  | [] =>
      code <- process_poll ;;
      match code with
      | Some _ => ret Break
      | None =>
          now <- time_time ;;
          last <- get_last_activity ;;
          when (fgt (fsub now last) (Finite 60))
            (now <- time_time ;;
             last <- get_last_activity ;;
             print "No activity for {:2.2f} seconds" [VFloat (fsub now last)] ;;
             print "Terminating rsync process" [] ;;
             process_terminate) ;;
          now <- time_time ;;
          last <- get_last_activity ;;
          when (fgt (fsub now last) (Finite 120))
            (print "Killing rsync process" [] ;;
             process_kill) ;;
          ret Next
      end
  end.

(** [while True:], for at most [fuel] turns: [true] when it left by
    [break], [false] when the turns ran out. *)
Fixpoint while_true (fuel : nat) : Cmd bool :=
  match fuel with
  | O => ret false
  | S fuel' =>
      c <- loop_body ;;
      match c with
      | Break => ret true
      | Next => while_true fuel'
      end
  end.

(** [run_rsync_command(cmd_line, ptys)]:
    [loaded_at] is the clock when the module was loaded.  [None] when the
    loop is still running after [fuel] turns. *)
Definition run_rsync_command (loaded_at : float) (fuel : nat) : Cmd (option Z) :=
  subprocess_Popen ;;
  set_states (fun _ => new_States loaded_at) ;;
  now <- time_time ;;
  set_last_activity now ;;
  left <- while_true fuel ;;
  if left then
    exit_code <- process_poll ;;
    match exit_code with
    | Some c => ret (Some c)
    | None => raise (RuntimeError "Unexpectedly got None for process.poll()")
    end
  else ret None.

End SyncDownloadedFiles.

(* ===================================================================== *)
(** * sync-downloaded-files.py *)
(* ===================================================================== *)

Module SyncDownloadedFilesScript.

Local Open Scope py_scope.
Local Open Scope char_scope.

Section ParseRate.
Variable V : Type.

Definition group_text (name : string) (g : groups) : str :=
  match group name g with
  | Some v => v
  | None => []
  end.

(** [(?P<val>[0-9.]+)(?P<unit>[a-zA-Z]+)/s] *)
Definition rate_pattern : regex :=
  cat [ Group "val" (Plus (Range [("0", "9"); (".", ".")]));
        Group "unit" (Plus (Range [("a", "z"); ("A", "Z")]));
        One (Lit "/");
        One (Lit "s") ].

(** [parse_rate] of the script (its lines 200-215). *)
Definition parse_rate (rate_string : str) : M V Z :=
  match search rate_pattern rate_string with
  | None =>
      print "rate_string:" [VStr rate_string] ;;
      print "rate_string NO match" [] ;;
      ret 0%Z
  | Some result =>
      val <- lift (py_float (group_text "val" result)) ;;
      let unit := upper (group_text "unit" result) in
      ret_val <-
        (if str_eqb unit (txt "KB") then
           ret (fmul val (float_of_Z 1024))
         else if str_eqb unit (txt "MB") then
           ret (fmul (fmul val (float_of_Z 1024)) (float_of_Z 1024))
         else
           raise (ValueError ("Unknown unit!: " ++ string_of_list_ascii unit))) ;;
      lift (int_of_float ret_val)
  end.

End ParseRate.

Arguments parse_rate {V} rate_string.

End SyncDownloadedFilesScript.

(* ===================================================================== *)
(** * The vocabulary of the statements *)
(* ===================================================================== *)

Module Vocabulary.
Import SyncDownloadedFiles.
Local Open Scope char_scope.

(** ** The classes of the two patterns *)

(** [[0-9.]] and [[a-zA-Z]], of the rate pattern. *)
Definition decimal_chars : cclass := Range [("0", "9"); (".", ".")].
Definition letters : cclass := Range [("a", "z"); ("A", "Z")].

(** [[0-9,]], [[0-9A-Za-z.]] and the space, of the progress pattern. *)
Definition digits_commas : cclass := Range [("0", "9"); (",", ",")].
Definition rate_chars : cclass :=
  Range [("0", "9"); ("A", "Z"); ("a", "z"); (".", ".")].
Definition blank : cclass := Lit " ".

(** The text of the [eta] group: [\d+:\d\d:\d\d]. *)
Definition eta_text (h : str) (d1 d2 d3 d4 : ascii) : str :=
  h ++ ":" :: d1 :: d2 :: ":" :: d3 :: d4 :: [].

(** A progress line, field by field. *)
Definition progress_text (lead b s1 p s2 r s3 h : str) (d1 d2 d3 d4 : ascii)
    (rest : str) : str :=
  lead ++ b ++ s1 ++ p ++ "%" :: s2 ++ r ++ "/" :: "s" :: s3 ++
  h ++ ":" :: d1 :: d2 :: ":" :: d3 :: d4 :: rest.

Definition progress_groups (lead b p r h : str) (d1 d2 d3 d4 : ascii) : groups :=
  [ ("eta"%string, eta_text h d1 d2 d3 d4);
    ("rate"%string, r ++ txt "/s");
    ("percent"%string, p);
    ("bytes"%string, lead ++ b) ].


(** The product [parse_rate] hands to [int()] for a known unit: [val * 1024]
    for KB, [val * 1024 * 1024] otherwise, in binary64. *)
Definition scaled_rate (q : Q) (unit : str) : float :=
  if str_eqb (upper unit) (txt "KB") then fmul (round64 q) (float_of_Z 1024)
  else fmul (fmul (round64 q) (float_of_Z 1024)) (float_of_Z 1024).

(** ** The rate policy and the loop *)

(** The states after a sample above the floor, read at [now]. *)
Definition after_high (now : float) (st : States) : States :=
  {| low_xfer_rate := false;
     last_acceptable_rate_time := now;
     last_line := last_line st;
     last_was_progress := true |}.

(** The states after a first low sample. *)
Definition after_first_low (st : States) : States :=
  {| low_xfer_rate := true;
     last_acceptable_rate_time := last_acceptable_rate_time st;
     last_line := last_line st;
     last_was_progress := true |}.

Definition with_states (st : States) (v : vars) : vars :=
  {| states := st; last_activity := last_activity v |}.

(** The [k]-th reading of the clock from now on. *)
Definition reading (w : world) (k : nat) : float :=
  Finite (clock w (n_clock w + k)).

(** The calls of [process.terminate()] and [process.kill()] among some
    events. *)
Definition signals (evs : list event) : list event :=
  filter (fun e => match e with Print _ _ => false | _ => true end) evs.

(** ** Worlds *)

(** A world at its beginning, from what it will answer. *)
Definition world_of (clock : nat -> Q) (ready : nat -> list fd)
    (chunk : nat -> fd -> str) (status : nat -> option Z) : world :=
  {| clock := clock; ready := ready; chunk := chunk; status := status;
     n_clock := 0; n_select := 0; n_read := 0; n_poll := 0;
     returncode := None; trace := [] |}.

(** Nothing to read, the child runs on, the clock stands at [t]. *)
Definition quiet_world (t : Q) : world :=
  world_of (fun _ => t) (fun _ => []) (fun _ _ => []) (fun _ => None).

Definition vars_of (st : States) (last : float) : vars :=
  {| states := st; last_activity := last |}.

(** The variables as [run_rsync_command] has them when its loop starts at
    time [t]. *)
Definition fresh_vars (t : Q) : vars :=
  vars_of (new_States (Finite t)) (Finite t).

(** The child's stdout has one chunk ready at every turn, always the same
    text; the clock stands at [t]. *)
Definition chatty_world (t : Q) (text : str) : world :=
  world_of (fun _ => t) (fun _ => [m_out]) (fun _ _ => text) (fun _ => None).

(** What [select] reports readable has bytes: the read of each descriptor
    of the list, in its turn, gives one byte or more.  (So it is with the
    masters of the ptys of [pty_open], whose slaves the program keeps open:
    they are readable when the child has written.) *)
Definition ready_means_bytes (w : world) : Prop :=
  forall (i : nat) (d : fd),
    nth_error (ready w (n_select w)) i = Some d ->
    chunk w (n_read w + i) d <> [].

(** On the turn of the loop that begins in [w] and ends in [w'], a read of
    one byte or more succeeded: the turn has read the [i]-th of the
    descriptors [select] reported, for some [i], and that read gave
    bytes. *)
Definition read_some_bytes (w w' : world) : Prop :=
  exists (i : nat) (d : fd),
    nth_error (ready w (n_select w)) i = Some d /\
    (n_read w + i < n_read w')%nat /\
    chunk w (n_read w + i) d <> [].

End Vocabulary.

Import Vocabulary.

(* ===================================================================== *)
(** * What a computation leaves as it was *)
(* ===================================================================== *)

Module Frames.
Import SyncDownloadedFiles.
Local Open Scope nat_scope.

(** The world after the events [evs] (most recent first) and nothing else. *)
Definition printed (evs : list event) (w : world) : world :=
  {| clock := clock w; ready := ready w; chunk := chunk w; status := status w;
     n_clock := n_clock w; n_select := n_select w; n_read := n_read w;
     n_poll := n_poll w; returncode := returncode w; trace := evs ++ trace w |}.

(** The exceptions of the conversions and of [parse_rate]: every one the
    model has but the [RuntimeError] of [run_rsync_command]. *)
Definition parser_error (e : exn) : Prop :=
  match e with
  | RuntimeError _ => False
  | _ => True
  end.

(** The world answers as before. *)
Definition same_answers (w w' : world) : Prop :=
  clock w' = clock w /\ ready w' = ready w /\
  chunk w' = chunk w /\ status w' = status w.

(** From [s] to [s'] nothing happened but calls of [print]. *)
Definition only_printed (V : Type) (s s' : world * V) : Prop :=
  exists prints, signals prints = [] /\ s' = (printed prints (fst s), snd s).

(** From [s] to [s'] the program looked at lines of output: it printed, read
    the clock and updated its [States]; the time of the last acceptable rate
    is as before or is one of the readings. *)
Record watched_lines (s s' : world * vars) : Prop := {
  wl_answers : same_answers (fst s) (fst s');
  wl_select : n_select (fst s') = n_select (fst s);
  wl_read : n_read (fst s') = n_read (fst s);
  wl_poll : n_poll (fst s') = n_poll (fst s);
  wl_returncode : returncode (fst s') = returncode (fst s);
  wl_clock : n_clock (fst s) <= n_clock (fst s');
  wl_trace : exists prints,
      signals prints = [] /\ trace (fst s') = prints ++ trace (fst s);
  wl_activity : last_activity (snd s') = last_activity (snd s);
  wl_acceptable :
    last_acceptable_rate_time (states (snd s'))
    = last_acceptable_rate_time (states (snd s)) \/
    exists k, n_clock (fst s) <= k < n_clock (fst s') /\
              last_acceptable_rate_time (states (snd s'))
              = Finite (clock (fst s) k)
}.

(** The same, with reads of the descriptors besides. *)
Record watched (s s' : world * vars) : Prop := {
  wa_answers : same_answers (fst s) (fst s');
  wa_select : n_select (fst s') = n_select (fst s);
  wa_read : n_read (fst s) <= n_read (fst s');
  wa_poll : n_poll (fst s') = n_poll (fst s);
  wa_returncode : returncode (fst s') = returncode (fst s);
  wa_clock : n_clock (fst s) <= n_clock (fst s');
  wa_trace : exists prints,
      signals prints = [] /\ trace (fst s') = prints ++ trace (fst s);
  wa_activity : last_activity (snd s') = last_activity (snd s);
  wa_acceptable :
    last_acceptable_rate_time (states (snd s'))
    = last_acceptable_rate_time (states (snd s)) \/
    exists k, n_clock (fst s) <= k < n_clock (fst s') /\
              last_acceptable_rate_time (states (snd s'))
              = Finite (clock (fst s) k)
}.

(** From [s] to [s'] the loop of [run_rsync_command] ran: the exit status it
    knows is as before or is what one of its polls found. *)
Record looped (s s' : world * vars) : Prop := {
  lo_answers : same_answers (fst s) (fst s');
  lo_select : n_select (fst s) <= n_select (fst s');
  lo_poll : n_poll (fst s) <= n_poll (fst s');
  lo_returncode :
    returncode (fst s') = returncode (fst s) \/
    exists k, n_poll (fst s) <= k < n_poll (fst s') /\
              returncode (fst s') = status (fst s) k
}.

Section Obeys.
Variable V : Type.
Variable R : world * V -> world * V -> Prop.

(** [m] takes every state to one that [R] allows, and raises nothing but
    the parsers' exceptions. *)
Definition obeys {A} (m : M V A) : Prop :=
  forall s, R s (snd (m s)) /\
            forall e, fst (m s) = Raise e -> parser_error e.

End Obeys.

End Frames.

(* ===================================================================== *)
(** * States and worlds of the statements about the loop *)
(* ===================================================================== *)

Module Turns.
Import SyncDownloadedFiles.
Local Open Scope char_scope.

(** The state in which a turn that found something to read starts to watch:
    one [select], one reading of the clock, kept as [last_activity]. *)
Definition watching (w : world) (v : vars) : world * vars :=
  (tick_clock (tick_select w),
   {| states := states v; last_activity := reading w 0 |}).

(** The state in which the loop of [run_rsync_command] starts: a new child,
    new [States], one reading of the clock kept as [last_activity]. *)
Definition started (loaded_at : float) (w : world) : world * vars :=
  (tick_clock (fst (snd (subprocess_Popen (w, tt)))),
   {| states := new_States loaded_at; last_activity := reading w 0 |}).

(** The child's stdout has the same chunk ready at every turn: two progress
    lines at 1 KB/s; the clock stands at [t]. *)
Definition two_low_samples (t : Q) : world :=
  chatty_world t
    (txt "1 1% 1.0KB/s 0:00:01" ++ LF :: txt "2 2% 1.0KB/s 0:00:01").

End Turns.

(* ===================================================================== *)
(** * Effects of the session around a run *)
(* ===================================================================== *)

Module Process.

(** The exceptions [execute_rsync], [countdown] and [pty_open] can meet:
    those of the watching code, and those of the calls they make
    themselves.  [KeyboardInterrupt] is delivered where the program sleeps,
    and to a run of rsync that is still in its loop where the model stops
    following it; [CalledProcessError] is named by a handler and raised by
    nothing the program calls. *)
Inductive exc : Type :=
| Std (e : exn)
| OSError (call : string)
| SystemExit (code : Z)
| KeyboardInterrupt
| CalledProcessError.

Inductive result (A : Type) : Type :=
| Done (a : A)
| Raised (e : exc).

Arguments Done {A} a.
Arguments Raised {A} e.

(** What the session uses of its host besides the [world] of a run: the
    descriptors the process has open, what the [k]-th [pty.openpty()] will
    answer (a pair of descriptors, master and slave, or nothing when the
    call fails), the [k]-th reading of [datetime.datetime.now()] (in
    microseconds since 0001-01-01 00:00:00), whether the [k]-th
    [time.sleep] is cut short by the keyboard, whether the [k]-th run of
    rsync, if it is still in its loop after the turns it is followed for,
    is stopped there by the keyboard, and the numbers of calls made so
    far. *)
Record host : Type := {
  fds : list nat;
  openpty : nat -> option (nat * nat);
  now : nat -> Z;
  interrupt : nat -> bool;
  keyboard : nat -> bool;
  n_openpty : nat;
  n_now : nat;
  n_sleep : nat;
  n_run : nat
}.

Definition T (A : Type) : Type := world * host -> result A * (world * host).

Definition treturn {A} (a : A) : T A := fun s => (Done a, s).

Definition tbind {A B} (m : T A) (k : A -> T B) : T B :=
  fun s =>
    match m s with
    | (Done a, s') => k a s'
    | (Raised e, s') => (Raised e, s')
    end.

Definition traise {A} (e : exc) : T A := fun s => (Raised e, s).

Declare Scope session_scope.
Delimit Scope session_scope with session.
Notation "x <- m ;; k" := (tbind m (fun x => k))
  (at level 61, m at next level, right associativity) : session_scope.
Notation "m ;; k" := (tbind m (fun _ => k))
  (at level 61, right associativity) : session_scope.

Local Open Scope session_scope.

(** A run of the watching code, whose variables begin as [v] and are gone
    when it returns.  The run is followed for the turns of its loop that
    [m] has been given: it has returned ([Some a]), it has raised, or it is
    still in its loop ([None]).  In this last case the keyboard may stop it
    where it is: the [KeyboardInterrupt] then arrives as the loop waits for
    its next turn. *)
Definition call_run {V A} (m : M V (option A)) (v : V) : T (option A) :=
  fun s =>
    let h := snd s in
    let h' := {| fds := fds h; openpty := openpty h; now := now h;
                 interrupt := interrupt h; keyboard := keyboard h;
                 n_openpty := n_openpty h; n_now := n_now h;
                 n_sleep := n_sleep h; n_run := S (n_run h) |} in
    match m (fst s, v) with
    | (Ok (Some a), s') => (Done (Some a), (fst s', h'))
    | (Ok None, s') =>
        if keyboard h (n_run h) then (Raised KeyboardInterrupt, (fst s', h'))
        else (Done None, (fst s', h'))
    | (Raise e, s') => (Raised (Std e), (fst s', h'))
    end.

(** [print(...)] and [sys.stdout.write(...)] *)
Definition tprint (text : string) (args : list pyval) : T unit :=
  fun s => (Done tt, (emit (Print text args) (fst s), snd s)).

(** [pty.openpty()] *)
Definition pty_openpty : T (nat * nat) :=
  fun s =>
    let h := snd s in
    let h' (open : list nat) :=
      {| fds := open; openpty := openpty h; now := now h;
         interrupt := interrupt h; keyboard := keyboard h; n_openpty := S (n_openpty h);
         n_now := n_now h; n_sleep := n_sleep h; n_run := n_run h |} in
    match openpty h (n_openpty h) with
    | Some (master, slave) =>
        (Done (master, slave), (fst s, h' (slave :: master :: fds h)))
    | None => (Raised (OSError "openpty"), (fst s, h' (fds h)))
    end.

(** [os.close(fd)]: a descriptor that is not open is an error. *)
Definition os_close (fd : nat) : T unit :=
  fun s =>
    let h := snd s in
    if in_dec Nat.eq_dec fd (fds h) then
      (Done tt,
       (fst s,
        {| fds := remove Nat.eq_dec fd (fds h); openpty := openpty h;
           now := now h; interrupt := interrupt h; keyboard := keyboard h; n_openpty := n_openpty h;
           n_now := n_now h; n_sleep := n_sleep h; n_run := n_run h |}))
    else (Raised (OSError "close"), s).

(** [datetime.datetime.now()] *)
Definition datetime_now : T Z :=
  fun s =>
    let h := snd s in
    (Done (now h (n_now h)),
     (fst s,
      {| fds := fds h; openpty := openpty h; now := now h;
         interrupt := interrupt h; keyboard := keyboard h; n_openpty := n_openpty h;
         n_now := S (n_now h); n_sleep := n_sleep h; n_run := n_run h |})).

(** [time.sleep(seconds)]: the time that passes shows in the later readings
    of the clocks. *)
Definition time_sleep (seconds : Q) : T unit :=
  fun s =>
    let h := snd s in
    let h' := {| fds := fds h; openpty := openpty h; now := now h;
                 interrupt := interrupt h; keyboard := keyboard h; n_openpty := n_openpty h;
                 n_now := n_now h; n_sleep := S (n_sleep h); n_run := n_run h |} in
    if interrupt h (n_sleep h) then (Raised KeyboardInterrupt, (fst s, h'))
    else (Done tt, (fst s, h')).

(** [sys.exit(code)] *)
Definition sys_exit {A} (code : Z) : T A := traise (SystemExit code).

(** [try: m / except ...:], the handlers given by [handler]: [None] for an
    exception that no clause catches. *)
Definition try_except {A} (m : T A) (handler : exc -> option (T A)) : T A :=
  fun s =>
    match m s with
    | (Done a, s') => (Done a, s')
    | (Raised e, s') =>
        match handler e with
        | Some h => h s'
        | None => (Raised e, s')
        end
    end.

(** [try: m / finally: final]: an exception of [final] replaces what [m]
    came to. *)
Definition try_finally {A} (m : T A) (final : T unit) : T A :=
  fun s =>
    match m s with
    | (r, s') =>
        match final s' with
        | (Done _, s'') => (r, s'')
        | (Raised e, s'') => (Raised e, s'')
        end
    end.

(** [for x in xs: body(x)] *)
Fixpoint tfor {X} (xs : list X) (body : X -> T unit) : T unit :=
  match xs with
  | [] => treturn tt
  | x :: xs' => body x ;; tfor xs' body
  end.

(** ** [datetime] *)

Definition microsecond : Z := 1000000.

(** The datetimes: from 0001-01-01 00:00:00 to 9999-12-31 23:59:59.999999,
    3652059 days. *)
Definition datetime_end : Z := 3652059 * 86400 * microsecond.

(** [datetime.timedelta(seconds=n)], in microseconds. *)
Definition timedelta (seconds : Z) : result Z :=
  if (Z.abs (seconds / 86400) >? 999999999)%Z then
    Raised (Std (OverflowError "days; must have magnitude <= 999999999"))
  else Done (seconds * microsecond)%Z.

(** [t + d] for a datetime and a timedelta. *)
Definition datetime_add (t d : Z) : result Z :=
  let r := (t + d)%Z in
  if ((0 <=? r) && (r <? datetime_end))%Z then Done r
  else Raised (Std (OverflowError "date value out of range")).

(** [d.seconds] of a timedelta: what is left of it after its whole days, in
    whole seconds. *)
Definition timedelta_seconds (d : Z) : Z :=
  ((d mod (86400 * microsecond)) / microsecond)%Z.

Definition tlift {A} (r : result A) : T A := fun s => (r, s).

End Process.

(* ===================================================================== *)
(** * sync_downloaded_files.py: the session *)
(* ===================================================================== *)

Module Session.
Import SyncDownloadedFiles Process.

Local Open Scope session_scope.
Local Open Scope char_scope.

(** The [argparse.Namespace] of [parse_args]. *)
Record Namespace : Type := {
  repeat_time : option Z;
  bwlimit : option str;
  exclude_file : option str;
  no_exclude : bool;
  jump_host : option str;
  server_path : str;
  server : str;
  dest_dir : str
}.

(** [if value:] for an optional text: neither [None] nor empty. *)
Definition given (value : option str) : option str :=
  match value with
  | Some (c :: t) => Some (c :: t)
  | _ => None
  end.

(** [sep.join(words)] *)
Fixpoint join (sep : str) (words : list str) : str :=
  match words with
  | [] => []
  | [word] => word
  | word :: rest => word ++ sep ++ join sep rest
  end.

(** The command line [execute_rsync] builds (lines 52-78). *)
Definition cmd_list (args : Namespace) : list str :=
  [ txt "rsync"; txt "--hard-links"; txt "--links"; txt "--partial";
    txt "--perms"; txt "--progress"; txt "--recursive"; txt "--times";
    txt "--verbose"; txt "--timeout=30"; txt "--outbuf=Line" ]
  ++ match given (jump_host args) with
     | Some host => [txt "-e"; txt "ssh -J " ++ host]
     | None => []
     end
  ++ match given (exclude_file args) with
     | Some file => [txt "--exclude-from=" ++ file]
     | None => []
     end
  ++ match given (bwlimit args) with
     | Some limit => [txt "--bwlimit"; limit]
     | None => []
     end
  ++ [txt "--exclude"; txt "*.part"]
  ++ [server args ++ ":" :: server_path args; dest_dir args].

(** [class Ptys] *)
Record Ptys : Type := {
  m_out : nat; s_out : nat;
  m_err : nat; s_err : nat;
  m_in : nat; s_in : nat
}.

(** [with pty_open() as ptys: body(ptys)] *)
Definition pty_open {A} (body : Ptys -> T A) : T A :=
  out <- pty_openpty ;;
  err <- pty_openpty ;;
  inp <- pty_openpty ;;
  try_finally
    (body {| m_out := fst out; s_out := snd out;
             m_err := fst err; s_err := snd err;
             m_in := fst inp; s_in := snd inp |})
    (tfor [fst out; snd out; fst err; snd err; fst inp; snd inp] os_close).

(** The three numbers [countdown] shows for a remaining time (lines
    300-302). *)
Definition time_fields (remaining_time : Z) : Z * Z * Z :=
  let seconds := timedelta_seconds remaining_time in
  ((seconds / 3600)%Z, ((seconds / 60) mod 60)%Z, (seconds mod 60)%Z).

(** The body of the loop of [countdown] (lines 298-309). *)
Definition countdown_tick (stop_time : Z) : T unit :=
  t <- datetime_now ;;
  let remaining_time := (stop_time - t)%Z in
  let '(hours, minutes, seconds) := time_fields remaining_time in
  tprint "\rTime remaining: {:02d}:{:02d}:{:02d}"
         [VInt hours; VInt minutes; VInt seconds] ;;
  try_except (time_sleep 1)
    (fun e => match e with
              | KeyboardInterrupt => Some (sys_exit 1)
              | _ => None
              end).

(** [while datetime.datetime.now() < stop_time:], for at most [fuel] turns:
    [true] when the test failed, [false] when the turns ran out. *)
Fixpoint countdown_loop (stop_time : Z) (fuel : nat) : T bool :=
  match fuel with
  | O => treturn false
  | S fuel' =>
      t <- datetime_now ;;
      if (t <? stop_time)%Z then
        countdown_tick stop_time ;; countdown_loop stop_time fuel'
      else treturn true
  end.

(** [countdown(seconds)]: [true] when it returned within [fuel] turns of its
    loop. *)
Definition countdown (seconds : Z) (fuel : nat) : T bool :=
  t <- datetime_now ;;
  delta <- tlift (timedelta seconds) ;;
  stop_time <- tlift (datetime_add t delta) ;;
  t <- datetime_now ;;
  tprint "Current time is:     {:%H:%M:%S}" [VInt t] ;;
  tprint "Will repeat sync at: {:%H:%M:%S}" [VInt stop_time] ;;
  finished <- countdown_loop stop_time fuel ;;
  if finished then tprint EmptyString [] ;; treturn true
  else treturn false.

(** [if args.repeat_time:] *)
Definition repeats (args : Namespace) : option Z :=
  match repeat_time args with
  | Some 0%Z => None
  | other => other
  end.

(** What one turn of the loop of [execute_rsync] comes to: go on, leave the
    loop, or the model ran out of turns inside. *)
Inductive turn : Type :=
| Again (result : Z)
| Leave (result : Z)
| Unfinished.

(** The body of [while True:] in [execute_rsync] (lines 87-103); [result]
    is the variable as the turn finds it. *)
Definition sync_turn (loaded_at : float) (args : Namespace) (fuel : nat)
    (result : Z) : T turn :=
  tprint "Syncing from {}..." [VStr (server args)] ;;
  tprint "To: {}" [VStr (dest_dir args)] ;;
  tprint "Executing: {}" [VStr (join (txt " ") (cmd_list args))] ;;
  tried <-
    try_except
      (code <- call_run (run_rsync_command loaded_at fuel)
                 (vars_of (new_States loaded_at) loaded_at) ;;
       match code with
       | Some c => treturn (Again c)
       | None => treturn Unfinished
       end)
      (fun e =>
         match e with
         | KeyboardInterrupt =>
             Some (time_sleep (125 # 100) ;;
                   tprint "Program terminated with keyboard interrupt.  Exiting..." [] ;;
                   treturn (Leave 1%Z))
         | CalledProcessError => Some (treturn (Again result))
         | _ => None
         end) ;;
  match tried with
  | Again result' =>
      match repeats args with
      | Some seconds =>
          finished <- countdown seconds fuel ;;
          if finished then treturn (Again result') else treturn Unfinished
      | None => treturn (Leave result')
      end
  | other => treturn other
  end.

(** [while True:], for at most [runs] turns; every loop inside gets [fuel]
    turns.  [None] when the turns ran out. *)
Fixpoint sync_loop (loaded_at : float) (args : Namespace) (fuel runs : nat)
    (result : Z) : T (option Z) :=
  match runs with
  | O => treturn None
  | S runs' =>
      t <- sync_turn loaded_at args fuel result ;;
      match t with
      | Again result' => sync_loop loaded_at args fuel runs' result'
      | Leave result' => treturn (Some result')
      | Unfinished => treturn None
      end
  end.

(** [execute_rsync(args)] *)
Definition execute_rsync (loaded_at : float) (args : Namespace)
    (fuel runs : nat) : T (option Z) :=
  pty_open (fun ptys => sync_loop loaded_at args fuel runs 0%Z).

End Session.

(* ===================================================================== *)
(** * Hosts of the statements about the session *)
(* ===================================================================== *)

Module Hosts.
Import SyncDownloadedFiles Process Session.
Local Open Scope nat_scope.

(** The host with other descriptors open. *)
Definition with_fds (open : list nat) (h : host) : host :=
  {| fds := open; openpty := openpty h; now := now h;
     interrupt := interrupt h; keyboard := keyboard h; n_openpty := n_openpty h;
     n_now := n_now h; n_sleep := n_sleep h; n_run := n_run h |}.

(** The host after [k] more calls of [pty.openpty()]. *)
Definition after_openpty (k : nat) (open : list nat) (h : host) : host :=
  {| fds := open; openpty := openpty h; now := now h;
     interrupt := interrupt h; keyboard := keyboard h; n_openpty := k + n_openpty h;
     n_now := n_now h; n_sleep := n_sleep h; n_run := n_run h |}.

(** The host after [reads] more readings of [datetime.datetime.now()] and
    [sleeps] more calls of [time.sleep]. *)
Definition advanced (reads sleeps : nat) (h : host) : host :=
  {| fds := fds h; openpty := openpty h; now := now h;
     interrupt := interrupt h; keyboard := keyboard h; n_openpty := n_openpty h;
     n_now := reads + n_now h; n_sleep := sleeps + n_sleep h; n_run := n_run h |}.

(** The host after one more run of rsync. *)
Definition ran (h : host) : host :=
  {| fds := fds h; openpty := openpty h; now := now h;
     interrupt := interrupt h; keyboard := keyboard h;
     n_openpty := n_openpty h; n_now := n_now h; n_sleep := n_sleep h;
     n_run := S (n_run h) |}.

(** What a turn of the loop writes, for the reading [t] of the clock. *)
Definition remaining_line (stop_time t : Z) : event :=
  let '(hours, minutes, seconds) := time_fields (stop_time - t) in
  Print "\rTime remaining: {:02d}:{:02d}:{:02d}"
        [VInt hours; VInt minutes; VInt seconds].

(** What a turn prints before it runs rsync. *)
Definition announced (args : Namespace) (w : world) : world :=
  emit (Print "Executing: {}" [VStr (join (txt " ") (cmd_list args))])
    (emit (Print "To: {}" [VStr (dest_dir args)])
       (emit (Print "Syncing from {}..." [VStr (server args)]) w)).

(** A host at its beginning, from what it has open and what it will
    answer. *)
Definition host_of (open : list nat) (openpty : nat -> option (nat * nat))
    (now : nat -> Z) (interrupt : nat -> bool) : host :=
  {| fds := open; openpty := openpty; now := now; interrupt := interrupt;
     keyboard := fun _ => false;
     n_openpty := 0; n_now := 0; n_sleep := 0; n_run := 0 |}.

(** Standard input, output and error are open; every [pty.openpty()] gives
    the next two descriptors; the clock starts at noon of some day and
    moves on by one second between two readings; nobody touches the
    keyboard. *)
Definition calm_host : host :=
  host_of [0; 1; 2]%nat
          (fun k => Some (3 + 2 * k, 4 + 2 * k)%nat)
          (fun k => (43200000000 + 1000000 * Z.of_nat k)%Z)
          (fun _ => false).

(** The same, with the keyboard interrupt during the first sleep. *)
Definition interrupted_host : host :=
  host_of [0; 1; 2]%nat
          (fun k => Some (3 + 2 * k, 4 + 2 * k)%nat)
          (fun k => (43200000000 + 1000000 * Z.of_nat k)%Z)
          (fun k => Nat.eqb k 0).

(** The same as [calm_host], but the keyboard stops the first run of rsync
    if it is still in its loop when the model leaves it. *)
Definition impatient_host : host :=
  {| fds := [0; 1; 2]%nat;
     openpty := fun k => Some (3 + 2 * k, 4 + 2 * k)%nat;
     now := fun k => (43200000000 + 1000000 * Z.of_nat k)%Z;
     interrupt := fun _ => false;
     keyboard := fun k => Nat.eqb k 0;
     n_openpty := 0; n_now := 0; n_sleep := 0; n_run := 0 |}.

(** The same as [calm_host], but the second [pty.openpty()] fails. *)
Definition short_host : host :=
  host_of [0; 1; 2]%nat
          (fun k => if Nat.eqb k 1 then None else Some (3 + 2 * k, 4 + 2 * k)%nat)
          (fun k => (43200000000 + 1000000 * Z.of_nat k)%Z)
          (fun _ => false).

(** rsync has exited with [code] when it is first polled, having written
    nothing. *)
Definition finished_world (code : Z) : world :=
  world_of (fun _ => 0%Q) (fun _ => []) (fun _ _ => []) (fun _ => Some code).

Definition sample_args (repeat : option Z) : Namespace :=
  {| repeat_time := repeat; bwlimit := None; exclude_file := None;
     no_exclude := false; jump_host := None;
     server_path := txt "/srv/files/"; server := txt "host";
     dest_dir := txt "/home/me/files/" |}.

End Hosts.

(* ===================================================================== *)
(** * sync-downloaded-files.py: the loop and the session *)
(* ===================================================================== *)

Module SyncDownloadedFilesScriptLoop.
Import SyncDownloadedFilesScript.

Local Open Scope py_scope.
Local Open Scope char_scope.

Definition RATE_LOW_TIMEOUT : float := Finite 30.

(** The local variables of [watch_rsync_command] that live across the turns
    of its loop (its lines 112-116). *)
Record locals : Type := {
  low_rate : bool;
  last_good_time : float;
  last_line : str;
  last_was_progress : bool;
  last_activity : float
}.

Definition Cmd : Type -> Type := M locals.

Definition get_locals : Cmd locals := get_vars.

Definition set_low_rate (b : bool) : Cmd unit :=
  set_vars (fun l => {| low_rate := b; last_good_time := last_good_time l;
                        last_line := last_line l;
                        last_was_progress := last_was_progress l;
                        last_activity := last_activity l |}).

Definition set_last_good_time (t : float) : Cmd unit :=
  set_vars (fun l => {| low_rate := low_rate l; last_good_time := t;
                        last_line := last_line l;
                        last_was_progress := last_was_progress l;
                        last_activity := last_activity l |}).

Definition set_last_line (line : str) : Cmd unit :=
  set_vars (fun l => {| low_rate := low_rate l;
                        last_good_time := last_good_time l;
                        last_line := line;
                        last_was_progress := last_was_progress l;
                        last_activity := last_activity l |}).

Definition set_last_was_progress (b : bool) : Cmd unit :=
  set_vars (fun l => {| low_rate := low_rate l;
                        last_good_time := last_good_time l;
                        last_line := last_line l;
                        last_was_progress := b;
                        last_activity := last_activity l |}).

Definition set_last_activity (t : float) : Cmd unit :=
  set_vars (fun l => {| low_rate := low_rate l;
                        last_good_time := last_good_time l;
                        last_line := last_line l;
                        last_was_progress := last_was_progress l;
                        last_activity := t |}).

(** [fdmap[fd]], for the two descriptors the loop reads. *)
Definition fdmap (d : fd) : str :=
  match d with
  | m_out => txt "stdout"
  | m_err => txt "stderr"
  end.

(** The pattern of the search at its lines 134-146, written with
    [re.VERBOSE]. *)
Definition progress_pattern : regex :=
  cat [ Group "bytes" (Cat (Star Dot) (Plus (Range [("0", "9"); (",", ",")])));
        Plus (Lit " ");
        Group "percent" (Plus (Range [("0", "9"); (".", ".")]));
        One (Lit "%");
        Plus (Lit " ");
        Group "rate"
          (cat [ Plus (Range [("0", "9"); ("A", "Z"); ("a", "z"); (".", ".")]);
                 One (Lit "/");
                 One (Lit "s") ]);
        Plus (Lit " ");
        Group "eta"
          (cat [ Plus Digit; One (Lit ":"); One Digit; One Digit;
                 One (Lit ":"); One Digit; One Digit ]);
        Star Dot ].

(** The body of [for work_string in temp_string.splitlines():] (its lines
    129-183). *)
Definition watch_line (d : fd) (work_string : str) : Cmd unit :=
  l <- get_locals ;;
  when (negb (last_was_progress l))
    (print "\t{fdmap[fd]}: {work_string!r}" [VStr (fdmap d); VStr work_string]) ;;
  match search progress_pattern work_string with
  | Some result =>
      bytes_transferred <- lift (atoi (group_text "bytes" result)) ;;
      percent_transferred <- lift (py_float (group_text "percent" result)) ;;
      rate <- parse_rate (group_text "rate" result) ;;
      let eta := group_text "eta" result in
      l <- get_locals ;;
      when (negb (last_was_progress l)) (print "{}" [VStr (last_line l)]) ;;
      set_last_was_progress true ;;
      print "\rMatch!: Rate: {:n} bytes/s, Bytes Transferred: {:n}, Percent Transferred: {}%, ETA: {}"
            [VInt rate; VInt bytes_transferred; VFloat percent_transferred;
             VStr eta] ;;
      if (rate >? 100000)%Z then
        now <- time_time ;;
        set_last_good_time now ;;
        set_low_rate false
      else
        l <- get_locals ;;
        if negb (low_rate l) then set_low_rate true
        else
          now <- time_time ;;
          l <- get_locals ;;
          print "Rate is too low!!! {:2.2f} seconds"
                [VFloat (fsub RATE_LOW_TIMEOUT (fsub now (last_good_time l)))] ;;
          set_last_was_progress false ;;
          now <- time_time ;;
          l <- get_locals ;;
          when (fgt (fsub now (last_good_time l)) RATE_LOW_TIMEOUT)
            (print "Killing process as rate too low" [] ;;
             process_terminate)
  | None =>
      match work_string with
      | _ :: _ =>
          set_last_was_progress false ;;
          set_last_line work_string
      | [] => ret tt
      end
  end.

(** [for fd in ready:] (its lines 122-183): a read of no bytes leaves the
    loop over the descriptors. *)
Fixpoint watch_fds (ready : list fd) : Cmd unit :=
  match ready with
  | [] => ret tt
  | d :: rest =>
      data <- os_read d ;;
      match data with
      | [] => ret tt
      | _ :: _ =>
          let temp_string := strip data in
          for_each (splitlines temp_string) (fun _ => watch_line d) tt ;;
          watch_fds rest
      end
  end.

(** The body of the loop of [watch_rsync_command] (its lines 119-195). *)
Definition loop_body : Cmd SyncDownloadedFiles.control :=
  ready <- select_select ;;
  match ready with
  | _ :: _ =>
      now <- time_time ;;
      set_last_activity now ;;
      watch_fds ready ;;
      ret SyncDownloadedFiles.Next
  | [] =>
      code <- process_poll ;;
      match code with
      | Some _ => ret SyncDownloadedFiles.Break
      | None =>
          now <- time_time ;;
          l <- get_locals ;;
          when (fgt (fsub now (last_activity l)) (Finite 60))
            (now <- time_time ;;
             l <- get_locals ;;
             print "No activity for {:2.2f} seconds"
                   [VFloat (fsub now (last_activity l))] ;;
             print "Terminating rsync process" [] ;;
             process_terminate) ;;
          now <- time_time ;;
          l <- get_locals ;;
          when (fgt (fsub now (last_activity l)) (Finite 120))
            (print "Killing rsync process" [] ;;
             process_kill) ;;
          ret SyncDownloadedFiles.Next
      end
  end.

(** [while True:], for at most [fuel] turns: [true] when it left by
    [break]. *)
Fixpoint while_true (fuel : nat) : Cmd bool :=
  match fuel with
  | O => ret false
  | S fuel' =>
      c <- loop_body ;;
      match c with
      | SyncDownloadedFiles.Break => ret true
      | SyncDownloadedFiles.Next => while_true fuel'
      end
  end.

(** [watch_rsync_command(cmd_line, ptys)]: what [process.poll()] gives after
    the loop, or [None] when the loop is still running after [fuel]
    turns. *)
Definition watch_rsync_command (fuel : nat) : Cmd (option (option Z)) :=
  subprocess_Popen ;;
  set_low_rate false ;;
  now <- time_time ;;
  set_last_good_time now ;;
  set_last_line [] ;;
  set_last_was_progress false ;;
  now <- time_time ;;
  set_last_activity now ;;
  left <- while_true fuel ;;
  if left then
    code <- process_poll ;;
    ret (Some code)
  else ret None.

End SyncDownloadedFilesScriptLoop.

Module ScriptSession.
Import Process Session.

Local Open Scope session_scope.

(** What one turn of the loop of the script's [execute_rsync] comes to. *)
Inductive turn : Type :=
| Again
| Leave
| Unfinished.

(** The variables of [watch_rsync_command] before it has set them. *)
Definition no_locals : SyncDownloadedFilesScriptLoop.locals :=
  {| SyncDownloadedFilesScriptLoop.low_rate := false;
     SyncDownloadedFilesScriptLoop.last_good_time := Finite 0;
     SyncDownloadedFilesScriptLoop.last_line := [];
     SyncDownloadedFilesScriptLoop.last_was_progress := false;
     SyncDownloadedFilesScriptLoop.last_activity := Finite 0 |}.

(** The body of [while True:] in the script's [execute_rsync] (its lines
    77-92).  The command line is built as in the module (its lines 47-73
    are lines 52-78 there, with [dest_path] for [args.dest_dir]). *)
Definition sync_turn (args : Namespace) (fuel : nat) : T turn :=
  tprint "Syncing from {}..." [VStr (server args)] ;;
  tprint "To: {}" [VStr (dest_dir args)] ;;
  tprint "Executing: {}" [VStr (join (txt " ") (cmd_list args))] ;;
  tried <-
    try_except
      (code <- call_run (SyncDownloadedFilesScriptLoop.watch_rsync_command fuel)
                 no_locals ;;
       match code with
       | Some _ => treturn Again
       | None => treturn Unfinished
       end)
      (fun e =>
         match e with
         | KeyboardInterrupt =>
             Some (time_sleep (125 # 100) ;;
                   tprint "Program terminated with keyboard interrupt.  Exiting..." [] ;;
                   sys_exit 1)
         | CalledProcessError => Some (treturn Again)
         | _ => None
         end) ;;
  match tried with
  | Again =>
      match repeats args with
      | Some seconds =>
          finished <- countdown seconds fuel ;;
          if finished then treturn Again else treturn Unfinished
      | None => treturn Leave
      end
  | other => treturn other
  end.

(** [while True:], for at most [runs] turns: [true] when it left by
    [break]. *)
Fixpoint sync_loop (args : Namespace) (fuel runs : nat) : T bool :=
  match runs with
  | O => treturn false
  | S runs' =>
      t <- sync_turn args fuel ;;
      match t with
      | Again => sync_loop args fuel runs'
      | Leave => treturn true
      | Unfinished => treturn false
      end
  end.

(** The script's [execute_rsync(args)]; its [pty_open] and its [countdown]
    are those of the module, line for line.  [None] when the turns ran
    out. *)
Definition execute_rsync (args : Namespace) (fuel runs : nat) : T (option Z) :=
  left <- pty_open (fun ptys => sync_loop args fuel runs) ;;
  if left then treturn (Some 0%Z) else treturn None.

End ScriptSession.

(* ===================================================================== *)
(** * The two versions, side by side *)
(* ===================================================================== *)

Module Versions.

(** The variables of the script's loop hold what the module's hold. *)
Definition same_variables (l : SyncDownloadedFilesScriptLoop.locals)
    (v : SyncDownloadedFiles.vars) : Prop :=
  SyncDownloadedFilesScriptLoop.low_rate l
  = SyncDownloadedFiles.low_xfer_rate (SyncDownloadedFiles.states v) /\
  SyncDownloadedFilesScriptLoop.last_good_time l
  = SyncDownloadedFiles.last_acceptable_rate_time (SyncDownloadedFiles.states v) /\
  SyncDownloadedFilesScriptLoop.last_line l
  = SyncDownloadedFiles.last_line (SyncDownloadedFiles.states v) /\
  SyncDownloadedFilesScriptLoop.last_was_progress l
  = SyncDownloadedFiles.last_was_progress (SyncDownloadedFiles.states v) /\
  SyncDownloadedFilesScriptLoop.last_activity l
  = SyncDownloadedFiles.last_activity v.

(** Two worlds that differ in nothing but what has been printed and sent so
    far. *)
Definition same_but_trace (w1 w2 : world) : Prop :=
  clock w1 = clock w2 /\ ready w1 = ready w2 /\ chunk w1 = chunk w2 /\
  status w1 = status w2 /\ n_clock w1 = n_clock w2 /\
  n_select w1 = n_select w2 /\ n_read w1 = n_read w2 /\
  n_poll w1 = n_poll w2 /\ returncode w1 = returncode w2.

(** [process.terminate()], [k] times. *)
Definition terminated (k : nat) : list event := repeat Terminate k.

End Versions.

Module ScriptTurns.

(** The state in which the script's loop starts to read on a turn that
    found something: [select] and the clock have been asked once, the
    reading is kept as [last_activity]. *)
Definition script_watching (w : world) (l : SyncDownloadedFilesScriptLoop.locals)
    : world * SyncDownloadedFilesScriptLoop.locals :=
  (tick_clock (tick_select w),
   {| SyncDownloadedFilesScriptLoop.low_rate :=
        SyncDownloadedFilesScriptLoop.low_rate l;
      SyncDownloadedFilesScriptLoop.last_good_time :=
        SyncDownloadedFilesScriptLoop.last_good_time l;
      SyncDownloadedFilesScriptLoop.last_line :=
        SyncDownloadedFilesScriptLoop.last_line l;
      SyncDownloadedFilesScriptLoop.last_was_progress :=
        SyncDownloadedFilesScriptLoop.last_was_progress l;
      SyncDownloadedFilesScriptLoop.last_activity := reading w 0 |}).


(** The state in which the loop of [watch_rsync_command] starts: a new
    child, and two readings of the clock, the first kept as
    [last_good_time], the second as [last_activity]. *)
Definition script_started (w : world)
    : world * SyncDownloadedFilesScriptLoop.locals :=
  (tick_clock (tick_clock (fst (snd (subprocess_Popen (w, tt))))),
   {| SyncDownloadedFilesScriptLoop.low_rate := false;
      SyncDownloadedFilesScriptLoop.last_good_time := reading w 0;
      SyncDownloadedFilesScriptLoop.last_line := [];
      SyncDownloadedFilesScriptLoop.last_was_progress := false;
      SyncDownloadedFilesScriptLoop.last_activity := reading w 1 |}).

(** Both descriptors are ready at every turn; the child's stdout gives
    nothing, its stderr a line. *)
Definition closed_stdout : world :=
  world_of (fun _ => 0%Q) (fun _ => [m_out; m_err])
           (fun _ d => match d with
                       | m_out => []
                       | m_err => txt "rsync error"
                       end)
           (fun _ => None).

End ScriptTurns.

(* ===================================================================== *)
(** * Text: equality tests *)
(* ===================================================================== *)

Module TextFacts.

Lemma str_eqb_eq (a b : str) : str_eqb a b = true <-> a = b.
Proof.
  unfold str_eqb. destruct (list_eq_dec ascii_dec a b); split; congruence.
Qed.

Lemma eqc_true (a b : ascii) : eqc a b = true -> a = b.
Proof. apply Ascii.eqb_eq. Qed.

End TextFacts.

Import TextFacts.

(* ===================================================================== *)
(** * The matcher and the meaning of patterns *)
(* ===================================================================== *)

Module ReFacts.

Lemma consumed_app (t s' : str) : consumed (t ++ s') s' = t.
Proof.
  unfold consumed. rewrite length_app.
  replace (length t + length s' - length s')%nat with (length t) by lia.
  rewrite firstn_app, firstn_all, Nat.sub_diag. simpl. apply app_nil_r.
Qed.

Section Star.
Variable A : Type.

Lemma star_k_sound (c : cclass) (s : str) (k : str -> option A) (a : A) :
  star_k c s k = Some a ->
  exists t s', s = t ++ s' /\ all_in c t /\ k s' = Some a.
Proof.
  induction s as [|x s IH]; simpl; intros H.
  - exists [], []. repeat split; auto. constructor.
  - destruct (in_class c x) eqn:Hx.
    + destruct (star_k c s k) as [a'|] eqn:Hs.
      * inversion H; subst a'. destruct (IH eq_refl) as (t & s' & -> & Ht & Hk).
        exists (x :: t), s'. repeat split; auto. constructor; auto.
      * exists [], (x :: s). repeat split; auto. constructor.
    + exists [], (x :: s). repeat split; auto. constructor.
Qed.

Lemma star_k_complete (c : cclass) (t s' : str) (k : str -> option A) (a : A) :
  all_in c t -> k s' = Some a ->
  exists a', star_k c (t ++ s') k = Some a'.
Proof.
  intros Ht Hk. induction Ht as [|x t Hx Ht IH]; simpl.
  - destruct s' as [|y s']; simpl; eauto.
    destruct (in_class c y); eauto.
    destruct (star_k c s' k); eauto.
  - rewrite Hx. destruct IH as (a' & ->). eauto.
Qed.

(** When the text after the run is not in the class, and the rest of the
    pattern accepts there, the whole run is taken. *)
Lemma star_k_greedy (c : cclass) (t s' : str) (k : str -> option A) (a : A) :
  all_in c t ->
  match s' with [] => True | y :: _ => in_class c y = false end ->
  k s' = Some a ->
  star_k c (t ++ s') k = Some a.
Proof.
  intros Ht Hs Hk. induction Ht as [|x t Hx Ht IH]; simpl.
  - destruct s' as [|y s']; simpl; auto. now rewrite Hs.
  - now rewrite Hx, IH.
Qed.

Lemma match_k_sound (r : regex) :
  forall (s : str) (g : groups) (k : str -> groups -> option A) (a : A),
    match_k r s g k = Some a ->
    exists t s' g', s = t ++ s' /\ Matches r t g g' /\ k s' g' = Some a.
Proof.
  induction r as [|c|c|c|r1 IH1 r2 IH2|n r1 IH1]; simpl; intros s g k a H.
  - exists [], s, g. auto.
  - destruct s as [|x s]; [discriminate|].
    destruct (in_class c x) eqn:Hx; [|discriminate].
    exists [x], s, g. repeat split; eauto.
  - apply star_k_sound in H. destruct H as (t & s' & -> & Ht & Hk).
    exists t, s', g. auto.
  - destruct s as [|x s]; [discriminate|].
    destruct (in_class c x) eqn:Hx; [|discriminate].
    apply star_k_sound in H. destruct H as (t & s' & -> & Ht & Hk).
    exists (x :: t), s', g. repeat split; auto.
    + discriminate.
    + constructor; auto.
  - apply IH1 in H. destruct H as (t1 & s1 & g1 & -> & H1 & H).
    apply IH2 in H. destruct H as (t2 & s2 & g2 & -> & H2 & H).
    exists (t1 ++ t2), s2, g2. rewrite <- app_assoc. repeat split; auto.
    exists t1, t2, g1. auto.
  - apply IH1 in H. destruct H as (t & s' & g' & -> & H1 & H).
    rewrite consumed_app in H.
    exists t, s', ((n, t) :: g'). repeat split; auto.
    exists g'. auto.
Qed.

Lemma match_k_complete (r : regex) :
  forall (t s' : str) (g g' : groups) (k : str -> groups -> option A) (a : A),
    Matches r t g g' -> k s' g' = Some a ->
    exists a', match_k r (t ++ s') g k = Some a'.
Proof.
  induction r as [|c|c|c|r1 IH1 r2 IH2|n r1 IH1]; simpl; intros t s' g g' k a H Hk.
  - destruct H as (-> & ->). simpl. eauto.
  - destruct H as (x & -> & Hx & ->). simpl. rewrite Hx. eauto.
  - destruct H as (Ht & ->). eapply star_k_complete; eauto.
  - destruct H as (Hne & Ht & ->). destruct Ht as [|x t Hx Ht]; [congruence|].
    simpl. rewrite Hx. eapply star_k_complete; eauto.
  - destruct H as (t1 & t2 & g1 & -> & H1 & H2).
    destruct (IH2 _ s' _ _ k a H2 Hk) as (a2 & Ha2).
    rewrite <- app_assoc.
    eapply (IH1 t1 (t2 ++ s') g g1); eauto.
  - destruct H as (g1 & H1 & ->).
    eapply (IH1 t s' g g1); eauto.
    rewrite consumed_app. eauto.
Qed.

End Star.

Lemma match_here_sound (r : regex) (s : str) (g : groups) :
  match_here r s = Some g ->
  exists t post, s = t ++ post /\ Matches r t [] g.
Proof.
  unfold match_here. intros H. apply match_k_sound in H.
  destruct H as (t & s' & g' & -> & Hm & Hk). inversion Hk; subst. eauto.
Qed.

Lemma match_here_complete (r : regex) (t post : str) (g : groups) :
  Matches r t [] g -> exists g', match_here r (t ++ post) = Some g'.
Proof.
  intros H. unfold match_here.
  eapply match_k_complete with (k := fun _ g => Some g); eauto.
Qed.

Lemma search_sound (r : regex) (s : str) (g : groups) :
  search r s = Some g ->
  exists pre t post, s = pre ++ t ++ post /\ Matches r t [] g.
Proof.
  induction s as [|x s IH]; simpl.
  - destruct (match_here r []) eqn:Hm; [|discriminate].
    intros [= ->]. apply match_here_sound in Hm.
    destruct Hm as (t & post & Hs & Ht). exists [], t, post. auto.
  - destruct (match_here r (x :: s)) eqn:Hm.
    + intros [= ->]. apply match_here_sound in Hm.
      destruct Hm as (t & post & Hs & Ht). exists [], t, post. auto.
    + intros H. destruct (IH H) as (pre & t & post & -> & Ht).
      exists (x :: pre), t, post. auto.
Qed.

Lemma search_complete (r : regex) (pre t post : str) (g : groups) :
  Matches r t [] g -> exists g', search r (pre ++ t ++ post) = Some g'.
Proof.
  intros H. induction pre as [|x pre IH]; simpl.
  - destruct (match_here_complete r t post g H) as (g' & Hg).
    destruct (t ++ post); simpl; rewrite Hg; eauto.
  - destruct (match_here r (x :: pre ++ t ++ post)); eauto.
Qed.

(** No occurrence, no match: [re.search] returns [None] exactly then. *)
Lemma search_None (r : regex) (s : str) :
  search r s = None <-> ~ occurs r s.
Proof.
  split.
  - intros H (pre & t & post & g & -> & Hm).
    destruct (search_complete r pre t post g Hm) as (g' & Hg). congruence.
  - intros H. destruct (search r s) as [g|] eqn:Hs; auto.
    exfalso. apply H. apply search_sound in Hs.
    destruct Hs as (pre & t & post & -> & Hm). exists pre, t, post, g. auto.
Qed.

(** A match at the very start is the one [re.search] reports. *)
Lemma search_at_start (r : regex) (t post : str) (g : groups) :
  Matches r t [] g ->
  exists g' t' post',
    search r (t ++ post) = Some g' /\ t ++ post = t' ++ post' /\
    Matches r t' [] g'.
Proof.
  intros H. destruct (match_here_complete r t post g H) as (g' & Hg).
  destruct (match_here_sound _ _ Hg) as (t' & post' & Hs & Hm).
  exists g', t', post'. repeat split; auto.
  destruct (t ++ post); simpl; now rewrite Hg.
Qed.

End ReFacts.

Import ReFacts.

(* ===================================================================== *)
(** * Splitting a text at the end of a run *)
(* ===================================================================== *)

Module Spans.

Section Span.
Variable p : ascii -> bool.

Definition run (t : str) : Prop := Forall (fun c => p c = true) t.

(** A run of [p] followed by a character outside [p]: the run is determined
    by the whole text. *)
Lemma span_left (a a' b b' : str) (x x' : ascii) :
  run a -> run a' -> p x = false -> p x' = false ->
  a ++ x :: b = a' ++ x' :: b' ->
  a = a' /\ x :: b = x' :: b'.
Proof.
  intros Ha. revert a'. induction Ha as [|y a Hy Ha IH]; intros a' Ha' Hx Hx' E.
  - destruct Ha' as [|y' a' Hy' Ha']; simpl in E.
    + auto.
    + inversion E; subst. congruence.
  - destruct Ha' as [|y' a' Hy' Ha']; simpl in E.
    + inversion E; subst. congruence.
    + inversion E; subst.
      destruct (IH a' Ha' Hx Hx' H1) as (-> & E'). auto.
Qed.




Definition outside (t : str) : Prop := Forall (fun c => p c = false) t.





End Span.


End Spans.

Module RateFacts.
Import Spans SyncDownloadedFiles.
Local Open Scope char_scope.

Ltac break :=
  repeat match goal with
         | H : exists _, _ |- _ => destruct H
         | H : _ /\ _ |- _ => destruct H
         | H : eqc _ _ = true |- _ => apply eqc_true in H
         end.

Ltac by_cases c :=
  destruct c as [[] [] [] [] [] [] [] []]; vm_compute; intuition congruence.

Lemma rate_pattern_matches (t : str) (g : groups) :
  Matches rate_pattern t [] g <->
  exists v u,
    t = v ++ u ++ txt "/s" /\ v <> [] /\ all_in decimal_chars v /\
    u <> [] /\ all_in letters u /\ g = [("unit"%string, u); ("val"%string, v)].
Proof.
  unfold rate_pattern. simpl. split.
  - intros H. break. subst. eexists _, _. repeat split; eauto.
  - intros (v & u & -> & Hv & Hv' & Hu & Hu' & ->).
    exists v, (u ++ txt "/s"), [("val"%string, v)]. repeat split; eauto.
    exists u, (txt "/s"), [("unit"%string, u); ("val"%string, v)].
    repeat split; eauto.
    exists ["/"], ["s"], [("unit"%string, u); ("val"%string, v)].
    repeat split; eauto.
Qed.

Lemma letter_not_decimal (c : ascii) :
  in_class letters c = true -> in_class decimal_chars c = false.
Proof. by_cases c. Qed.

(** On a token [<decimal chars><letters>/s] the search finds the two groups
    as written. *)
Lemma search_rate_token (v u post : str) :
  v <> [] -> all_in decimal_chars v -> u <> [] -> all_in letters u ->
  search rate_pattern (v ++ u ++ txt "/s" ++ post)
  = Some [("unit"%string, u); ("val"%string, v)].
Proof.
  intros Hv Hv' Hu Hu'.
  assert (Hm : Matches rate_pattern (v ++ u ++ txt "/s") []
                 [("unit"%string, u); ("val"%string, v)]).
  { apply rate_pattern_matches. exists v, u. repeat split; auto. }
  destruct (search_at_start rate_pattern (v ++ u ++ txt "/s") post _ Hm)
    as (g' & t' & post' & Hs & E & Hm').
  replace (v ++ u ++ txt "/s" ++ post) with ((v ++ u ++ txt "/s") ++ post)
    by now rewrite <- !app_assoc.
  rewrite Hs. f_equal.
  apply rate_pattern_matches in Hm'.
  destruct Hm' as (v' & u' & -> & Hv1 & Hv1' & Hu1 & Hu1' & ->).
  rewrite <- !app_assoc in E.
  destruct u as [|y u]; [congruence|]. destruct u' as [|y' u']; [congruence|].
  inversion Hu'; subst. inversion Hu1'; subst.
  simpl in E.
  apply span_left with (p := in_class decimal_chars) in E;
    auto using letter_not_decimal.
  destruct E as (-> & E). injection E as -> E.
  apply span_left with (p := in_class letters) in E; auto.
  destruct E as (-> & _). reflexivity.
Qed.

End RateFacts.

Module RateTheorems.
Import Spans SyncDownloadedFiles RateFacts.
Local Open Scope char_scope.

Lemma split_point_spec (s i : str) (f : option str) :
  split_point s = (i, f) ->
  s = i ++ match f with Some f' => "." :: f' | None => [] end.
Proof.
  revert i f. induction s as [|c s IH]; simpl; intros i f H.
  - inversion H; subst. reflexivity.
  - destruct (eqc c ".") eqn:Hc.
    + apply eqc_true in Hc. inversion H; subst. reflexivity.
    + destruct (split_point s) as (i0, f0). inversion H; subst.
      simpl. f_equal. now apply IH.
Qed.

Lemma digit_is_decimal_char (c : ascii) :
  is_digit c = true -> in_class decimal_chars c = true.
Proof. by_cases c. Qed.

Lemma forallb_digits_decimal (t : str) :
  forallb is_digit t = true -> all_in decimal_chars t.
Proof.
  intros H. apply Forall_forall. intros c Hc.
  apply digit_is_decimal_char. rewrite forallb_forall in H. auto.
Qed.

(** A decimal numeral is a non-empty text over [[0-9.]]. *)
Lemma decimal_value_chars (s : str) (q : Q) :
  decimal_value s = Some q -> s <> [] /\ all_in decimal_chars s.
Proof.
  unfold decimal_value. destruct (split_point s) as (i, f) eqn:Hs.
  apply split_point_spec in Hs.
  destruct (forallb is_digit i) eqn:Hi; simpl; [|discriminate].
  destruct f as [f|]; simpl.
  - destruct (forallb is_digit f) eqn:Hf; simpl; [|discriminate].
    intros _. subst s. split.
    + destruct i; discriminate.
    + apply Forall_app. split; [now apply forallb_digits_decimal|].
      constructor; [reflexivity|now apply forallb_digits_decimal].
  - destruct (Nat.eqb (length i + 0) 0) eqn:Hl; simpl; [discriminate|].
    intros _. rewrite app_nil_r in Hs. subst s. split.
    + destruct i; [discriminate|discriminate].
    + now apply forallb_digits_decimal.
Qed.

Lemma upper_letters (u : str) (k b : ascii) :
  is_upper k = true -> is_upper b = true ->
  upper u = [k; b] -> u <> [] /\ all_in letters u.
Proof.
  intros Hk Hb H. destruct u as [|x [|y [|z u]]]; try discriminate.
  simpl in H. injection H as Hx Hy. split; [discriminate|].
  assert (L : forall c d, is_upper d = true -> upper_char c = d ->
                          in_class letters c = true).
  { clear. intros c d Hd <-. revert Hd. by_cases c. }
  constructor; [exact (L x k Hk Hx)|].
  constructor; [exact (L y b Hb Hy)|]. constructor.
Qed.


Section Results.
Variable V : Type.
Implicit Types (s : world * V).

(** The token [dec ++ unit ++ "/s"] reaches the unit test with the float of
    [dec] and the upper-cased [unit]. *)
Lemma parse_rate_token (dec unit : str) (q : Q) s :
  decimal_value dec = Some q -> unit <> [] -> all_in letters unit ->
  parse_rate (dec ++ unit ++ txt "/s") s =
  if str_eqb (upper unit) (txt "KB") then
    (int_of_float (fmul (round64 q) (float_of_Z 1024)), s)
  else if str_eqb (upper unit) (txt "MB") then
    (int_of_float (fmul (fmul (round64 q) (float_of_Z 1024)) (float_of_Z 1024)), s)
  else
    (Raise (ValueError ("Unknown unit!: " ++ string_of_list_ascii (upper unit))), s).
Proof.
  intros Hq Hu Hu'. destruct (decimal_value_chars _ Hq) as (Hd & Hd').
  unfold parse_rate.
  replace (dec ++ unit ++ txt "/s") with (dec ++ unit ++ txt "/s" ++ [])
    by now rewrite app_nil_r.
  rewrite search_rate_token by assumption.
  unfold group_text. simpl group. unfold py_float. rewrite Hq.
  unfold bind, lift, ret, raise.
  destruct (str_eqb (upper unit) (txt "KB")); [reflexivity|].
  destruct (str_eqb (upper unit) (txt "MB")); reflexivity.
Qed.

(** Digits and points that are no numeral: [float()] raises before the unit
    is looked at. *)
Lemma parse_rate_not_decimal (dec unit : str) s :
  dec <> [] -> all_in decimal_chars dec -> unit <> [] -> all_in letters unit ->
  decimal_value dec = None ->
  parse_rate (dec ++ unit ++ txt "/s") s
  = (Raise (ValueError "could not convert string to float"), s).
Proof.
  intros Hd Hd' Hu Hu' Hq. unfold parse_rate.
  replace (dec ++ unit ++ txt "/s") with (dec ++ unit ++ txt "/s" ++ [])
    by now rewrite app_nil_r.
  rewrite search_rate_token by assumption.
  unfold group_text. simpl group. unfold py_float. rewrite Hq. reflexivity.
Qed.

Lemma parse_rate_token_unknown (dec unit : str) (q : Q) s :
  decimal_value dec = Some q -> unit <> [] -> all_in letters unit ->
  upper unit <> txt "KB" -> upper unit <> txt "MB" ->
  parse_rate (dec ++ unit ++ txt "/s") s
  = (Raise (ValueError ("Unknown unit!: " ++ string_of_list_ascii (upper unit))), s).
Proof.
  intros Hq Hne Hl Hk Hm. rewrite parse_rate_token with (q := q) by assumption.
  destruct (str_eqb (upper unit) (txt "KB")) eqn:E1.
  - apply str_eqb_eq in E1. contradiction.
  - destruct (str_eqb (upper unit) (txt "MB")) eqn:E2; [|reflexivity].
    apply str_eqb_eq in E2. contradiction.
Qed.

Lemma parse_rate_token_known (dec unit : str) (q : Q) s :
  decimal_value dec = Some q ->
  upper unit = txt "KB" \/ upper unit = txt "MB" ->
  parse_rate (dec ++ unit ++ txt "/s") s = (int_of_float (scaled_rate q unit), s).
Proof.
  intros Hq Hu.
  assert (Hl : unit <> [] /\ all_in letters unit).
  { destruct Hu as [Hu|Hu]; eapply upper_letters; try exact Hu; reflexivity. }
  destruct Hl as (Hne & Hl).
  rewrite parse_rate_token with (q := q) by assumption. unfold scaled_rate.
  destruct Hu as [Hu|Hu]; rewrite Hu; reflexivity.
Qed.


End Results.

End RateTheorems.

Module ProgressFacts.
Import Spans SyncDownloadedFiles RateFacts.
Local Open Scope char_scope.

Lemma progress_pattern_matches (t : str) (g : groups) :
  Matches progress_pattern t [] g <->
  exists lead b s1 p s2 r s3 h d1 d2 d3 d4 rest,
    t = progress_text lead b s1 p s2 r s3 h d1 d2 d3 d4 rest /\
    g = progress_groups lead b p r h d1 d2 d3 d4 /\
    all_in Dot lead /\ (b <> [] /\ all_in digits_commas b) /\
    (s1 <> [] /\ all_in blank s1) /\ (p <> [] /\ all_in decimal_chars p) /\
    (s2 <> [] /\ all_in blank s2) /\ (r <> [] /\ all_in rate_chars r) /\
    (s3 <> [] /\ all_in blank s3) /\ (h <> [] /\ all_in Digit h) /\
    (is_digit d1 = true /\ is_digit d2 = true /\
     is_digit d3 = true /\ is_digit d4 = true) /\
    all_in Dot rest.
Proof.
  unfold progress_pattern. simpl. split.
  - intros H. break. subst.
    do 13 eexists. split.
    { unfold progress_text. rewrite <- ?app_assoc. simpl. reflexivity. }
    split.
    { unfold progress_groups, eta_text. simpl. reflexivity. }
    repeat split; assumption.
  - intros (lead & b & s1 & p & s2 & r & s3 & h & d1 & d2 & d3 & d4 & rest &
            -> & -> & Hl & (Hb & Hb') & (H1 & H1') & (Hp & Hp') & (H2 & H2') &
            (Hr & Hr') & (H3 & H3') & (Hh & Hh') & (D1 & D2 & D3 & D4) & Hz).
    unfold progress_text, progress_groups, eta_text.
    exists (lead ++ b), (s1 ++ p ++ "%" :: s2 ++ r ++ "/" :: "s" :: s3 ++
                         h ++ ":" :: d1 :: d2 :: ":" :: d3 :: d4 :: rest).
    eexists. split; [now rewrite <- app_assoc|]. split.
    { eexists. split; [|reflexivity]. exists lead, b. eexists. eauto 10. }
    exists s1. do 2 eexists. split; [reflexivity|]. split; [eauto|].
    exists p. do 2 eexists. split; [reflexivity|]. split; [eauto 10|].
    exists ["%"]. do 2 eexists. split; [reflexivity|]. split; [eauto 10|].
    exists s2. do 2 eexists. split; [reflexivity|]. split; [eauto|].
    exists (r ++ txt "/s"). do 2 eexists.
    split; [now rewrite <- app_assoc|]. split.
    { eexists. split; [|reflexivity]. exists r, (txt "/s"). eexists.
      split; [reflexivity|]. split; [eauto|].
      exists ["/"], ["s"]. eexists. eauto 10. }
    exists s3. do 2 eexists. split; [reflexivity|]. split; [eauto|].
    exists (h ++ ":" :: d1 :: d2 :: ":" :: d3 :: d4 :: []), rest. eexists.
    split; [now rewrite <- app_assoc|]. split; [|eauto].
    eexists. split; [|reflexivity].
    exists h. do 2 eexists. split; [reflexivity|]. split; [eauto|].
    exists [":"]. do 2 eexists. split; [reflexivity|]. split; [eauto 10|].
    exists [d1]. do 2 eexists. split; [reflexivity|]. split; [eauto 10|].
    exists [d2]. do 2 eexists. split; [reflexivity|]. split; [eauto 10|].
    exists [":"]. do 2 eexists. split; [reflexivity|]. split; [eauto 10|].
    exists [d3]. do 2 eexists. split; [reflexivity|]. split; eauto 10.
Qed.

End ProgressFacts.

Module ProgressSearch.
Import Spans SyncDownloadedFiles RateFacts ProgressFacts.
Local Open Scope char_scope.













Section Fields.
Variables (lead b s1 p s2 r s3 h : str) (d1 d2 d3 d4 : ascii) (rest : str).
Hypothesis Hlead : all_in Dot lead.
Hypothesis Hlead' : ~ In "%" lead.
Hypothesis Hb : b <> [] /\ all_in digits_commas b.
Hypothesis Hs1 : s1 <> [] /\ all_in blank s1.
Hypothesis Hp : p <> [] /\ all_in decimal_chars p.
Hypothesis Hs2 : s2 <> [] /\ all_in blank s2.
Hypothesis Hr : r <> [] /\ all_in rate_chars r.
Hypothesis Hs3 : s3 <> [] /\ all_in blank s3.
Hypothesis Hh : h <> [] /\ all_in Digit h.
Hypothesis Hd : is_digit d1 = true /\ is_digit d2 = true /\
                is_digit d3 = true /\ is_digit d4 = true.
Hypothesis Hrest : ~ In "%" rest.


End Fields.

End ProgressSearch.

Module ProgressResults.
Import Spans SyncDownloadedFiles RateFacts RateTheorems ProgressFacts ProgressSearch.
Local Open Scope char_scope.


















Section Fields.
Variable V : Type.
Variables (lead b s1 p s2 r s3 h : str) (d1 d2 d3 d4 : ascii) (rest : str).
Variable q : Q.
Hypothesis Hlead : Forall (fun c => is_int_space c = true) lead.
Hypothesis Hlead' : all_in Dot lead.
Hypothesis Hb : all_in digits_commas b /\ remove_char "," b <> [].
Hypothesis Hs1 : s1 <> [] /\ all_in blank s1.
Hypothesis Hp : decimal_value p = Some q.
Hypothesis Hs2 : s2 <> [] /\ all_in blank s2.
Hypothesis Hr : r <> [] /\ all_in rate_chars r.
Hypothesis Hs3 : s3 <> [] /\ all_in blank s3.
Hypothesis Hh : h <> [] /\ all_in Digit h.
Hypothesis Hd : is_digit d1 = true /\ is_digit d2 = true /\
                is_digit d3 = true /\ is_digit d4 = true.
Hypothesis Hrest : ~ In "%" rest.





End Fields.

End ProgressResults.

Module PolicyFacts.
Import SyncDownloadedFiles.

Lemma check_transfer_rate_high (p : RsyncProgressStatus) (b : bool) (w : world) (v : vars) :
  (transfer_rate p > TRANSFER_RATE_MIN)%Z ->
  check_transfer_rate p b (w, v) =
  (Ok b, (tick_clock w, with_states (after_high (reading w 0) (states v)) v)).
Proof.
  intros H. unfold check_transfer_rate.
  replace (transfer_rate p >? TRANSFER_RATE_MIN)%Z with true
    by (symmetry; apply Z.gtb_lt; lia).
  unfold reading. rewrite Nat.add_0_r. reflexivity.
Qed.

Lemma check_transfer_rate_first_low (p : RsyncProgressStatus) (b : bool) (w : world) (v : vars) :
  (transfer_rate p <= TRANSFER_RATE_MIN)%Z ->
  low_xfer_rate (states v) = false ->
  check_transfer_rate p b (w, v) =
  (Ok b, (w, with_states (after_first_low (states v)) v)).
Proof.
  intros H Hl. unfold check_transfer_rate.
  replace (transfer_rate p >? TRANSFER_RATE_MIN)%Z with false
    by (symmetry; rewrite Z.gtb_ltb; apply Z.ltb_ge; lia).
  unfold bind, set_states, get_states, set_vars, get_vars, ret. simpl.
  rewrite Hl. reflexivity.
Qed.

Lemma check_transfer_rate_second_low (p : RsyncProgressStatus) (b : bool) (w : world) (v : vars) :
  (transfer_rate p <= TRANSFER_RATE_MIN)%Z ->
  low_xfer_rate (states v) = true ->
  fst (check_transfer_rate p b (w, v)) =
  Ok (if fgt (fsub (reading w 1) (last_acceptable_rate_time (states v)))
             RATE_LOW_TIMEOUT
      then true else b).
Proof.
  intros H Hl. unfold check_transfer_rate.
  replace (transfer_rate p >? TRANSFER_RATE_MIN)%Z with false
    by (symmetry; rewrite Z.gtb_ltb; apply Z.ltb_ge; lia).
  unfold bind, set_states, get_states, set_vars, get_vars, ret. simpl.
  rewrite Hl. simpl. unfold reading. rewrite Nat.add_1_r.
  destruct (fgt _ _); reflexivity.
Qed.


End PolicyFacts.

Module LoopFacts.
Import SyncDownloadedFiles PolicyFacts.

Section Frame.
Variable V : Type.

(** A computation that leaves the program's variables alone. *)
Definition pure_vars {A} (m : M V A) : Prop :=
  forall s, snd (snd (m s)) = snd s.

Lemma pure_vars_bind {A B} (m : M V A) (k : A -> M V B) :
  pure_vars m -> (forall a, pure_vars (k a)) -> pure_vars (bind m k).
Proof.
  intros Hm Hk s. unfold bind. specialize (Hm s).
  destruct (m s) as ([a|e] & s'); simpl in *; [|assumption].
  now rewrite Hk.
Qed.

Lemma pure_vars_print (text : string) (args : list pyval) :
  pure_vars (print text args : M V unit).
Proof. intros s. reflexivity. Qed.

Lemma pure_vars_ret {A} (a : A) : pure_vars (ret a : M V A).
Proof. intros s. reflexivity. Qed.

Lemma pure_vars_lift {A} (o : outcome A) : pure_vars (lift o : M V A).
Proof. intros s. reflexivity. Qed.

Lemma pure_vars_raise {A} (e : exn) : pure_vars (raise e : M V A).
Proof. intros s. reflexivity. Qed.

Lemma pure_vars_parse_rate (rate_string : str) :
  pure_vars (parse_rate rate_string : M V Z).
Proof.
  unfold parse_rate. destruct (search rate_pattern rate_string).
  - apply pure_vars_bind; [apply pure_vars_lift|]. intros val.
    apply pure_vars_bind; [|intros; apply pure_vars_lift].
    destruct (str_eqb _ _); [apply pure_vars_ret|].
    destruct (str_eqb _ _); [apply pure_vars_ret|apply pure_vars_raise].
  - repeat (apply pure_vars_bind; [apply pure_vars_print|intros _]).
    apply pure_vars_ret.
Qed.

Lemma pure_vars_parse_progress_line (line : str) :
  pure_vars (parse_progress_line line : M V _).
Proof.
  unfold parse_progress_line. destruct (search progress_pattern line).
  - apply pure_vars_bind; [apply pure_vars_lift|]. intros.
    apply pure_vars_bind; [apply pure_vars_lift|]. intros.
    apply pure_vars_bind; [apply pure_vars_parse_rate|]. intros.
    apply pure_vars_ret.
  - apply pure_vars_ret.
Qed.

Lemma pure_vars_print_progress (o : option RsyncProgressStatus) (f : str) (b : bool) :
  pure_vars (print_progress o f b : M V unit).
Proof.
  unfold print_progress, when. destruct o; [|apply pure_vars_ret].
  apply pure_vars_bind; [|intros; apply pure_vars_print].
  destruct (negb b); [apply pure_vars_print|apply pure_vars_ret].
Qed.

End Frame.

(** A computation that leaves [last_activity] alone. *)
Definition keeps_activity {A} (m : Cmd A) : Prop :=
  forall s, last_activity (snd (snd (m s))) = last_activity (snd s).

Lemma pure_keeps {A} (m : Cmd A) : pure_vars m -> keeps_activity m.
Proof. intros H s. now rewrite H. Qed.

Lemma keeps_bind {A B} (m : Cmd A) (k : A -> Cmd B) :
  keeps_activity m -> (forall a, keeps_activity (k a)) ->
  keeps_activity (bind m k).
Proof.
  intros Hm Hk s. unfold bind. specialize (Hm s).
  destruct (m s) as ([a|e] & s'); simpl in *; [|assumption].
  now rewrite Hk.
Qed.

Lemma keeps_set_states (f : States -> States) : keeps_activity (set_states f).
Proof. intros s. reflexivity. Qed.

Lemma keeps_get_states : keeps_activity get_states.
Proof. intros s. reflexivity. Qed.

Lemma keeps_time_time : keeps_activity time_time.
Proof. intros s. reflexivity. Qed.

Lemma keeps_ret {A} (a : A) : keeps_activity (ret a).
Proof. intros s. reflexivity. Qed.

Lemma keeps_for_each {X A} (xs : list X) (body : A -> X -> Cmd A) :
  (forall acc x, keeps_activity (body acc x)) ->
  forall acc, keeps_activity (for_each xs body acc).
Proof.
  intros Hb. induction xs as [|x xs IH]; intros acc; simpl.
  - apply keeps_ret.
  - apply keeps_bind; auto.
Qed.

Ltac keeps :=
  repeat first
    [ apply keeps_ret
    | apply keeps_set_states
    | apply keeps_get_states
    | apply keeps_time_time
    | (apply pure_keeps;
       first [ apply pure_vars_print | apply pure_vars_parse_progress_line
             | apply pure_vars_print_progress | apply pure_vars_ret ])
    | (apply keeps_bind; [|intros]) ].

Lemma keeps_check_transfer_rate (p : RsyncProgressStatus) (b : bool) :
  keeps_activity (check_transfer_rate p b).
Proof.
  unfold check_transfer_rate. keeps.
  destruct (_ >? _)%Z; keeps.
  match goal with |- context [negb ?c] => destruct c end; simpl; keeps.
  destruct (fgt _ _); keeps.
Qed.

Lemma keeps_watch_line (b : bool) (line : str) : keeps_activity (watch_line b line).
Proof.
  unfold watch_line, when. keeps.
  - match goal with |- context [negb ?c] => destruct c end; simpl; keeps.
  - match goal with |- context [match ?o with Some _ => _ | None => _ end] =>
      destruct o end.
    + apply keeps_check_transfer_rate.
    + destruct line; keeps.
Qed.

Lemma keeps_watch_fd (b : bool) (d : fd) : keeps_activity (watch_fd b d).
Proof.
  unfold watch_fd. apply keeps_bind; [intros s; reflexivity|]. intros data.
  destruct data; [apply keeps_ret|].
  apply keeps_for_each. intros. apply keeps_watch_line.
Qed.

Lemma keeps_watch_rsync_progress (fds : list fd) :
  keeps_activity (watch_rsync_progress fds).
Proof. apply keeps_for_each. intros. apply keeps_watch_fd. Qed.

Lemma keeps_after_watch (fds : list fd) :
  keeps_activity
    (bind (watch_rsync_progress fds)
       (fun should_terminate =>
          bind (when should_terminate
                  (bind (print "Killing process as rate too low" [])
                     (fun _ => process_terminate)))
            (fun _ => ret Next))).
Proof.
  apply keeps_bind; [apply keeps_watch_rsync_progress|]. intros b.
  apply keeps_bind; [|intros; apply keeps_ret].
  destruct b; simpl; [|apply keeps_ret].
  apply keeps_bind; [|intros]; intros s; reflexivity.
Qed.

Section ParseError.
Variables (line : str) (g : groups) (n : Z) (f : float) (e : exn).
Hypothesis Hsearch : search progress_pattern line = Some g.
Hypothesis Hbytes : atoi (group_text "bytes" g) = Ok n.
Hypothesis Hpercent : py_float (group_text "percent" g) = Ok f.
Hypothesis Hrate :
  forall s : world * vars, parse_rate (group_text "rate" g) s = (Raise e, s).

Lemma parse_progress_line_rate_error (s : world * vars) :
  parse_progress_line line s = (Raise e, s).
Proof.
  unfold parse_progress_line. rewrite Hsearch. unfold bind, lift.
  rewrite Hbytes, Hpercent, Hrate. reflexivity.
Qed.

Lemma watch_line_rate_error (b : bool) (s : world * vars) :
  fst (watch_line b line s) = Raise e /\
  states (snd (snd (watch_line b line s))) = states (snd s).
Proof.
  unfold watch_line, bind, get_states, get_vars, ret, when. simpl.
  destruct (last_was_progress (states (snd s))); simpl;
    rewrite parse_progress_line_rate_error; simpl; auto.
Qed.

End ParseError.

End LoopFacts.

(* ===================================================================== *)
(** * Frames: what the watching code leaves as it was *)
(* ===================================================================== *)

Module FrameFacts.
Import SyncDownloadedFiles Frames.
Local Open Scope nat_scope.

Lemma signals_app (a b : list event) : signals (a ++ b) = signals a ++ signals b.
Proof. unfold signals. apply filter_app. Qed.

Lemma printed_nil (w : world) : printed [] w = w.
Proof. destruct w; reflexivity. Qed.

Lemma printed_printed (a b : list event) (w : world) :
  printed a (printed b w) = printed (a ++ b) w.
Proof. unfold printed; simpl. now rewrite app_assoc. Qed.

Section Obeys.
Variable V : Type.
Variable R : world * V -> world * V -> Prop.
Hypothesis R_refl : forall s, R s s.
Hypothesis R_trans : forall a b c, R a b -> R b c -> R a c.

Lemma obeys_ret {A} (a : A) : obeys R (ret a).
Proof. intros s; split; [apply R_refl|discriminate]. Qed.

Lemma obeys_bind {A B} (m : M V A) (k : A -> M V B) :
  obeys R m -> (forall a, obeys R (k a)) -> obeys R (bind m k).
Proof.
  intros Hm Hk s. unfold bind. destruct (Hm s) as (H1 & H2).
  destruct (m s) as ([a|e] & s'); simpl in *.
  - destruct (Hk a s') as (H3 & H4). split; [eauto|assumption].
  - split; [assumption|]. intros e' [= <-]. now apply H2.
Qed.

Lemma obeys_for_each {X A} (xs : list X) (body : A -> X -> M V A) :
  (forall acc x, obeys R (body acc x)) ->
  forall acc, obeys R (for_each xs body acc).
Proof.
  intros Hb. induction xs as [|x xs IH]; intros acc; simpl.
  - apply obeys_ret.
  - apply obeys_bind; auto.
Qed.

Lemma obeys_when (c : bool) (m : M V unit) : obeys R m -> obeys R (when c m).
Proof. intros H. destruct c; simpl; [assumption|apply obeys_ret]. Qed.

Lemma obeys_weaken (R' : world * V -> world * V -> Prop) {A} (m : M V A) :
  (forall s s', R' s s' -> R s s') -> obeys R' m -> obeys R m.
Proof. intros HR Hm s. destruct (Hm s). split; auto. Qed.

End Obeys.

(** ** Calls of [print] only *)

Section Printing.
Variable V : Type.

Lemma only_printed_refl (s : world * V) : only_printed s s.
Proof.
  exists []. split; [reflexivity|]. rewrite printed_nil. now destruct s.
Qed.

Lemma only_printed_trans (a b c : world * V) :
  only_printed a b -> only_printed b c -> only_printed a c.
Proof.
  intros (p1 & H1 & ->) (p2 & H2 & ->). exists (p2 ++ p1). simpl.
  split; [rewrite signals_app, H1, H2; reflexivity|].
  now rewrite printed_printed.
Qed.

Definition prints_only {A} (m : M V A) : Prop := obeys (@only_printed V) m.

Lemma prints_only_ret {A} (a : A) : prints_only (ret a).
Proof. apply obeys_ret, only_printed_refl. Qed.

Lemma prints_only_bind {A B} (m : M V A) (k : A -> M V B) :
  prints_only m -> (forall a, prints_only (k a)) -> prints_only (bind m k).
Proof. apply obeys_bind, only_printed_trans. Qed.

Lemma prints_only_print (text : string) (args : list pyval) :
  prints_only (print text args : M V unit).
Proof.
  intros s; split; [|discriminate].
  exists [Print text args]. split; reflexivity.
Qed.

Lemma prints_only_lift {A} (o : outcome A) :
  (forall e, o = Raise e -> parser_error e) -> prints_only (lift o : M V A).
Proof. intros H s; split; [apply only_printed_refl|apply H]. Qed.

Lemma atoi_errors (t : str) (e : exn) : atoi t = Raise e -> parser_error e.
Proof.
  unfold atoi, py_int.
  destruct (strip_by is_int_space (delocalize t)) as [|c r].
  - simpl. intros [= <-]. exact I.
  - destruct (eqc c "-"); [|destruct (eqc c "+")];
      destruct (numeral_run _) as (run & rest);
      destruct (int_digits 0 run); try (intros [= <-]; exact I);
      destruct (_ <? _)%Z; try (intros [= <-]; exact I);
      destruct rest; intros [= <-]; exact I.
Qed.

Lemma py_float_errors (t : str) (e : exn) : py_float t = Raise e -> parser_error e.
Proof.
  unfold py_float. destruct (decimal_value t); intros [= <-]; exact I.
Qed.

Lemma int_of_float_errors (f : float) (e : exn) :
  int_of_float f = Raise e -> parser_error e.
Proof. destruct f; intros [= <-]; exact I. Qed.

Lemma prints_only_parse_rate (rate_string : str) :
  prints_only (parse_rate rate_string : M V Z).
Proof.
  unfold parse_rate. destruct (search rate_pattern rate_string).
  - apply prints_only_bind;
      [apply prints_only_lift, py_float_errors|]. intros val.
    apply prints_only_bind;
      [|intros; apply prints_only_lift, int_of_float_errors].
    destruct (str_eqb _ _); [apply prints_only_ret|].
    destruct (str_eqb _ _); [apply prints_only_ret|].
    intros s; split; [apply only_printed_refl|]. intros e [= <-]. exact I.
  - repeat (apply prints_only_bind; [apply prints_only_print|intros _]).
    apply prints_only_ret.
Qed.

Lemma prints_only_parse_progress_line (line : str) :
  prints_only (parse_progress_line line : M V _).
Proof.
  unfold parse_progress_line. destruct (search progress_pattern line).
  - apply prints_only_bind; [apply prints_only_lift, atoi_errors|]. intros.
    apply prints_only_bind; [apply prints_only_lift, py_float_errors|]. intros.
    apply prints_only_bind; [apply prints_only_parse_rate|]. intros.
    apply prints_only_ret.
  - apply prints_only_ret.
Qed.

Lemma prints_only_print_progress (o : option RsyncProgressStatus) (f : str) (b : bool) :
  prints_only (print_progress o f b : M V unit).
Proof.
  unfold print_progress. destruct o; [|apply prints_only_ret].
  apply prints_only_bind; [|intros; apply prints_only_print].
  apply obeys_when; [apply only_printed_refl|apply prints_only_print].
Qed.

End Printing.

(** ** Looking at lines *)

Lemma same_answers_refl (w : world) : same_answers w w.
Proof. repeat split. Qed.

Lemma same_answers_trans (a b c : world) :
  same_answers a b -> same_answers b c -> same_answers a c.
Proof.
  intros (A1 & A2 & A3 & A4) (B1 & B2 & B3 & B4).
  repeat split; congruence.
Qed.

Lemma watched_lines_refl (s : world * vars) : watched_lines s s.
Proof.
  split; auto; try (now repeat split). exists []; auto.
Qed.

Lemma acceptable_trans (a b c : world * vars) :
  clock (fst b) = clock (fst a) ->
  n_clock (fst a) <= n_clock (fst b) -> n_clock (fst b) <= n_clock (fst c) ->
  (last_acceptable_rate_time (states (snd b))
   = last_acceptable_rate_time (states (snd a)) \/
   exists k, n_clock (fst a) <= k < n_clock (fst b) /\
             last_acceptable_rate_time (states (snd b)) = Finite (clock (fst a) k)) ->
  (last_acceptable_rate_time (states (snd c))
   = last_acceptable_rate_time (states (snd b)) \/
   exists k, n_clock (fst b) <= k < n_clock (fst c) /\
             last_acceptable_rate_time (states (snd c)) = Finite (clock (fst b) k)) ->
  last_acceptable_rate_time (states (snd c))
  = last_acceptable_rate_time (states (snd a)) \/
  exists k, n_clock (fst a) <= k < n_clock (fst c) /\
            last_acceptable_rate_time (states (snd c)) = Finite (clock (fst a) k).
Proof.
  intros Hc H1 H2 [E1|(k1 & K1 & E1)] [E2|(k2 & K2 & E2)].
  - left; congruence.
  - right. exists k2. split; [lia|congruence].
  - right. exists k1. split; [lia|congruence].
  - right. exists k2. split; [lia|congruence].
Qed.

Lemma prints_trans (a b c : world) :
  (exists p, signals p = [] /\ trace b = p ++ trace a) ->
  (exists p, signals p = [] /\ trace c = p ++ trace b) ->
  exists p, signals p = [] /\ trace c = p ++ trace a.
Proof.
  intros (p1 & S1 & E1) (p2 & S2 & E2). exists (p2 ++ p1).
  rewrite signals_app, S1, S2, E2, E1, app_assoc. auto.
Qed.

Lemma watched_lines_trans (a b c : world * vars) :
  watched_lines a b -> watched_lines b c -> watched_lines a c.
Proof.
  intros [A1 A2 A3 A4 A5 A6 A7 A8 A9] [B1 B2 B3 B4 B5 B6 B7 B8 B9].
  split; try congruence; try lia.
  - eapply same_answers_trans; eauto.
  - eapply prints_trans; eauto.
  - apply acceptable_trans with (b := b); auto. apply A1.
Qed.

Lemma watched_refl (s : world * vars) : watched s s.
Proof.
  split; auto; try (now repeat split). exists []; auto.
Qed.

Lemma watched_trans (a b c : world * vars) :
  watched a b -> watched b c -> watched a c.
Proof.
  intros [A1 A2 A3 A4 A5 A6 A7 A8 A9] [B1 B2 B3 B4 B5 B6 B7 B8 B9].
  split; try congruence; try lia.
  - eapply same_answers_trans; eauto.
  - eapply prints_trans; eauto.
  - apply acceptable_trans with (b := b); auto. apply A1.
Qed.

Lemma watched_lines_watched (s s' : world * vars) :
  watched_lines s s' -> watched s s'.
Proof. intros [A1 A2 A3 A4 A5 A6 A7 A8 A9]. split; auto. lia. Qed.

Lemma only_printed_watched_lines (s s' : world * vars) :
  only_printed s s' -> watched_lines s s'.
Proof.
  intros (p & Hp & ->).
  split; simpl; auto; try (now repeat split). exists p; auto.
Qed.

Definition watches_lines {A} (m : Cmd A) : Prop := obeys watched_lines m.

Lemma prints_watches_lines {A} (m : Cmd A) : prints_only m -> watches_lines m.
Proof. apply obeys_weaken, only_printed_watched_lines. Qed.

Lemma watches_lines_bind {A B} (m : Cmd A) (k : A -> Cmd B) :
  watches_lines m -> (forall a, watches_lines (k a)) -> watches_lines (bind m k).
Proof. apply obeys_bind, watched_lines_trans. Qed.

Lemma watches_lines_ret {A} (a : A) : watches_lines (ret a).
Proof. apply obeys_ret, watched_lines_refl. Qed.

Lemma watches_lines_get_states : watches_lines get_states.
Proof. intros s; split; [apply watched_lines_refl|discriminate]. Qed.

(** An update of the [States] that leaves the time of the last acceptable
    rate alone. *)
Lemma watches_lines_set_states (f : States -> States) :
  (forall st, last_acceptable_rate_time (f st) = last_acceptable_rate_time st) ->
  watches_lines (set_states f).
Proof.
  intros Hf s; split; [|discriminate].
  split; simpl; auto; try (now repeat split). exists []; auto.
Qed.

(** [states.last_acceptable_rate_time = time.time()] *)
Lemma watches_lines_stamp {A} (k : Cmd A) :
  watches_lines k ->
  watches_lines (bind time_time (fun now =>
                 bind (set_states (with_last_acceptable_rate_time now))
                      (fun _ => k))).
Proof.
  intros Hk s. unfold bind at 1, time_time. simpl.
  unfold bind at 1, set_states, set_vars. simpl.
  match goal with |- context [k ?s1] => destruct (Hk s1) as (H1 & H2);
    set (s' := s1) in * end.
  split; [|assumption].
  apply watched_lines_trans with (b := s'); [|assumption].
  subst s'. split; simpl; auto; try (now repeat split).
  - exists []; auto.
  - right. exists (n_clock (fst s)). split; [lia|reflexivity].
Qed.

(** A reading of the clock that is only looked at. *)
Lemma watches_lines_time_time : watches_lines time_time.
Proof.
  intros s; split; [|discriminate].
  split; simpl; auto; try (now repeat split). exists []; auto.
Qed.

Lemma watches_lines_print (text : string) (args : list pyval) :
  watches_lines (print text args).
Proof. apply prints_watches_lines, prints_only_print. Qed.

Ltac frames :=
  repeat first
    [ apply watches_lines_ret
    | apply watches_lines_get_states
    | apply watches_lines_print
    | (apply watches_lines_set_states; intros; reflexivity)
    | apply watches_lines_stamp
    | apply watches_lines_time_time
    | (apply watches_lines_bind; [|intros]) ].

Lemma watches_lines_check_transfer_rate (p : RsyncProgressStatus) (b : bool) :
  watches_lines (check_transfer_rate p b).
Proof.
  unfold check_transfer_rate. frames.
  destruct (_ >? _)%Z; frames.
  match goal with |- context [negb ?c] => destruct c end; simpl; frames.
  destruct (fgt _ _); frames.
Qed.

Lemma watches_lines_watch_line (b : bool) (line : str) :
  watches_lines (watch_line b line).
Proof.
  unfold watch_line. frames.
  - apply obeys_when; [apply watched_lines_refl|frames].
  - apply prints_watches_lines, prints_only_parse_progress_line.
  - apply prints_watches_lines, prints_only_print_progress.
  - match goal with |- context [match ?o with Some _ => _ | None => _ end] =>
      destruct o end.
    + apply watches_lines_check_transfer_rate.
    + destruct line; frames.
Qed.

Lemma watches_lines_for_each (lines : list str) (b : bool) :
  watches_lines (for_each lines watch_line b).
Proof.
  apply obeys_for_each;
    [apply watched_lines_refl|apply watched_lines_trans
    |intros; apply watches_lines_watch_line].
Qed.

Definition watches {A} (m : Cmd A) : Prop := obeys watched m.

Lemma watches_watch_fd (b : bool) (d : fd) : watches (watch_fd b d).
Proof.
  unfold watch_fd.
  apply obeys_bind; [apply watched_trans| |].
  - intros s; split; [|discriminate].
    split; simpl; auto; try (now repeat split). exists []; auto.
  - intros data. destruct data; [apply obeys_ret, watched_refl|].
    eapply obeys_weaken; [apply watched_lines_watched|].
    apply watches_lines_for_each.
Qed.

Lemma watches_watch_rsync_progress (fds : list fd) :
  watches (watch_rsync_progress fds).
Proof.
  apply obeys_for_each;
    [apply watched_refl|apply watched_trans|intros; apply watches_watch_fd].
Qed.

(** [watch_fd] reads once, whatever comes of it. *)
Lemma watch_fd_reads_once (b : bool) (d : fd) (s : world * vars) :
  n_read (fst (snd (watch_fd b d s))) = S (n_read (fst s)).
Proof.
  unfold watch_fd, bind at 1, os_read. simpl.
  destruct (chunk _ _ d); [reflexivity|].
  match goal with |- context [for_each ?l watch_line b ?s1] =>
    destruct (watches_lines_for_each l b s1) as ([_ _ H _ _ _ _ _ _] & _) end.
  rewrite H. reflexivity.
Qed.

(** ** The loop *)

Lemma looped_refl (s : world * vars) : looped s s.
Proof. split; auto; try (now repeat split). Qed.

Lemma looped_trans (a b c : world * vars) :
  looped a b -> looped b c -> looped a c.
Proof.
  intros [A1 A2 A3 A4] [B1 B2 B3 B4]. split; try lia.
  - eapply same_answers_trans; eauto.
  - destruct A1 as (_ & _ & _ & Hs).
    destruct A4 as [E1|(k1 & K1 & E1)], B4 as [E2|(k2 & K2 & E2)].
    + left; congruence.
    + right. exists k2. split; [lia|congruence].
    + right. exists k1. split; [lia|congruence].
    + right. exists k2. split; [lia|congruence].
Qed.

Lemma watched_looped (s s' : world * vars) : watched s s' -> looped s s'.
Proof. intros [A1 A2 A3 A4 A5 A6 A7 A8 A9]. split; auto; lia. Qed.

Definition loops {A} (m : Cmd A) : Prop := obeys looped m.

Lemma loops_bind {A B} (m : Cmd A) (k : A -> Cmd B) :
  loops m -> (forall a, loops (k a)) -> loops (bind m k).
Proof. apply obeys_bind, looped_trans. Qed.

Lemma loops_ret {A} (a : A) : loops (ret a).
Proof. apply obeys_ret, looped_refl. Qed.

(** A step that changes neither the answers nor what is known of the child. *)
Lemma loops_simple {A} (m : Cmd A) :
  (forall s, same_answers (fst s) (fst (snd (m s))) /\
             n_select (fst s) <= n_select (fst (snd (m s))) /\
             n_poll (fst (snd (m s))) = n_poll (fst s) /\
             returncode (fst (snd (m s))) = returncode (fst s) /\
             exists a, fst (m s) = Ok a) ->
  loops m.
Proof.
  intros H s. destruct (H s) as (H1 & H2 & H3 & H4 & a & H5).
  split; [split; auto; lia|]. intros e. rewrite H5. discriminate.
Qed.

Ltac simple_step :=
  apply loops_simple; intros ?; simpl;
  repeat split; auto; eexists; reflexivity.

Lemma loops_process_poll : loops process_poll.
Proof.
  intros s; unfold process_poll. destruct (returncode (fst s)) eqn:E; simpl.
  - split; [apply looped_refl|discriminate].
  - split; [|discriminate]. split; simpl; auto; try (now repeat split).
    right. exists (n_poll (fst s)). split; [lia|reflexivity].
Qed.

Lemma loops_loop_body : loops loop_body.
Proof.
  unfold loop_body.
  apply loops_bind; [simple_step|]. intros ready.
  destruct ready.
  - apply loops_bind; [apply loops_process_poll|]. intros code.
    destruct code; [apply loops_ret|].
    repeat (apply loops_bind; [simple_step|intros]).
    apply loops_bind.
    { apply obeys_when; [apply looped_refl|].
      repeat (apply loops_bind; [simple_step|intros]). simple_step. }
    intros. repeat (apply loops_bind; [simple_step|intros]).
    apply loops_bind; [|intros; apply loops_ret].
    apply obeys_when; [apply looped_refl|].
    repeat (apply loops_bind; [simple_step|intros]). simple_step.
  - repeat (apply loops_bind; [simple_step|intros]).
    apply loops_bind.
    { eapply obeys_weaken; [apply watched_looped|].
      apply watches_watch_rsync_progress. }
    intros. apply loops_bind; [|intros; apply loops_ret].
    apply obeys_when; [apply looped_refl|].
    repeat (apply loops_bind; [simple_step|intros]). simple_step.
Qed.

Lemma loops_while_true (fuel : nat) : loops (while_true fuel).
Proof.
  induction fuel as [|fuel IH]; simpl; [apply loops_ret|].
  apply loops_bind; [apply loops_loop_body|]. intros c.
  destruct c; [assumption|apply loops_ret].
Qed.

End FrameFacts.

(* ===================================================================== *)
(** * The loop of run_rsync_command, turn by turn *)
(* ===================================================================== *)

Module TurnFacts.
Import SyncDownloadedFiles PolicyFacts Frames FrameFacts Turns.
Local Open Scope nat_scope.

#[local] Arguments fsub : simpl never.
#[local] Arguments fgt : simpl never.
#[local] Arguments while_true : simpl never.
#[local] Arguments watch_rsync_progress : simpl never.

(** A turn of the loop that finds something to read. *)
Lemma loop_body_ready (w : world) (v : vars) (d : fd) (ds : list fd) :
  ready w (n_select w) = d :: ds ->
  loop_body (w, v) =
  match watch_rsync_progress (d :: ds) (watching w v) with
  | (Ok true, s) =>
      (Ok Next,
       (emit Terminate (emit (Print "Killing process as rate too low" []) (fst s)),
        snd s))
  | (Ok false, s) => (Ok Next, s)
  | (Raise e, s) => (Raise e, s)
  end.
Proof.
  intros Hr. unfold loop_body, bind at 1, select_select. simpl. rewrite Hr.
  unfold bind at 1, time_time. simpl.
  unfold bind at 1, set_last_activity, set_vars. simpl.
  unfold bind at 1, watching, reading. simpl. rewrite Nat.add_0_r.
  destruct (watch_rsync_progress (d :: ds) _) as ([[|]|e] & s); reflexivity.
Qed.

(** The loop is left only on a turn that knows the child's exit status. *)
Lemma loop_body_break (s s' : world * vars) :
  loop_body s = (Ok Break, s') -> returncode (fst s') <> None.
Proof.
  destruct s as (w & v).
  destruct (ready w (n_select w)) as [|d ds] eqn:Hr.
  - unfold loop_body, bind at 1, select_select. simpl. rewrite Hr.
    unfold bind at 1, process_poll. simpl.
    destruct (returncode w) eqn:Hc; simpl.
    + intros [= <-]. simpl. congruence.
    + destruct (status w (n_poll w)) eqn:Hs.
      * intros [= <-]. simpl. congruence.
      * unfold bind, time_time, get_last_activity, get_vars, ret, when. simpl.
        destruct (fgt _ _); simpl; destruct (fgt _ _); simpl; discriminate.
  - rewrite (@loop_body_ready w v d ds Hr).
    destruct (watch_rsync_progress _ _) as ([[|]|e] & s); discriminate.
Qed.

Lemma while_true_left (fuel : nat) (s s' : world * vars) :
  while_true fuel s = (Ok true, s') -> returncode (fst s') <> None.
Proof.
  revert s. induction fuel as [|fuel IH]; intros s; simpl.
  - discriminate.
  - unfold while_true; fold while_true. unfold bind.
    destruct (loop_body s) as ([[|]|e] & s1) eqn:E.
    + apply IH.
    + intros [= <-]. now apply loop_body_break in E.
    + discriminate.
Qed.

(** While every [select] finds something to read the loop is not left, and
    the child is not polled. *)
Lemma while_true_ready (fuel : nat) (w : world) (v : vars) :
  (forall k, n_select w <= k -> ready w k <> []) ->
  fst (while_true fuel (w, v)) <> Ok true /\
  n_poll (fst (snd (while_true fuel (w, v)))) = n_poll w /\
  returncode (fst (snd (while_true fuel (w, v)))) = returncode w.
Proof.
  revert w v. induction fuel as [|fuel IH]; intros w v H.
  - simpl. repeat split. discriminate.
  - unfold while_true; fold while_true. unfold bind.
    destruct (ready w (n_select w)) as [|d ds] eqn:Hr.
    { exfalso. now apply (H (n_select w)). }
    rewrite (@loop_body_ready w v d ds Hr).
    destruct (watches_watch_rsync_progress (d :: ds) (watching w v))
      as ([(_ & Hrd & _ & _) Hsel _ Hpoll Hcode _ _ _ _] & _).
    destruct (watch_rsync_progress _ _) as ([[|]|e] & (w1 & v1));
      simpl in *.
    + destruct (IH (emit Terminate
                      (emit (Print "Killing process as rate too low" []) w1)) v1)
        as (I1 & I2 & I3).
      { simpl. rewrite Hrd. intros k Hk. apply H. lia. }
      simpl in *. repeat split; auto; congruence.
    + destruct (IH w1 v1) as (I1 & I2 & I3).
      { rewrite Hrd. intros k Hk. apply H. lia. }
      repeat split; auto; congruence.
    + repeat split; auto. discriminate.
Qed.

Lemma parser_error_cases (e : exn) :
  parser_error e -> exists msg, e = ValueError msg \/ e = OverflowError msg.
Proof. destruct e; simpl; intros H; [eauto|eauto|contradiction]. Qed.

Lemma run_rsync_command_loop (loaded_at : float) (fuel : nat) (w : world) (v : vars) :
  run_rsync_command loaded_at fuel (w, v) =
  match while_true fuel (started loaded_at w) with
  | (Ok true, s') =>
      bind process_poll
        (fun exit_code =>
           match exit_code with
           | Some c => ret (Some c)
           | None =>
               raise (RuntimeError "Unexpectedly got None for process.poll()")
           end) s'
  | (Ok false, s') => (Ok None, s')
  | (Raise e, s') => (Raise e, s')
  end.
Proof.
  unfold run_rsync_command, bind at 1, subprocess_Popen. simpl.
  unfold bind at 1, set_states, set_vars. simpl.
  unfold bind at 1, time_time. simpl.
  unfold bind at 1, set_last_activity, set_vars. simpl.
  unfold bind at 1, started, reading. simpl. rewrite Nat.add_0_r.
  match goal with |- context [while_true fuel ?s] =>
    destruct (while_true fuel s) as ([[|]|e] & s') end; reflexivity.
Qed.

End TurnFacts.

Module QuietFacts.
Import SyncDownloadedFiles PolicyFacts Frames FrameFacts Turns TurnFacts.
Local Open Scope nat_scope.

#[local] Arguments fsub : simpl never.
#[local] Arguments fgt : simpl never.
#[local] Arguments while_true : simpl never.

(** A turn with nothing to read, on which the child is found running. *)
Lemma loop_body_quiet (w : world) (v : vars) :
  ready w (n_select w) = [] -> returncode w = None ->
  status w (n_poll w) = None ->
  exists w',
    loop_body (w, v) = (Ok Next, (w', v)) /\
    same_answers w w' /\ n_select w' = S (n_select w) /\
    n_poll w' = S (n_poll w) /\ n_read w' = n_read w /\
    returncode w' = None.
Proof.
  intros Hr Hc Hs.
  unfold loop_body, bind at 1, select_select. simpl. rewrite Hr.
  unfold bind at 1, process_poll. simpl. rewrite Hc, Hs.
  unfold bind, time_time, get_last_activity, get_vars, ret, when. simpl.
  destruct (fgt _ _); simpl; destruct (fgt _ _); simpl;
    eexists; (split; [destruct v; reflexivity|]); simpl; now repeat split.
Qed.

(** A turn with nothing to read, on which the child is found to have
    exited. *)
Lemma loop_body_exited (w : world) (v : vars) (c : Z) :
  ready w (n_select w) = [] -> returncode w = None ->
  status w (n_poll w) = Some c ->
  loop_body (w, v) = (Ok Break, (tick_poll (Some c) (tick_select w), v)).
Proof.
  intros Hr Hc Hs.
  unfold loop_body, bind at 1, select_select. simpl. rewrite Hr.
  unfold bind at 1, process_poll. simpl. rewrite Hc, Hs. reflexivity.
Qed.

Lemma while_true_quiet (n : nat) :
  forall (fuel : nat) (w : world) (v : vars) (c : Z),
    n < fuel ->
    returncode w = None ->
    (forall k, k <= n -> ready w (n_select w + k) = []) ->
    (forall k, k < n -> status w (n_poll w + k) = None) ->
    status w (n_poll w + n) = Some c ->
    exists s',
      while_true fuel (w, v) = (Ok true, s') /\
      returncode (fst s') = Some c /\
      n_poll (fst s') = n_poll w + n + 1 /\
      n_select (fst s') = n_select w + n + 1 /\
      n_read (fst s') = n_read w.
Proof.
  induction n as [|n IH]; intros fuel w v c Hf Hc Hr Hs Hx.
  - destruct fuel as [|fuel]; [lia|].
    unfold while_true; fold while_true. unfold bind.
    rewrite Nat.add_0_r in Hx. specialize (Hr 0 ltac:(lia)).
    rewrite Nat.add_0_r in Hr.
    rewrite (@loop_body_exited w v c Hr Hc Hx).
    eexists. split; [reflexivity|]. simpl. repeat split; lia.
  - destruct fuel as [|fuel]; [lia|].
    unfold while_true; fold while_true. unfold bind.
    pose proof (Hr 0 ltac:(lia)) as Hr0. rewrite Nat.add_0_r in Hr0.
    pose proof (Hs 0 ltac:(lia)) as Hs0. rewrite Nat.add_0_r in Hs0.
    destruct (@loop_body_quiet w v Hr0 Hc Hs0)
      as (w' & -> & (_ & Ea & _ & Es) & Esel & Epoll & Eread & Ecode).
    destruct (IH fuel w' v c) as (s' & E & R1 & R2 & R3 & R4).
    + lia.
    + assumption.
    + intros k Hk. rewrite Ea, Esel.
      replace (S (n_select w) + k) with (n_select w + S k) by lia.
      apply Hr. lia.
    + intros k Hk. rewrite Es, Epoll.
      replace (S (n_poll w) + k) with (n_poll w + S k) by lia.
      apply Hs. lia.
    + rewrite Es, Epoll.
      replace (S (n_poll w) + n) with (n_poll w + S n) by lia. exact Hx.
    + exists s'. split; [exact E|]. repeat split; try assumption; lia.
Qed.

End QuietFacts.

(* ===================================================================== *)
(** * Chunks and lines *)
(* ===================================================================== *)

Module WatchFacts.
Import SyncDownloadedFiles PolicyFacts ProgressFacts Frames FrameFacts Turns TurnFacts.
Local Open Scope nat_scope.
Local Open Scope char_scope.

#[local] Arguments fsub : simpl never.
#[local] Arguments fgt : simpl never.

(** ** Reads *)

Lemma for_each_watch_fd_reads (fds : list fd) (b : bool) (s : world * vars) :
  let result := for_each fds watch_fd b s in
  match fst result with
  | Ok _ => n_read (fst (snd result)) = n_read (fst s) + length fds
  | Raise _ => n_read (fst s) < n_read (fst (snd result)) <= n_read (fst s) + length fds
  end.
Proof.
  revert b s. induction fds as [|d ds IH]; intros b s; simpl.
  - lia.
  - unfold bind. pose proof (watch_fd_reads_once b d s) as H1.
    destruct (watch_fd b d s) as ([b'|e] & s1); simpl in *.
    + specialize (IH b' s1).
      destruct (for_each ds watch_fd b' s1) as ([b''|e] & s2); simpl in *; lia.
    + lia.
Qed.

(** ** [should_terminate] is only ever set *)

Definition stays_set (m : Cmd bool) : Prop :=
  forall s b, fst (m s) = Ok b -> b = true.

Lemma stays_set_ret : stays_set (ret true).
Proof. intros s b [= <-]. reflexivity. Qed.

Lemma stays_set_bind {A} (m : Cmd A) (k : A -> Cmd bool) :
  (forall a, stays_set (k a)) -> stays_set (bind m k).
Proof.
  intros Hk s b. unfold bind. destruct (m s) as ([a|e] & s'); simpl.
  - apply Hk.
  - discriminate.
Qed.

Lemma stays_set_for_each {X} (xs : list X) (body : bool -> X -> Cmd bool) :
  (forall x, stays_set (body true x)) -> stays_set (for_each xs body true).
Proof.
  intros Hb. induction xs as [|x xs IH]; simpl.
  - apply stays_set_ret.
  - intros s b. unfold bind. specialize (Hb x s).
    destruct (body true x s) as ([b'|e] & s'); simpl in *.
    + rewrite (Hb b' eq_refl). apply IH.
    + discriminate.
Qed.

Ltac stays :=
  repeat first [ apply stays_set_ret | (apply stays_set_bind; intros) ].

Lemma stays_set_check_transfer_rate (p : RsyncProgressStatus) :
  stays_set (check_transfer_rate p true).
Proof.
  unfold check_transfer_rate. stays.
  destruct (_ >? _)%Z; stays.
  match goal with |- context [negb ?c] => destruct c end; simpl; stays.
  destruct (fgt _ _); stays.
Qed.

Lemma stays_set_watch_line (line : str) : stays_set (watch_line true line).
Proof.
  unfold watch_line. stays.
  match goal with |- context [match ?o with Some _ => _ | None => _ end] =>
    destruct o end.
  - apply stays_set_check_transfer_rate.
  - destruct line; stays.
Qed.

Lemma stays_set_watch_fd (d : fd) : stays_set (watch_fd true d).
Proof.
  unfold watch_fd. stays. destruct a; stays.
  apply stays_set_for_each, stays_set_watch_line.
Qed.

Lemma for_each_app {V X A} (xs ys : list X) (body : A -> X -> M V A) (acc : A)
    (s : world * V) :
  for_each (xs ++ ys) body acc s
  = bind (for_each xs body acc) (for_each ys body) s.
Proof.
  revert acc s. induction xs as [|x xs IH]; intros acc s; simpl.
  - reflexivity.
  - unfold bind. destruct (body acc x s) as ([a|e] & s'); [|reflexivity].
    rewrite IH. reflexivity.
Qed.


(** ** Lines *)

Lemma reading_printed (prints : list event) (w : world) (k : nat) :
  reading (printed prints w) k = reading w k.
Proof. reflexivity. Qed.

(** A line that parses to the sample [p] without printing: the policy runs
    on [p], after the echo of the line and the progress report. *)
Lemma watch_line_sample (b : bool) (line : str) (p : RsyncProgressStatus)
    (w : world) (v : vars) :
  (forall s : world * vars, parse_progress_line line s = (Ok (Some p), s)) ->
  exists prints,
    signals prints = [] /\
    watch_line b line (w, v) = check_transfer_rate p b (printed prints w, v).
Proof.
  intros Hp. unfold watch_line, bind at 1, get_states, bind at 1, get_vars, ret.
  simpl. destruct (last_was_progress (states v)) eqn:Hl; simpl.
  - unfold bind at 1, ret. unfold bind at 1. rewrite Hp.
    unfold bind at 1, get_vars, bind at 1, ret. simpl. rewrite Hl. simpl.
    unfold bind at 1, ret, bind at 1, print, do_event. simpl.
    eexists [_]. split; [|reflexivity]. reflexivity.
  - unfold bind at 1, print, do_event. simpl. unfold bind at 1. rewrite Hp.
    unfold bind at 1, get_vars, bind at 1, ret. simpl. rewrite Hl. simpl.
    unfold bind at 1, bind at 1, print, do_event. simpl.
    eexists [_; _; _]. split; [|reflexivity]. reflexivity.
Qed.

(** A line with no [%] is no progress line. *)
Lemma search_no_percent (line : str) :
  ~ In "%" line -> search progress_pattern line = None.
Proof.
  intros H. apply search_None. intros (pre & t & post & g & -> & Hm).
  apply progress_pattern_matches in Hm.
  destruct Hm as (lead & b & s1 & p & s2 & r & s3 & h & d1 & d2 & d3 & d4
                  & rest & -> & _).
  apply H. apply in_or_app; right. apply in_or_app; left.
  unfold progress_text. do 4 (apply in_or_app; right). left. reflexivity.
Qed.

(** A line that is no progress line: echoed unless the last line was a
    progress line, remembered as the file name if it is not empty; the
    streak and the time of the last acceptable rate stay. *)
Lemma watch_line_other (b : bool) (line : str) (w : world) (v : vars) :
  search progress_pattern line = None ->
  exists prints v',
    signals prints = [] /\
    watch_line b line (w, v) = (Ok b, (printed prints w, v')) /\
    low_xfer_rate (states v') = low_xfer_rate (states v) /\
    last_acceptable_rate_time (states v')
    = last_acceptable_rate_time (states v) /\
    last_line (states v') = match line with
                            | [] => last_line (states v)
                            | _ => line
                            end.
Proof.
  intros Hs.
  unfold watch_line, bind at 1, get_states, bind at 1, get_vars, ret.
  simpl. unfold parse_progress_line. rewrite Hs.
  destruct (last_was_progress (states v)) eqn:Hl; simpl.
  - destruct line as [|c line]; simpl.
    + exists [], v. rewrite printed_nil. auto.
    + eexists [], _. rewrite printed_nil.
      split; [reflexivity|]. split; [reflexivity|]. simpl. auto.
  - destruct line as [|c line]; simpl.
    + eexists [_], v. split; [|split; [reflexivity|auto]]. reflexivity.
    + eexists [_], _. split; [|split; [reflexivity|simpl; auto]]. reflexivity.
Qed.

Lemma watch_other_lines (others : list str) (b : bool) (w : world) (v : vars) :
  Forall (fun line => ~ In "%" line) others ->
  exists prints v',
    signals prints = [] /\
    for_each others watch_line b (w, v) = (Ok b, (printed prints w, v')) /\
    low_xfer_rate (states v') = low_xfer_rate (states v) /\
    last_acceptable_rate_time (states v')
    = last_acceptable_rate_time (states v).
Proof.
  intros H. revert w v. induction H as [|line others Hl _ IH]; intros w v.
  - exists [], v. simpl. rewrite printed_nil. auto.
  - destruct (@watch_line_other b line w v (search_no_percent _ Hl))
      as (p1 & v1 & S1 & E1 & L1 & A1 & _).
    destruct (IH (printed p1 w) v1) as (p2 & v2 & S2 & E2 & L2 & A2).
    exists (p2 ++ p1), v2. simpl for_each. unfold bind. rewrite E1, E2.
    rewrite printed_printed, signals_app, S1, S2.
    repeat split; congruence.
Qed.

(** ** Whitespace *)

Lemma lstrip_by_all (p : ascii -> bool) (t : str) :
  Forall (fun c => p c = true) t -> lstrip_by p t = [].
Proof. induction 1 as [|c t Hc _ IH]; simpl; [|rewrite Hc]; auto. Qed.

Lemma strip_all_space (t : str) :
  Forall (fun c => is_space c = true) t -> strip t = [].
Proof.
  intros H. unfold strip, strip_by, rstrip_by.
  rewrite (lstrip_by_all _ H). reflexivity.
Qed.

End WatchFacts.

(* ===================================================================== *)
(** * Where an exception goes *)
(* ===================================================================== *)

Module ErrorFacts.
Import SyncDownloadedFiles PolicyFacts LoopFacts Frames FrameFacts Turns TurnFacts
  WatchFacts.
Local Open Scope nat_scope.

#[local] Arguments while_true : simpl never.
#[local] Arguments watch_rsync_progress : simpl never.

(** A loop whose body raises at an element raises there. *)
Lemma for_each_raises {V X A} (before : list X) (x : X) (after : list X)
    (body : A -> X -> M V A) (acc acc1 : A) (s s1 s2 : world * V) (e : exn) :
  for_each before body acc s = (Ok acc1, s1) ->
  body acc1 x s1 = (Raise e, s2) ->
  for_each (before ++ x :: after) body acc s = (Raise e, s2).
Proof.
  intros H1 H2. rewrite for_each_app. unfold bind. rewrite H1.
  simpl. unfold bind. now rewrite H2.
Qed.

(** The turns that follow turns which did not leave the loop. *)
Lemma while_true_more (n : nat) :
  forall (m : nat) (s s1 : world * vars),
    while_true n s = (Ok false, s1) ->
    while_true (n + m) s = while_true m s1.
Proof.
  induction n as [|n IH]; intros m s s1.
  - unfold while_true, ret. intros [= <-]. reflexivity.
  - simpl Nat.add. unfold while_true; fold while_true. unfold bind.
    destruct (loop_body s) as ([[|]|e] & s0).
    + apply IH.
    + discriminate.
    + discriminate.
Qed.

(** The turn whose descriptors raise, raises. *)
Lemma loop_body_raises (w : world) (v : vars) (fds : list fd) (e : exn)
    (s' : world * vars) :
  ready w (n_select w) = fds ->
  watch_rsync_progress fds (watching w v) = (Raise e, s') ->
  loop_body (w, v) = (Raise e, s').
Proof.
  intros Hr Hw. destruct fds as [|d ds].
  - unfold watch_rsync_progress in Hw. simpl in Hw. discriminate.
  - rewrite (@loop_body_ready w v d ds Hr), Hw. reflexivity.
Qed.

(** The call whose loop raises, raises. *)
Lemma run_rsync_command_raises (loaded_at : float) (fuel : nat) (w : world)
    (v : vars) (e : exn) (s' : world * vars) :
  while_true fuel (started loaded_at w) = (Raise e, s') ->
  run_rsync_command loaded_at fuel (w, v) = (Raise e, s').
Proof. intros H. rewrite run_rsync_command_loop, H. reflexivity. Qed.

End ErrorFacts.

(* ===================================================================== *)
(** * The parsers, the policy and the loop: the properties *)
(* ===================================================================== *)

Module RateClaims.
Import Spans SyncDownloadedFiles RateFacts RateTheorems Vocabulary.
Local Open Scope char_scope.

(** C5 (as stated, refuted).  The claim has [parse_rate("6.8MB/s")] equal to
    [round(6.8 * 1024 * 1024)].  The function ends with [int(ret_val)], which
    truncates: it returns 7130316, and [round] of the same product is
    7130317; likewise 33177 against 33178 for ["32.4KB/s"]. *)
Lemma parse_rate_is_not_rounded :
  fst (parse_rate (txt "6.8MB/s") (quiet_world 0, tt)) = Ok 7130316%Z /\
  py_round (fmul (fmul (round64 (68 # 10)) (float_of_Z 1024)) (float_of_Z 1024))
  = Ok 7130317%Z /\
  fst (parse_rate (txt "32.4KB/s") (quiet_world 0, tt)) = Ok 33177%Z /\
  py_round (fmul (round64 (324 # 10)) (float_of_Z 1024)) = Ok 33178%Z.
Proof. vm_compute. repeat split. Qed.

(** C5 (amended).  For every rate token [<decimal><unit>/s] whose unit is KB
    or MB in any letter case, [parse_rate] returns [int(float(decimal) * 1024)]
    for KB and [int(float(decimal) * 1024 * 1024)] for MB, where [int]
    truncates toward zero (and raises if the product overflowed to
    infinity); it prints nothing and changes nothing.  In particular
    [parse_rate("6.8MB/s")] is 7130316 and [parse_rate("32.4KB/s")] is 33177. *)
Theorem parse_rate_known_unit (V : Type) (dec unit : str) (q : Q) (s : world * V) :
  decimal_value dec = Some q ->
  upper unit = txt "KB" \/ upper unit = txt "MB" ->
  parse_rate (dec ++ unit ++ txt "/s") s = (int_of_float (scaled_rate q unit), s) /\
  (upper unit = txt "KB" ->
   scaled_rate q unit = fmul (round64 q) (float_of_Z 1024)) /\
  (upper unit = txt "MB" ->
   scaled_rate q unit
   = fmul (fmul (round64 q) (float_of_Z 1024)) (float_of_Z 1024)) /\
  (forall x, scaled_rate q unit = Finite x ->
             int_of_float (scaled_rate q unit)
             = Ok (Z.quot (Qnum x) (Zpos (Qden x)))).
Proof.
  intros Hq Hu. split; [now apply parse_rate_token_known|].
  unfold scaled_rate. repeat split.
  - intros ->. reflexivity.
  - intros ->. reflexivity.
  - intros x ->. reflexivity.
Qed.

Lemma parse_rate_known_unit_witness :
  parse_rate (txt "6.8" ++ txt "mB" ++ txt "/s") (quiet_world 0, tt)
  = (Ok 7130316%Z, (quiet_world 0, tt)).
Proof.
  refine (proj1 (@parse_rate_known_unit unit (txt "6.8") (txt "mB") (68 # 10)
                   (quiet_world 0, tt) _ _)).
  - reflexivity.
  - right. reflexivity.
Defined.

(** C6.  For every rate token [<decimal><unit>/s] whose unit, upper-cased, is
    neither KB nor MB, [parse_rate] raises [ValueError("Unknown unit!: ...")]:
    it returns no value, and in particular not the 0 of the no-match case.
    (Were the digits and points before the unit not a numeral, as in
    ["1.2.3GB/s"], it would raise the [ValueError] of [float()] instead.) *)
Theorem parse_rate_unknown_unit (V : Type) (dec unit : str) (s : world * V) :
  dec <> [] -> all_in decimal_chars dec ->
  unit <> [] -> all_in letters unit ->
  upper unit <> txt "KB" -> upper unit <> txt "MB" ->
  (exists msg, parse_rate (dec ++ unit ++ txt "/s") s = (Raise (ValueError msg), s))
  /\ (forall z, fst (parse_rate (dec ++ unit ++ txt "/s") s) <> Ok z)
  /\ (forall q, decimal_value dec = Some q ->
       parse_rate (dec ++ unit ++ txt "/s") s
       = (Raise (ValueError ("Unknown unit!: "
                             ++ string_of_list_ascii (upper unit))), s)).
Proof.
  intros Hd Hd' Hne Hl Hk Hm.
  assert (E : exists msg, parse_rate (dec ++ unit ++ txt "/s") s
                          = (Raise (ValueError msg), s)).
  { destruct (decimal_value dec) as [q|] eqn:Hq.
    - rewrite parse_rate_token_unknown with (q := q) by assumption. eauto.
    - rewrite parse_rate_not_decimal by assumption. eauto. }
  split; [exact E|]. split.
  - intros z. destruct E as (msg & ->). discriminate.
  - intros q Hq. now apply parse_rate_token_unknown with (q := q).
Qed.

Lemma parse_rate_unknown_unit_witness :
  parse_rate (txt "5" ++ txt "GB" ++ txt "/s") (quiet_world 0, tt)
  = (Raise (ValueError "Unknown unit!: GB"), (quiet_world 0, tt)).
Proof.
  refine (proj2 (proj2 (@parse_rate_unknown_unit unit (txt "5") (txt "GB")
                          (quiet_world 0, tt) _ _ _ _ _ _)) 5 _).
  - discriminate.
  - repeat constructor.
  - discriminate.
  - repeat constructor.
  - discriminate.
  - discriminate.
  - reflexivity.
Defined.

(** C10.  The two copies of [parse_rate] are the same computation: on every
    input and in every state they return the same integer or raise the same
    exception, and print the same. *)
Theorem parse_rate_copies_agree (V : Type) (rate_string : str) (s : world * V) :
  SyncDownloadedFiles.parse_rate rate_string s
  = SyncDownloadedFilesScript.parse_rate rate_string s.
Proof.
  unfold SyncDownloadedFiles.parse_rate, SyncDownloadedFilesScript.parse_rate.
  change SyncDownloadedFilesScript.rate_pattern with SyncDownloadedFiles.rate_pattern.
  destruct (search SyncDownloadedFiles.rate_pattern rate_string) as [result|];
    reflexivity.
Qed.

End RateClaims.

Module ProgressClaims.
Import Spans SyncDownloadedFiles RateFacts RateTheorems ProgressFacts
  ProgressSearch ProgressResults PolicyFacts.
Local Open Scope char_scope.




(** C8.  The parser is not total: there is a line on which the pattern
    matches, the [bytes] group (which begins with [.*]) has taken the text
    before the number with it, and [locale.atoi] raises on that text; the
    parser raises instead of returning a sample or [None]. *)
Theorem parse_progress_line_raises_on_prefix :
  exists (line : str) (g : groups),
    search progress_pattern line = Some g /\
    group_text "bytes" g = txt "file 823,915,288" /\
    atoi (group_text "bytes" g)
    = Raise (ValueError "invalid literal for int() with base 10") /\
    atoi (txt "823,915,288") = Ok 823915288%Z /\
    forall (V : Type) (s : world * V),
      parse_progress_line line s
      = (Raise (ValueError "invalid literal for int() with base 10"), s).
Proof.
  exists (txt "file 823,915,288  35%   36.65MB/s    0:00:40").
  eexists. split; [vm_compute; reflexivity|].
  split; [reflexivity|]. split; [reflexivity|]. split; [reflexivity|].
  intros V s. unfold parse_progress_line.
  replace (search progress_pattern
             (txt "file 823,915,288  35%   36.65MB/s    0:00:40"))
    with (Some [ ("eta"%string, txt "0:00:40"); ("rate"%string, txt "36.65MB/s");
                 ("percent"%string, txt "35");
                 ("bytes"%string, txt "file 823,915,288") ])
    by (vm_compute; reflexivity).
  reflexivity.
Qed.



End ProgressClaims.

Module LoopClaims.
Import SyncDownloadedFiles PolicyFacts LoopFacts Vocabulary Turns TurnFacts
  WatchFacts ErrorFacts.
Local Open Scope char_scope.

#[local] Arguments fsub : simpl never.
#[local] Arguments fgt : simpl never.
#[local] Arguments while_true : simpl never.

(** C1.  The rate policy, for every sample [p] and every state, when
    [should_terminate] is still [False]:
    - it decides to terminate exactly when the rate of [p] is at or below
      the floor of 100000, the streak flag is already set, and the clock, as
      read for the comparison, minus the time of the last acceptable rate
      exceeds 30 seconds; otherwise it decides to continue (it never raises);
    - a sample above the floor sets the time of the last acceptable rate to
      the clock, clears the streak and continues;
    - a first low sample sets the streak, leaves the time alone and
      continues. *)
Theorem rate_policy_decision (p : RsyncProgressStatus) (w : world) (v : vars) :
  let st := states v in
  let result := check_transfer_rate p false (w, v) in
  (fst result = Ok true <->
   (transfer_rate p <= TRANSFER_RATE_MIN)%Z /\
   low_xfer_rate st = true /\
   fgt (fsub (reading w 1) (last_acceptable_rate_time st)) RATE_LOW_TIMEOUT
   = true)
  /\ (fst result = Ok true \/ fst result = Ok false)
  /\ ((transfer_rate p > TRANSFER_RATE_MIN)%Z ->
      result = (Ok false,
                (tick_clock w, with_states (after_high (reading w 0) st) v)))
  /\ ((transfer_rate p <= TRANSFER_RATE_MIN)%Z ->
      low_xfer_rate st = false ->
      result = (Ok false, (w, with_states (after_first_low st) v))).
Proof.
  intros st result. subst st result.
  destruct (Z_le_gt_dec (transfer_rate p) TRANSFER_RATE_MIN) as [Hlow|Hhigh].
  - destruct (low_xfer_rate (states v)) eqn:Hstreak.
    + rewrite (check_transfer_rate_second_low p false w v Hlow Hstreak).
      destruct (fgt _ _) eqn:Hstale.
      * repeat split; auto; intros; try lia; discriminate.
      * split; [split; [discriminate|intros (_ & _ & ?); discriminate]|].
        repeat split; auto; intros; try lia; discriminate.
    + rewrite (check_transfer_rate_first_low p false w v Hlow Hstreak). simpl.
      split; [split; [discriminate|intros (_ & ? & _); discriminate]|].
      repeat split; auto; intros; lia.
  - rewrite (check_transfer_rate_high p false w v Hhigh). simpl.
    split; [split; [discriminate|intros (? & _); lia]|].
    repeat split; auto; intros; lia.
Qed.

(** Two samples at 50000 B/s; the second comes 31 seconds after the last
    acceptable rate. *)
Lemma rate_policy_decision_witness :
  fst (check_transfer_rate
         {| bytes_transferred := 1; percent_transferred := Finite 1;
            transfer_rate := 50000; eta := txt "0:00:40" |}
         false
         (quiet_world 31,
          vars_of {| low_xfer_rate := true;
                     last_acceptable_rate_time := Finite 0;
                     last_line := []; last_was_progress := true |}
                  (Finite 31)))
  = Ok true.
Proof.
  apply (proj1 (rate_policy_decision _ _ _)).
  repeat split.
  vm_compute. discriminate.
Defined.

(** C4.  When [select] reports nothing readable and the child has not
    exited, one turn of the loop calls [process.terminate()] exactly when
    the clock minus [last_activity] exceeds 60 seconds and [process.kill()]
    exactly when it exceeds 120 seconds, each comparison with its own reading
    of the clock, and the second whatever the first decided; the loop goes
    on and [last_activity] stays as it was.  ([evs] are the events of the
    turn, most recent first.) *)
Theorem activity_monitor_decision (w : world) (v : vars) :
  ready w (n_select w) = [] ->
  returncode w = None ->
  status w (n_poll w) = None ->
  let last := last_activity v in
  let terminate := fgt (fsub (reading w 0) last) (Finite 60) in
  let kill :=
    fgt (fsub (reading w (if terminate then 2 else 1)) last) (Finite 120) in
  let evs :=
    (if kill then [Kill; Print "Killing rsync process" []] else []) ++
    (if terminate
     then [Terminate; Print "Terminating rsync process" [];
           Print "No activity for {:2.2f} seconds"
                 [VFloat (fsub (reading w 1) last)]]
     else []) in
  exists w' : world,
    loop_body (w, v) = (Ok Next, (w', v)) /\
    trace w' = evs ++ trace w /\
    signals evs = (if kill then [Kill] else []) ++
                  (if terminate then [Terminate] else []) /\
    (In Terminate evs <-> terminate = true) /\
    (In Kill evs <-> kill = true).
Proof.
  intros Hready Hrc Hstatus last terminate kill evs.
  unfold loop_body, bind, select_select. simpl. rewrite Hready.
  unfold process_poll. simpl. rewrite Hrc, Hstatus.
  unfold time_time, get_last_activity, get_vars, bind, ret, when. simpl.
  subst evs terminate kill last. unfold reading.
  rewrite Nat.add_0_r, Nat.add_1_r.
  destruct (fgt (fsub (Finite (clock w (n_clock w))) (last_activity v))
              (Finite 60)) eqn:Hterm; simpl.
  - replace (n_clock w + 2)%nat with (S (S (n_clock w))) by lia.
    destruct (fgt _ (Finite 120)) eqn:Hkill; simpl;
      (eexists; split; [reflexivity|]; split; [reflexivity|];
       split; [reflexivity|]; split; split; intros; auto;
       repeat match goal with
              | H : _ \/ _ |- _ => destruct H
              end; try discriminate; try contradiction; auto).
  - rewrite ?Nat.add_1_r.
    destruct (fgt _ (Finite 120)) eqn:Hkill; simpl;
      (eexists; split; [reflexivity|]; split; [reflexivity|];
       split; [reflexivity|]; split; split; intros; auto;
       repeat match goal with
              | H : _ \/ _ |- _ => destruct H
              end; try discriminate; try contradiction; auto).
Qed.

(** No output for 61 seconds: terminate, not yet kill. *)
Lemma activity_monitor_decision_witness :
  exists w' : world,
    loop_body (quiet_world 61, fresh_vars 0) = (Ok Next, (w', fresh_vars 0)) /\
    trace w' = [Terminate; Print "Terminating rsync process" [];
                Print "No activity for {:2.2f} seconds" [VFloat (Finite 61)]].
Proof.
  destruct (@activity_monitor_decision (quiet_world 61) (fresh_vars 0)
              eq_refl eq_refl eq_refl) as (w' & H1 & H2 & _).
  exists w'. split; [exact H1|exact H2].
Defined.

(** C3 (as stated, refuted).  The child prints the example line with the
    unit GB.  The rate sub-parser raises its unit error for the token, and
    nothing catches it: the first turn of the loop raises it and so does
    [run_rsync_command], whatever the number of turns allowed. *)
Lemma unknown_unit_ends_the_session :
  let w := chatty_world 0 (txt " 823,915,288  35%   36.65GB/s    0:00:40") in
  fst (parse_rate (txt "36.65GB/s") (w, fresh_vars 0))
  = Raise (ValueError "Unknown unit!: GB") /\
  fst (loop_body (w, fresh_vars 0)) = Raise (ValueError "Unknown unit!: GB") /\
  fst (run_rsync_command (Finite 0) 1 (w, fresh_vars 0))
  = Raise (ValueError "Unknown unit!: GB") /\
  fst (run_rsync_command (Finite 0) 1000 (w, fresh_vars 0))
  = Raise (ValueError "Unknown unit!: GB").
Proof. vm_compute. repeat split. Qed.

(** C3 (amended).  When the rate sub-parser raises [e] for the rate token of
    a line (for an unknown unit, [ValueError("Unknown unit!: ...")]), nothing
    catches [e], wherever the line comes: after any number of turns that
    did not leave the loop, after any descriptors read on its turn, after
    any lines of its chunk.  The line raises [e] with the [States] as the
    lines before it left them; the turn of the loop raises [e] and ends in
    that same state, nothing more being read, printed or sent; the loop does
    not go on, and [run_rsync_command] raises [e]. *)
Theorem rate_error_is_not_caught
    (loaded_at : float) (turns fuel : nat) (w : world) (v0 : vars)
    (w1 : world) (v1 : vars)
    (fds_before : list fd) (d : fd) (fds_after : list fd)
    (b1 : bool) (w2 : world) (v2 : vars)
    (data : str) (before : list str) (line : str) (after : list str)
    (b2 : bool) (s3 : world * vars)
    (g : groups) (n : Z) (f : float) (e : exn) :
  while_true turns (started loaded_at w) = (Ok false, (w1, v1)) ->
  (turns < fuel)%nat ->
  ready w1 (n_select w1) = fds_before ++ d :: fds_after ->
  for_each fds_before watch_fd false (watching w1 v1) = (Ok b1, (w2, v2)) ->
  chunk w2 (n_read w2) d = data ->
  data <> [] ->
  splitlines (strip data) = before ++ line :: after ->
  for_each before watch_line b1 (tick_read w2, v2) = (Ok b2, s3) ->
  search progress_pattern line = Some g ->
  atoi (group_text "bytes" g) = Ok n ->
  py_float (group_text "percent" g) = Ok f ->
  (forall s : world * vars,
      parse_rate (group_text "rate" g) s = (Raise e, s)) ->
  exists s' : world * vars,
    watch_line b2 line s3 = (Raise e, s') /\
    states (snd s') = states (snd s3) /\
    loop_body (w1, v1) = (Raise e, s') /\
    while_true fuel (started loaded_at w) = (Raise e, s') /\
    run_rsync_command loaded_at fuel (w, v0) = (Raise e, s').
Proof.
  intros Hturns Hfuel Hready Hfds Hchunk Hdata Hlines Hbefore
         Hsearch Hbytes Hpercent Hrate.
  destruct (@watch_line_rate_error line g n f e Hsearch Hbytes Hpercent Hrate
              b2 s3) as (Hraise & Hstates).
  destruct (watch_line b2 line s3) as (o & s') eqn:Hline.
  simpl in Hraise, Hstates. subst o.
  exists s'. split; [reflexivity|]. split; [exact Hstates|].
  assert (Hfd : watch_fd b1 d (w2, v2) = (Raise e, s')).
  { unfold watch_fd, bind at 1, os_read. cbn [fst snd]. rewrite Hchunk.
    destruct data as [|c data']; [congruence|].
    rewrite Hlines. now apply for_each_raises with (acc1 := b2) (s1 := s3). }
  assert (Hturn : loop_body (w1, v1) = (Raise e, s')).
  { apply loop_body_raises with (fds := fds_before ++ d :: fds_after);
      [exact Hready|].
    unfold watch_rsync_progress.
    now apply for_each_raises with (acc1 := b1) (s1 := (w2, v2)). }
  split; [exact Hturn|].
  assert (Hloop : while_true fuel (started loaded_at w) = (Raise e, s')).
  { replace fuel with (turns + S (fuel - turns - 1))%nat by lia.
    rewrite (@while_true_more turns _ _ _ Hturns).
    unfold while_true; fold while_true. unfold bind. now rewrite Hturn. }
  split; [exact Hloop|]. now apply run_rsync_command_raises.
Qed.

(** The first chunk is a message.  The second begins with a file name, and
    its second line has the unit GB: the second turn raises, with the file
    name kept as [last_line]. *)
Lemma rate_error_is_not_caught_witness :
  let w :=
    world_of (fun _ => 0%Q) (fun _ => [m_out])
      (fun k _ => match k with
                  | O => txt "sending incremental file list"
                  | S _ => txt "file.bin" ++ LF :: txt " 1 1% 1.0GB/s 0:00:01"
                  end)
      (fun _ => None) in
  exists s' : world * vars,
    run_rsync_command (Finite 0) 5 (w, fresh_vars 0)
    = (Raise (ValueError "Unknown unit!: GB"), s') /\
    last_line (states (snd s')) = txt "file.bin".
Proof.
  intros w.
  destruct (@rate_error_is_not_caught (Finite 0) 1 5 w (fresh_vars 0)
              (fst (snd (while_true 1 (started (Finite 0) w))))
              (snd (snd (while_true 1 (started (Finite 0) w))))
              [] m_out [] false
              (fst (watching (fst (snd (while_true 1 (started (Finite 0) w))))
                      (snd (snd (while_true 1 (started (Finite 0) w))))))
              (snd (watching (fst (snd (while_true 1 (started (Finite 0) w))))
                      (snd (snd (while_true 1 (started (Finite 0) w))))))
              (txt "file.bin" ++ LF :: txt " 1 1% 1.0GB/s 0:00:01")
              [txt "file.bin"] (txt " 1 1% 1.0GB/s 0:00:01") [] false
              (snd (watch_line false (txt "file.bin")
                      (tick_read
                         (fst (watching
                                 (fst (snd (while_true 1 (started (Finite 0) w))))
                                 (snd (snd (while_true 1 (started (Finite 0) w)))))),
                       snd (watching
                              (fst (snd (while_true 1 (started (Finite 0) w))))
                              (snd (snd (while_true 1 (started (Finite 0) w))))))))
              [ ("eta"%string, txt "0:00:01"); ("rate"%string, txt "1.0GB/s");
                ("percent"%string, txt "1"); ("bytes"%string, txt " 1") ]
              1 (Finite 1) (ValueError "Unknown unit!: GB"))
    as (s' & _ & Hs & _ & _ & Hrun).
  - vm_compute. reflexivity.
  - lia.
  - vm_compute. reflexivity.
  - vm_compute. reflexivity.
  - vm_compute. reflexivity.
  - discriminate.
  - vm_compute. reflexivity.
  - vm_compute. reflexivity.
  - vm_compute. reflexivity.
  - vm_compute. reflexivity.
  - vm_compute. reflexivity.
  - intros s. reflexivity.
  - exists s'. split; [exact Hrun|]. rewrite Hs. vm_compute. reflexivity.
Defined.

(** A turn sets [last_activity] to the clock when [select] reports a
    descriptor, before anything is read, and leaves it alone, and reads
    nothing, when [select] reports none. *)
Lemma last_activity_set_when_ready (w : world) (v : vars) :
  let after := snd (loop_body (w, v)) in
  (ready w (n_select w) <> [] -> last_activity (snd after) = reading w 0) /\
  (ready w (n_select w) = [] ->
   last_activity (snd after) = last_activity v /\
   n_read (fst after) = n_read w).
Proof.
  intros after. subst after.
  destruct (loop_body (w, v)) as (o & after) eqn:E. simpl.
  unfold loop_body, bind at 1, select_select in E. simpl in E. split.
  - intros Hready.
    destruct (ready w (n_select w)) as [|d ds]; [congruence|].
    unfold bind at 1, time_time in E. simpl in E.
    unfold bind at 1, set_last_activity, set_vars in E. simpl in E.
    pose proof (keeps_after_watch (d :: ds)
                  (tick_clock (tick_select w),
                   {| states := states v;
                      last_activity := Finite (clock w (n_clock w)) |})) as K.
    rewrite E in K. simpl in K.
    unfold reading. now rewrite Nat.add_0_r.
  - intros Hready. rewrite Hready in E.
    unfold process_poll, time_time, get_last_activity, get_vars, bind, ret, when
      in E.
    simpl in E.
    destruct (returncode w) as [c|].
    { injection E as _ <-. simpl. auto. }
    destruct (status w (n_poll w)) as [c|].
    { injection E as _ <-. simpl. auto. }
    simpl in E.
    destruct (fgt _ (Finite 60)); simpl in E;
      destruct (fgt _ (Finite 120)); simpl in E;
      injection E as _ <-; simpl; auto.
Qed.

(** A turn on which [select] reports a descriptor reads the first of them. *)
Lemma ready_turn_reads (w : world) (v : vars) (d : fd) (ds : list fd) :
  ready w (n_select w) = d :: ds ->
  (n_read w < n_read (fst (snd (loop_body (w, v)))))%nat.
Proof.
  intros Hr. rewrite (@loop_body_ready w v d ds Hr).
  pose proof (for_each_watch_fd_reads (d :: ds) false (watching w v)) as H.
  unfold watch_rsync_progress. cbv zeta in H.
  destruct (for_each (d :: ds) watch_fd false (watching w v))
    as ([[|]|e] & s); simpl in *; lia.
Qed.

(** C7.  For every turn of the loop, whether it ends normally or raises,
    where the descriptors that [select] reports readable have bytes to give
    (as the masters of the program's ptys do): [last_activity] is set to the
    clock of the turn if a read of one byte or more succeeded in the turn,
    and it stays as it was, nothing being read, if none did.  And a read of
    one byte or more succeeds exactly on the turns on which [select] reports
    a descriptor. *)
Theorem last_activity_follows_reads (w : world) (v : vars) :
  ready_means_bytes w ->
  let after := snd (loop_body (w, v)) in
  (read_some_bytes w (fst after) ->
   last_activity (snd after) = reading w 0) /\
  (~ read_some_bytes w (fst after) ->
   last_activity (snd after) = last_activity v /\
   n_read (fst after) = n_read w) /\
  (read_some_bytes w (fst after) <-> ready w (n_select w) <> []).
Proof.
  intros Hbytes after. subst after.
  destruct (last_activity_set_when_ready w v) as (Hset & Hkept).
  assert (Hiff : read_some_bytes w (fst (snd (loop_body (w, v))))
                 <-> ready w (n_select w) <> []).
  { split.
    - intros (i & d & Hi & _ & _) E. rewrite E in Hi. now destruct i.
    - intros Hne. destruct (ready w (n_select w)) as [|d ds] eqn:Hr;
        [congruence|].
      exists 0%nat, d. rewrite Nat.add_0_r. split; [now rewrite Hr|]. split.
      + now apply ready_turn_reads with (d := d) (ds := ds).
      + specialize (Hbytes 0%nat d). rewrite Hr, Nat.add_0_r in Hbytes.
        now apply Hbytes. }
  split; [|split; [|exact Hiff]].
  - intros H. apply Hset. now apply Hiff.
  - intros H. apply Hkept.
    destruct (ready w (n_select w)) as [|d ds] eqn:Hr; [reflexivity|].
    exfalso. apply H, Hiff. discriminate.
Qed.

(** The child writes a message at every turn: the turn reads it and sets
    [last_activity] to the clock, 100. *)
Lemma last_activity_follows_reads_witness :
  let w := chatty_world 100 (txt "sending incremental file list") in
  read_some_bytes w (fst (snd (loop_body (w, fresh_vars 0)))) /\
  last_activity (snd (snd (loop_body (w, fresh_vars 0)))) = Finite 100.
Proof.
  intros w.
  destruct (@last_activity_follows_reads w (fresh_vars 0)) as (Hset & _ & Hiff).
  - intros i d _. discriminate.
  - assert (H : read_some_bytes w (fst (snd (loop_body (w, fresh_vars 0)))))
      by (apply Hiff; discriminate).
    split; [exact H|]. exact (Hset H).
Defined.

(** The hypothesis is used: in a world where [select] reports the child's
    stdout readable and the read gives no byte (the case the program tests
    with [if not data]), [last_activity] moves from 0 to 100 without a byte
    read. *)
Lemma activity_updated_without_bytes :
  let w := chatty_world 100 [] in
  let after := snd (loop_body (w, fresh_vars 0)) in
  (forall k d, chunk w k d = []) /\
  last_activity (fresh_vars 0) = Finite 0 /\
  last_activity (snd after) = Finite 100 /\
  n_read (fst after) = 1%nat.
Proof. vm_compute. repeat split. Qed.

End LoopClaims.

(* ===================================================================== *)
(** * The sign of a rate *)
(* ===================================================================== *)

Module SignFacts.
Import SyncDownloadedFiles RateFacts RateTheorems.
Local Open Scope Z_scope.

(** A float that is not below zero (and is a number). *)
Definition not_negative (f : float) : Prop :=
  match f with
  | Finite q => 0 <= Qnum q
  | PosInf => True
  | NegInf | NaN => False
  end.

Lemma round_half_even_nonneg (n d : Z) : 0 <= n -> 0 < d -> 0 <= round_half_even n d.
Proof.
  intros Hn Hd. unfold round_half_even.
  assert (0 <= n / d) by (apply Z.div_pos; lia).
  destruct (2 * (n mod d) ?= d); [destruct (Z.even (n / d))| |]; lia.
Qed.

Lemma Qred_nonneg (q : Q) : 0 <= Qnum q -> 0 <= Qnum (Qred q).
Proof.
  intros H. pose proof (Qred_correct q) as E. unfold Qeq in E.
  assert (0 <= Qnum (Qred q) * Z.pos (Qden q)) by (rewrite E; nia).
  nia.
Qed.

Lemma round64_not_negative (q : Q) : 0 <= Qnum q -> not_negative (round64 q).
Proof.
  intros H. unfold round64.
  destruct (Z.eqb_spec (Qnum q) 0) as [E|E]; [simpl; lia|].
  cbv zeta.
  match goal with |- context [round_half_even ?a ?b] =>
    assert (Hm : 0 <= round_half_even a b);
    [|set (m := round_half_even a b) in *; clearbody m]
  end.
  { apply round_half_even_nonneg.
    - apply Z.mul_nonneg_nonneg; [lia|]. apply Z.pow_nonneg. lia.
    - apply Z.mul_pos_pos; [lia|]. apply Z.pow_pos_nonneg; lia. }
  destruct (_ <=? _).
  - destruct (Z.ltb_spec (Qnum q) 0); [lia|exact I].
  - apply Qred_nonneg. cbn [Qnum].
    assert (Z.sgn (Qnum q) = 1) as -> by (apply Z.sgn_pos; lia).
    apply Z.mul_nonneg_nonneg; [lia|]. apply Z.pow_nonneg. lia.
Qed.

Lemma float_of_Z_1024 : float_of_Z 1024 = Finite 1024.
Proof. vm_compute. reflexivity. Qed.

Lemma fmul_1024_not_negative (f : float) :
  not_negative f -> not_negative (fmul f (float_of_Z 1024)).
Proof.
  rewrite float_of_Z_1024. destruct f as [q| | |]; simpl; intros H; try tauto.
  apply round64_not_negative. simpl. lia.
Qed.

Lemma int_of_float_not_negative (f : float) (z : Z) :
  not_negative f -> int_of_float f = Ok z -> 0 <= z.
Proof.
  destruct f as [q| | |]; simpl; intros H; try discriminate.
  intros [= <-]. apply Z.quot_pos; lia.
Qed.

Lemma digit_value_nonneg (c : ascii) : 0 <= digit_value c.
Proof. unfold digit_value. lia. Qed.

Lemma digits_value_nonneg (s : str) (acc : Z) : 0 <= acc -> 0 <= digits_value acc s.
Proof.
  revert acc. induction s as [|c s IH]; intros acc H; cbn [digits_value];
    [assumption|].
  apply IH. pose proof (digit_value_nonneg c). lia.
Qed.

Lemma decimal_value_nonneg (s : str) (q : Q) :
  decimal_value s = Some q -> 0 <= Qnum q.
Proof.
  unfold decimal_value. destruct (split_point s) as (i & f).
  destruct (_ && _); [|discriminate]. intros [= <-]. simpl.
  apply digits_value_nonneg. lia.
Qed.

Lemma py_float_not_negative (s : str) (f : float) :
  py_float s = Ok f -> not_negative f.
Proof.
  unfold py_float. destruct (decimal_value s) as [q|] eqn:E; [|discriminate].
  intros [= <-]. apply round64_not_negative. eapply decimal_value_nonneg; eauto.
Qed.

End SignFacts.

(* ===================================================================== *)
(** * The session: descriptors, countdown, turns *)
(* ===================================================================== *)

Module DescriptorFacts.
Import Process Session Hosts.
Local Open Scope nat_scope.

Lemma with_fds_same (h : host) : with_fds (fds h) h = h.
Proof. destruct h; reflexivity. Qed.

Definition remove_all (xs open : list nat) : list nat :=
  fold_left (fun l x => remove Nat.eq_dec x l) xs open.

Lemma remove_filter (x : nat) (l : list nat) :
  remove Nat.eq_dec x l = filter (fun y => negb (Nat.eqb y x)) l.
Proof.
  induction l as [|y l IH]; simpl; [reflexivity|].
  destruct (Nat.eq_dec x y) as [->|Hne].
  - rewrite Nat.eqb_refl. simpl. exact IH.
  - destruct (Nat.eqb_spec y x); [congruence|]. simpl. now rewrite IH.
Qed.

Lemma filter_filter {X} (p q : X -> bool) (l : list X) :
  filter p (filter q l) = filter (fun y => q y && p y) l.
Proof.
  induction l as [|y l IH]; simpl; [reflexivity|].
  destruct (q y); simpl; [destruct (p y)|]; now rewrite IH.
Qed.

Lemma remove_all_filter (xs open : list nat) :
  remove_all xs open
  = filter (fun y => negb (existsb (Nat.eqb y) xs)) open.
Proof.
  unfold remove_all. revert open. induction xs as [|x xs IH]; intros open; simpl.
  - induction open as [|y l IHl]; simpl; [|rewrite <- IHl]; reflexivity.
  - rewrite IH, remove_filter, filter_filter. apply filter_ext. intros y.
    now rewrite negb_orb.
Qed.

Lemma filter_none {X} (p : X -> bool) (l : list X) :
  (forall y, In y l -> p y = false) -> filter p l = [].
Proof.
  induction l as [|y l IH]; intros H; simpl; [reflexivity|].
  rewrite (H y (or_introl eq_refl)). apply IH. intros z Hz. apply H. now right.
Qed.

(** Closing descriptors that were opened on top of [open] leaves [open]. *)
Lemma remove_all_opened (xs open : list nat) :
  (forall x, In x xs -> ~ In x open) -> remove_all xs (rev xs ++ open) = open.
Proof.
  intros H. rewrite remove_all_filter, filter_app, filter_none.
  - simpl. apply forallb_filter_id. apply forallb_forall. intros y Hy.
    apply negb_true_iff. destruct (existsb _ xs) eqn:E; [|reflexivity].
    apply existsb_exists in E. destruct E as (x & Hx & E).
    apply Nat.eqb_eq in E. subst. now apply H in Hx.
  - intros y Hy. apply negb_false_iff, existsb_exists. exists y.
    split; [now apply in_rev|apply Nat.eqb_refl].
Qed.

Lemma close_all (xs : list nat) (w : world) (h : host) :
  NoDup xs -> (forall x, In x xs -> In x (fds h)) ->
  tfor xs os_close (w, h)
  = (Done tt, (w, with_fds (remove_all xs (fds h)) h)).
Proof.
  intros Hnd. revert h. induction Hnd as [|x xs Hx Hnd IH]; intros h Hin.
  - simpl. unfold treturn, remove_all. simpl. now rewrite with_fds_same.
  - simpl tfor. unfold tbind, os_close. simpl.
    destruct (in_dec Nat.eq_dec x (fds h)) as [_|Hn].
    + rewrite IH.
      * reflexivity.
      * intros y Hy. simpl. apply in_in_remove.
        -- intros ->. contradiction.
        -- apply Hin. now right.
    + exfalso. apply Hn, Hin. now left.
Qed.

(** [pty_open] when the three calls of [pty.openpty()] succeed. *)
Lemma pty_open_opened (A : Type) (body : Ptys -> T A) (w : world) (h : host)
    (a1 b1 a2 b2 a3 b3 : nat) :
  openpty h (n_openpty h) = Some (a1, b1) ->
  openpty h (1 + n_openpty h) = Some (a2, b2) ->
  openpty h (2 + n_openpty h) = Some (a3, b3) ->
  pty_open body (w, h) =
  try_finally
    (body {| m_out := a1; s_out := b1; m_err := a2; s_err := b2;
             m_in := a3; s_in := b3 |})
    (tfor [a1; b1; a2; b2; a3; b3] os_close)
    (w, after_openpty 3 (b3 :: a3 :: b2 :: a2 :: b1 :: a1 :: fds h) h).
Proof.
  intros H1 H2 H3. simpl in H2, H3.
  unfold pty_open, tbind at 1, pty_openpty. simpl. rewrite H1.
  unfold tbind at 1. simpl. rewrite H2.
  unfold tbind at 1. simpl. rewrite H3. reflexivity.
Qed.

End DescriptorFacts.

Module CountdownFacts.
Import Process Session Hosts Frames FrameFacts DescriptorFacts.
Local Open Scope nat_scope.

Lemma advanced_advanced (a b c d : nat) (h : host) :
  advanced a b (advanced c d h) = advanced (a + c) (b + d) h.
Proof. unfold advanced. simpl. f_equal; lia. Qed.

Lemma countdown_tick_sleeps (stop_time : Z) (w : world) (h : host) :
  interrupt h (n_sleep h) = false ->
  countdown_tick stop_time (w, h)
  = (Done tt, (emit (remaining_line stop_time (now h (n_now h))) w,
               advanced 1 1 h)).
Proof.
  intros H. unfold countdown_tick, tbind at 1, datetime_now. simpl.
  unfold remaining_line, time_fields. simpl.
  unfold tbind, tprint, try_except, time_sleep. simpl. rewrite H. reflexivity.
Qed.

Lemma countdown_tick_interrupted (stop_time : Z) (w : world) (h : host) :
  interrupt h (n_sleep h) = true ->
  countdown_tick stop_time (w, h)
  = (Raised (SystemExit 1),
     (emit (remaining_line stop_time (now h (n_now h))) w, advanced 1 1 h)).
Proof.
  intros H. unfold countdown_tick, tbind at 1, datetime_now. simpl.
  unfold remaining_line, time_fields. simpl.
  unfold tbind, tprint, try_except, time_sleep. simpl. rewrite H. reflexivity.
Qed.

Lemma printed_emit (lines : list event) (e : event) (w : world) :
  printed lines (emit e w) = printed (lines ++ [e]) w.
Proof. unfold printed, emit. simpl. now rewrite <- app_assoc. Qed.

Lemma signals_remaining_line (stop_time t : Z) :
  signals [remaining_line stop_time t] = [].
Proof. reflexivity. Qed.

Section Loop.
Variable stop_time : Z.

(** [k] turns of the loop, the tests at every second reading of the clock
    from the first; then the test fails. *)
Lemma countdown_loop_finishes (k : nat) :
  forall (fuel : nat) (w : world) (h : host),
    k < fuel ->
    (forall j, j < k -> (now h (n_now h + 2 * j) < stop_time)%Z) ->
    (stop_time <= now h (n_now h + 2 * k))%Z ->
    (forall j, j < k -> interrupt h (n_sleep h + j) = false) ->
    exists lines,
      length lines = k /\ signals lines = [] /\
      countdown_loop stop_time fuel (w, h)
      = (Done true, (printed lines w, advanced (2 * k + 1) k h)).
Proof.
  induction k as [|k IH]; intros fuel w h Hf Hlt Hge Hint.
  - destruct fuel as [|fuel]; [lia|]. exists []. split; [reflexivity|].
    split; [reflexivity|].
    simpl. unfold tbind, datetime_now. simpl.
    rewrite Nat.add_0_r in Hge.
    destruct (Z.ltb_spec (now h (n_now h)) stop_time); [lia|].
    rewrite printed_nil. reflexivity.
  - destruct fuel as [|fuel]; [lia|].
    simpl countdown_loop. unfold tbind at 1, datetime_now. simpl.
    pose proof (Hlt 0 ltac:(lia)) as H0. rewrite Nat.add_0_r in H0.
    destruct (Z.ltb_spec (now h (n_now h)) stop_time); [|lia].
    unfold tbind at 1.
    rewrite countdown_tick_sleeps
      by (simpl; rewrite <- (Hint 0 ltac:(lia)); f_equal; lia).
    unfold advanced at 1. simpl.
    match goal with |- context [countdown_loop _ _ (?w1, ?h1)] =>
      destruct (IH fuel w1 h1) as (lines & Hlen & Hsig & ->) end.
    + lia.
    + intros j Hj. simpl n_now. specialize (Hlt (S j) ltac:(lia)).
      match goal with |- (now _ ?i < _)%Z =>
        replace i with (n_now h + 2 * S j) by lia end.
      exact Hlt.
    + simpl n_now.
      match goal with |- (_ <= now _ ?i)%Z =>
        replace i with (n_now h + 2 * S k) by lia end.
      exact Hge.
    + intros j Hj. simpl. rewrite <- (Hint (S j) ltac:(lia)). f_equal; lia.
    + eexists. split; [|split; [|rewrite printed_emit; unfold advanced; simpl;
                                  repeat f_equal; lia]].
      * rewrite length_app, Hlen. simpl. lia.
      * rewrite signals_app, Hsig. reflexivity.
Qed.

(** [k] turns of the loop, and the sleep of the next one is cut short. *)
Lemma countdown_loop_interrupted (k : nat) :
  forall (fuel : nat) (w : world) (h : host),
    k < fuel ->
    (forall j, j <= k -> (now h (n_now h + 2 * j) < stop_time)%Z) ->
    (forall j, j < k -> interrupt h (n_sleep h + j) = false) ->
    interrupt h (n_sleep h + k) = true ->
    exists lines,
      length lines = S k /\ signals lines = [] /\
      countdown_loop stop_time fuel (w, h)
      = (Raised (SystemExit 1),
         (printed lines w, advanced (2 * k + 2) (S k) h)).
Proof.
  induction k as [|k IH]; intros fuel w h Hf Hlt Hint Hi.
  - destruct fuel as [|fuel]; [lia|].
    simpl countdown_loop. unfold tbind at 1, datetime_now. simpl.
    pose proof (Hlt 0 ltac:(lia)) as H0. rewrite Nat.add_0_r in H0.
    destruct (Z.ltb_spec (now h (n_now h)) stop_time); [|lia].
    unfold tbind at 1.
    rewrite countdown_tick_interrupted
      by (simpl; rewrite <- Hi; f_equal; lia).
    unfold advanced. simpl.
    eexists [_]. split; [reflexivity|]. split; [|reflexivity]. reflexivity.
  - destruct fuel as [|fuel]; [lia|].
    simpl countdown_loop. unfold tbind at 1, datetime_now. simpl.
    pose proof (Hlt 0 ltac:(lia)) as H0. rewrite Nat.add_0_r in H0.
    destruct (Z.ltb_spec (now h (n_now h)) stop_time); [|lia].
    unfold tbind at 1.
    rewrite countdown_tick_sleeps
      by (simpl; rewrite <- (Hint 0 ltac:(lia)); f_equal; lia).
    unfold advanced at 1. simpl.
    match goal with |- context [countdown_loop _ _ (?w1, ?h1)] =>
      destruct (IH fuel w1 h1) as (lines & Hlen & Hsig & ->) end.
    + lia.
    + intros j Hj. simpl n_now. specialize (Hlt (S j) ltac:(lia)).
      match goal with |- (now _ ?i < _)%Z =>
        replace i with (n_now h + 2 * S j) by lia end.
      exact Hlt.
    + intros j Hj. simpl. rewrite <- (Hint (S j) ltac:(lia)). f_equal; lia.
    + simpl. rewrite <- Hi. f_equal; lia.
    + eexists. split; [|split; [|rewrite printed_emit; unfold advanced; simpl;
                                  repeat f_equal; lia]].
      * rewrite length_app, Hlen. simpl. lia.
      * rewrite signals_app, Hsig. reflexivity.
Qed.

End Loop.

(** [countdown] up to its loop. *)
Lemma countdown_starts (seconds : Z) (fuel : nat) (w : world) (h : host) :
  let stop_time := (now h (n_now h) + seconds * 1000000)%Z in
  (Z.abs (seconds / 86400) <= 999999999)%Z ->
  (0 <= stop_time < datetime_end)%Z ->
  countdown seconds fuel (w, h) =
  match countdown_loop stop_time fuel
          (printed [ Print "Will repeat sync at: {:%H:%M:%S}" [VInt stop_time];
                     Print "Current time is:     {:%H:%M:%S}"
                           [VInt (now h (S (n_now h)))] ] w,
           advanced 2 0 h) with
  | (Done true, s) => (Done true, (emit (Print EmptyString []) (fst s), snd s))
  | other => other
  end.
Proof.
  intros stop_time Hd Hr.
  unfold countdown, tbind at 1, datetime_now. simpl.
  unfold tbind at 1, tlift, timedelta.
  destruct (Z.gtb_spec (Z.abs (seconds / 86400)) 999999999); [lia|].
  unfold tbind at 1, datetime_add, microsecond. fold stop_time.
  destruct (Z.leb_spec 0 stop_time); [|lia].
  destruct (Z.ltb_spec stop_time datetime_end); [|lia]. simpl.
  unfold tbind at 1. simpl. unfold tbind at 1, tprint. simpl.
  unfold tbind at 1. simpl. unfold tbind at 1.
  match goal with |- context [countdown_loop _ _ ?s] =>
    match goal with |- _ = match countdown_loop _ _ ?s' with _ => _ end =>
      change s with s' end end.
  destruct (countdown_loop stop_time fuel _) as ([[|]|e] & s1); reflexivity.
Qed.

End CountdownFacts.

Module SessionFacts.
Import SyncDownloadedFiles Process Session Hosts DescriptorFacts CountdownFacts.
Local Open Scope nat_scope.

(** ** The table of descriptors *)

Definition keeps_fds {A} (m : T A) : Prop :=
  forall s, fds (snd (snd (m s))) = fds (snd s).

Lemma keeps_fds_bind {A B} (m : T A) (k : A -> T B) :
  keeps_fds m -> (forall a, keeps_fds (k a)) -> keeps_fds (tbind m k).
Proof.
  intros Hm Hk s. unfold tbind. specialize (Hm s).
  destruct (m s) as ([a|e] & s'); simpl in *; [|assumption].
  now rewrite Hk.
Qed.

Lemma keeps_fds_return {A} (a : A) : keeps_fds (treturn a).
Proof. intros s. reflexivity. Qed.

Lemma keeps_fds_raise {A} (e : exc) : keeps_fds (traise e : T A).
Proof. intros s. reflexivity. Qed.

Lemma keeps_fds_lift {A} (r : result A) : keeps_fds (tlift r).
Proof. intros s. reflexivity. Qed.

Lemma keeps_fds_print (text : string) (args : list pyval) :
  keeps_fds (tprint text args).
Proof. intros s. reflexivity. Qed.

Lemma keeps_fds_now : keeps_fds datetime_now.
Proof. intros s. reflexivity. Qed.

Lemma keeps_fds_sleep (seconds : Q) : keeps_fds (time_sleep seconds).
Proof.
  intros s. unfold time_sleep. destruct (interrupt _ _); reflexivity.
Qed.

Lemma keeps_fds_call_run {V A} (m : M V (option A)) (v : V) :
  keeps_fds (call_run m v).
Proof.
  intros s. unfold call_run.
  destruct (m (fst s, v)) as ([[a|]|e] & s'); try reflexivity.
  destruct (keyboard _ _); reflexivity.
Qed.

Lemma keeps_fds_try_except {A} (m : T A) (handler : exc -> option (T A)) :
  keeps_fds m -> (forall e h, handler e = Some h -> keeps_fds h) ->
  keeps_fds (try_except m handler).
Proof.
  intros Hm Hh s. unfold try_except. specialize (Hm s).
  destruct (m s) as ([a|e] & s'); simpl in *; [assumption|].
  destruct (handler e) as [h|] eqn:E; [|assumption].
  now rewrite (Hh e h E).
Qed.

Ltac keeps_fds :=
  repeat first
    [ apply keeps_fds_return
    | apply keeps_fds_raise
    | apply keeps_fds_lift
    | apply keeps_fds_print
    | apply keeps_fds_now
    | apply keeps_fds_sleep
    | apply keeps_fds_call_run
    | (apply keeps_fds_bind; [|intros]) ].

Lemma keeps_fds_countdown_tick (stop_time : Z) :
  keeps_fds (countdown_tick stop_time).
Proof.
  unfold countdown_tick. apply keeps_fds_bind; [apply keeps_fds_now|]. intros t.
  destruct (time_fields (stop_time - t)) as ((hh & mm) & ss). keeps_fds.
  apply keeps_fds_try_except; [keeps_fds|].
  intros e h. destruct e; intros [= <-]. unfold sys_exit. keeps_fds.
Qed.

Lemma keeps_fds_countdown_loop (stop_time : Z) (fuel : nat) :
  keeps_fds (countdown_loop stop_time fuel).
Proof.
  induction fuel as [|fuel IH]; simpl; [apply keeps_fds_return|].
  apply keeps_fds_bind; [apply keeps_fds_now|]. intros t.
  destruct (_ <? _)%Z; [|apply keeps_fds_return].
  apply keeps_fds_bind; [apply keeps_fds_countdown_tick|intros; exact IH].
Qed.

Lemma keeps_fds_countdown (seconds : Z) (fuel : nat) :
  keeps_fds (countdown seconds fuel).
Proof.
  unfold countdown.
  apply keeps_fds_bind; [apply keeps_fds_now|]. intros t.
  apply keeps_fds_bind; [apply keeps_fds_lift|]. intros delta.
  apply keeps_fds_bind; [apply keeps_fds_lift|]. intros stop_time.
  apply keeps_fds_bind; [apply keeps_fds_now|]. intros t'.
  apply keeps_fds_bind; [apply keeps_fds_print|]. intros _.
  apply keeps_fds_bind; [apply keeps_fds_print|]. intros _.
  apply keeps_fds_bind; [apply keeps_fds_countdown_loop|]. intros finished.
  destruct finished; keeps_fds.
Qed.

Lemma keeps_fds_sync_turn (loaded_at : float) (args : Namespace) (fuel : nat)
    (result : Z) :
  keeps_fds (sync_turn loaded_at args fuel result).
Proof.
  unfold sync_turn.
  apply keeps_fds_bind; [apply keeps_fds_print|]. intros _.
  apply keeps_fds_bind; [apply keeps_fds_print|]. intros _.
  apply keeps_fds_bind; [apply keeps_fds_print|]. intros _.
  apply keeps_fds_bind.
  - apply keeps_fds_try_except.
    + apply keeps_fds_bind; [apply keeps_fds_call_run|]. intros code.
      destruct code; apply keeps_fds_return.
    + intros e h. destruct e; intros [= <-]; keeps_fds.
  - intros tried. destruct tried; try apply keeps_fds_return.
    destruct (repeats args); [|apply keeps_fds_return].
    apply keeps_fds_bind; [apply keeps_fds_countdown|]. intros finished.
    destruct finished; apply keeps_fds_return.
Qed.

Lemma keeps_fds_sync_loop (loaded_at : float) (args : Namespace)
    (fuel runs : nat) (result : Z) :
  keeps_fds (sync_loop loaded_at args fuel runs result).
Proof.
  revert result. induction runs as [|runs IH]; intros result; simpl.
  - apply keeps_fds_return.
  - apply keeps_fds_bind; [apply keeps_fds_sync_turn|]. intros t.
    destruct t; try apply keeps_fds_return. apply IH.
Qed.

(** [pty_open] around a body that leaves the table of descriptors alone. *)
Lemma pty_open_frame (A : Type) (body : Ptys -> T A) (w : world) (h : host)
    (a1 b1 a2 b2 a3 b3 : nat) :
  openpty h (n_openpty h) = Some (a1, b1) ->
  openpty h (1 + n_openpty h) = Some (a2, b2) ->
  openpty h (2 + n_openpty h) = Some (a3, b3) ->
  NoDup [a1; b1; a2; b2; a3; b3] ->
  (forall x, In x [a1; b1; a2; b2; a3; b3] -> ~ In x (fds h)) ->
  (forall ptys, keeps_fds (body ptys)) ->
  let inside :=
    body {| m_out := a1; s_out := b1; m_err := a2; s_err := b2;
            m_in := a3; s_in := b3 |}
         (w, after_openpty 3 (b3 :: a3 :: b2 :: a2 :: b1 :: a1 :: fds h) h) in
  pty_open body (w, h)
  = (fst inside, (fst (snd inside), with_fds (fds h) (snd (snd inside)))).
Proof.
  intros H1 H2 H3 Hnd Hnew Hbody inside. subst inside.
  rewrite (pty_open_opened body w h H1 H2 H3). unfold try_finally.
  match goal with |- context [body ?p ?s] =>
    specialize (Hbody p s); destruct (body p s) as (r & (w' & h')) end.
  simpl in Hbody. rewrite close_all.
  - cbn [fst snd]. rewrite Hbody.
    pose proof (@remove_all_opened [a1; b1; a2; b2; a3; b3] (fds h) Hnew) as E.
    simpl rev in E. simpl app in E. rewrite E. reflexivity.
  - assumption.
  - intros x Hx. simpl. rewrite Hbody. simpl in Hx. simpl. tauto.
Qed.

(** ** A turn of the loop of [execute_rsync] *)

Lemma sync_turn_run (loaded_at : float) (args : Namespace) (fuel : nat)
    (result : Z) (w : world) (h : host) :
  sync_turn loaded_at args fuel result (w, h) =
  match run_rsync_command loaded_at fuel
          (announced args w, vars_of (new_States loaded_at) loaded_at) with
  | (Ok (Some c), s) =>
      match repeats args with
      | Some seconds =>
          tbind (countdown seconds fuel)
            (fun finished =>
               if finished then treturn (Again c) else treturn Unfinished)
            (fst s, ran h)
      | None => (Done (Leave c), (fst s, ran h))
      end
  | (Ok None, s) =>
      if keyboard h (n_run h) then
        if interrupt h (n_sleep h) then
          (Raised KeyboardInterrupt, (fst s, advanced 0 1 (ran h)))
        else
          (Done (Leave 1%Z),
           (emit (Print "Program terminated with keyboard interrupt.  Exiting..." [])
              (fst s),
            advanced 0 1 (ran h)))
      else (Done Unfinished, (fst s, ran h))
  | (Raise e, s) => (Raised (Std e), (fst s, ran h))
  end.
Proof.
  unfold sync_turn, tbind at 1, tprint. simpl.
  unfold tbind at 1. simpl. unfold tbind at 1. simpl.
  unfold tbind at 1, try_except, tbind at 1, call_run, announced. simpl.
  destruct (run_rsync_command loaded_at fuel _) as ([[c|]|e] & s); simpl;
    try reflexivity.
  - destruct (repeats args); reflexivity.
  - destruct (keyboard h (n_run h)); [|reflexivity].
    unfold tbind, time_sleep, tprint. simpl.
    destruct (interrupt h (n_sleep h)); reflexivity.
Qed.

End SessionFacts.

Module ExecuteFacts.
Import SyncDownloadedFiles Process Session Hosts Frames FrameFacts DescriptorFacts
  CountdownFacts SessionFacts.
Local Open Scope nat_scope.

(** [countdown] when the sleep of its turn [k] is cut short. *)
Lemma countdown_raises (seconds : Z) (k fuel : nat) (w : world) (h : host) :
  let stop_time := (now h (n_now h) + seconds * 1000000)%Z in
  (Z.abs (seconds / 86400) <= 999999999)%Z ->
  (0 <= stop_time < datetime_end)%Z ->
  k < fuel ->
  (forall j, j <= k -> (now h (n_now h + 2 + 2 * j) < stop_time)%Z) ->
  (forall j, j < k -> interrupt h (n_sleep h + j) = false) ->
  interrupt h (n_sleep h + k) = true ->
  exists lines,
    length lines = k + 1 /\ signals lines = [] /\
    countdown seconds fuel (w, h)
    = (Raised (SystemExit 1),
       (printed (lines
                 ++ [ Print "Will repeat sync at: {:%H:%M:%S}" [VInt stop_time];
                      Print "Current time is:     {:%H:%M:%S}"
                            [VInt (now h (S (n_now h)))] ]) w,
        advanced (2 * k + 4) (S k) h)).
Proof.
  intros stop_time Hd Hr Hk Hlt Hint Hi.
  rewrite countdown_starts by assumption. fold stop_time.
  match goal with |- context [countdown_loop _ _ (?w1, ?h1)] =>
    destruct (@countdown_loop_interrupted stop_time k fuel w1 h1)
      as (lines & Hlen & Hsig & ->) end.
  - assumption.
  - intros j Hj. simpl. specialize (Hlt j Hj).
    match goal with |- (now _ ?i < _)%Z =>
      replace i with (n_now h + 2 + 2 * j) by lia end. exact Hlt.
  - intros j Hj. simpl. now apply Hint.
  - exact Hi.
  - exists lines. split; [now rewrite Nat.add_1_r|]. split; [assumption|].
    rewrite printed_printed, advanced_advanced.
    do 3 f_equal; lia.
Qed.

(** [execute_rsync] when the three calls of [pty.openpty()] succeed: the
    loop, and then the descriptors as they were. *)
Lemma execute_rsync_frame (loaded_at : float) (args : Namespace)
    (fuel runs : nat) (w : world) (h : host) (a1 b1 a2 b2 a3 b3 : nat) :
  openpty h (n_openpty h) = Some (a1, b1) ->
  openpty h (1 + n_openpty h) = Some (a2, b2) ->
  openpty h (2 + n_openpty h) = Some (a3, b3) ->
  NoDup [a1; b1; a2; b2; a3; b3] ->
  (forall x, In x [a1; b1; a2; b2; a3; b3] -> ~ In x (fds h)) ->
  let inside :=
    sync_loop loaded_at args fuel runs 0%Z
      (w, after_openpty 3 (b3 :: a3 :: b2 :: a2 :: b1 :: a1 :: fds h) h) in
  execute_rsync loaded_at args fuel runs (w, h)
  = (fst inside, (fst (snd inside), with_fds (fds h) (snd (snd inside)))).
Proof.
  intros H1 H2 H3 Hnd Hnew inside. subst inside. unfold execute_rsync.
  rewrite (@pty_open_frame _ (fun _ => sync_loop loaded_at args fuel runs 0%Z)
             w h a1 b1 a2 b2 a3 b3 H1 H2 H3 Hnd Hnew).
  - reflexivity.
  - intros _. apply keeps_fds_sync_loop.
Qed.

(** The first turn of the loop of [execute_rsync]. *)
Lemma sync_loop_first_run (loaded_at : float) (args : Namespace)
    (fuel runs : nat) (result : Z) (w : world) (h : host) :
  sync_loop loaded_at args fuel (S runs) result (w, h) =
  match run_rsync_command loaded_at fuel
          (announced args w, vars_of (new_States loaded_at) loaded_at) with
  | (Ok (Some c), s) =>
      match repeats args with
      | Some seconds =>
          match countdown seconds fuel (fst s, ran h) with
          | (Done true, s') => sync_loop loaded_at args fuel runs c s'
          | (Done false, s') => (Done None, s')
          | (Raised e, s') => (Raised e, s')
          end
      | None => (Done (Some c), (fst s, ran h))
      end
  | (Ok None, s) =>
      if keyboard h (n_run h) then
        if interrupt h (n_sleep h) then
          (Raised KeyboardInterrupt, (fst s, advanced 0 1 (ran h)))
        else
          (Done (Some 1%Z),
           (emit (Print "Program terminated with keyboard interrupt.  Exiting..." [])
              (fst s),
            advanced 0 1 (ran h)))
      else (Done None, (fst s, ran h))
  | (Raise e, s) => (Raised (Std e), (fst s, ran h))
  end.
Proof.
  simpl sync_loop. unfold tbind at 1. rewrite sync_turn_run.
  destruct (run_rsync_command loaded_at fuel _) as ([[c|]|e] & s);
    try reflexivity.
  - destruct (repeats args) as [seconds|]; [|reflexivity].
    unfold tbind. destruct (countdown seconds fuel _) as ([[|]|e] & s');
      reflexivity.
  - destruct (keyboard h (n_run h)); [|reflexivity].
    destruct (interrupt h (n_sleep h)); reflexivity.
Qed.

End ExecuteFacts.

(* ===================================================================== *)
(** * The loop *)
(* ===================================================================== *)

Module LoopTheorems.
Import SyncDownloadedFiles PolicyFacts Frames FrameFacts Turns TurnFacts QuietFacts.
Local Open Scope nat_scope.

#[local] Arguments fsub : simpl never.
#[local] Arguments fgt : simpl never.
#[local] Arguments while_true : simpl never.
#[local] Arguments watch_rsync_progress : simpl never.

(** X1.  The exit status [run_rsync_command] returns.  For every world:
    when the call returns, the value is the exit status that one of the
    polls made during the call found, and the one [process.returncode] now
    holds; and whatever the call raises, it is not the [RuntimeError] of its
    last line: that line is never reached with [None].  ([Ok None] is the
    model's answer when the loop is still running after [fuel] turns.) *)
Theorem run_rsync_command_exit_status
    (loaded_at : float) (fuel : nat) (w : world) (v : vars) :
  let result := run_rsync_command loaded_at fuel (w, v) in
  match fst result with
  | Ok (Some c) =>
      returncode (fst (snd result)) = Some c /\
      exists k, n_poll w <= k < n_poll (fst (snd result)) /\
                status w k = Some c
  | Ok None => True
  | Raise e => e <> RuntimeError "Unexpectedly got None for process.poll()"
  end.
Proof.
  intros result. subst result.
  rewrite run_rsync_command_loop.
  destruct (loops_while_true fuel (started loaded_at w))
    as ([_ _ Hpoll Hcode] & Herr).
  destruct (while_true fuel (started loaded_at w)) as ([[|]|e] & s') eqn:E;
    simpl in *.
  - apply while_true_left in E.
    unfold bind, process_poll.
    destruct (returncode (fst s')) as [c|] eqn:Hc; [|congruence]. simpl.
    split; [assumption|].
    destruct Hcode as [Hcode|(k & Hk & Hcode)]; [congruence|].
    exists k. split; [lia|]. congruence.
  - exact I.
  - intros ->. exact (Herr _ eq_refl).
Qed.

(** X2.  A turn of the loop in which [select] reports something to read:
    the turn does not leave the loop; it does not poll the child; it never
    calls [process.kill()]; and it calls [process.terminate()] once, after
    all the lines are processed, exactly when [watch_rsync_progress]
    returned [True] (otherwise it sends no signal at all, also when the
    parser raised). *)
Theorem ready_turn_signals (w : world) (v : vars) (d : fd) (ds : list fd) :
  ready w (n_select w) = d :: ds ->
  let result := loop_body (w, v) in
  let w' := fst (snd result) in
  fst result <> Ok Break /\
  n_poll w' = n_poll w /\ returncode w' = returncode w /\
  exists evs,
    trace w' = evs ++ trace w /\
    signals evs =
    match fst (watch_rsync_progress (d :: ds) (watching w v)) with
    | Ok true => [Terminate]
    | _ => []
    end.
Proof.
  intros Hr result w'. subst result w'. rewrite (@loop_body_ready w v d ds Hr).
  destruct (watches_watch_rsync_progress (d :: ds) (watching w v))
    as ([_ _ _ Hpoll Hcode _ (prints & Hp & Ht) _ _] & _).
  destruct (watch_rsync_progress _ _) as ([[|]|e] & (w1 & v1)); simpl in *.
  - split; [discriminate|]. split; [assumption|]. split; [assumption|].
    exists (Terminate :: Print "Killing process as rate too low" [] :: prints).
    rewrite Ht. simpl. now rewrite Hp.
  - split; [discriminate|]. split; [assumption|]. split; [assumption|].
    exists prints. auto.
  - split; [discriminate|]. split; [assumption|]. split; [assumption|].
    exists prints. auto.
Qed.

(** Two samples at 1 KB/s in one chunk, 100 seconds after the last
    acceptable rate: the turn prints and terminates the child once. *)
Lemma ready_turn_signals_witness :
  let w := two_low_samples 100 in
  exists evs,
    trace (fst (snd (loop_body (w, fresh_vars 0)))) = evs ++ trace w /\
    signals evs = [Terminate].
Proof.
  intros w.
  destruct (@ready_turn_signals w (fresh_vars 0) m_out [] eq_refl)
    as (_ & _ & _ & evs & Ht & Hs).
  exists evs. split; [exact Ht|]. rewrite Hs. vm_compute. reflexivity.
Defined.

(** X3.  As long as every [select] finds something to read,
    [run_rsync_command] does not return an exit status, however many turns
    it is given, and it never polls the child: the end of the child is only
    noticed on a turn with nothing to read. *)
Theorem no_exit_while_output_is_ready
    (loaded_at : float) (fuel : nat) (w : world) (v : vars) :
  (forall k, n_select w <= k -> ready w k <> []) ->
  let result := run_rsync_command loaded_at fuel (w, v) in
  (forall c, fst result <> Ok (Some c)) /\
  n_poll (fst (snd result)) = n_poll w.
Proof.
  intros H result. subst result.
  rewrite run_rsync_command_loop. unfold started.
  match goal with |- context [while_true fuel (?w0, ?v0)] =>
    destruct (@while_true_ready fuel w0 v0 H) as (H1 & H2 & H3);
    destruct (while_true fuel (w0, v0)) as ([[|]|e] & s') end; simpl in *.
  - congruence.
  - split; [discriminate|congruence].
  - split; [discriminate|congruence].
Qed.

(** A child that writes a file name at every turn, and 25 turns. *)
Lemma no_exit_while_output_is_ready_witness :
  n_poll (fst (snd (run_rsync_command (Finite 0) 25
                      (chatty_world 0 (txt "file.bin"), fresh_vars 0))))
  = 0.
Proof.
  apply (@no_exit_while_output_is_ready (Finite 0) 25
           (chatty_world 0 (txt "file.bin")) (fresh_vars 0)).
  intros k _. discriminate.
Defined.

(** X4.  [run_rsync_command] returns when the child has exited and is
    silent.  Let [select] find nothing to read for [n + 1] turns, and let
    the child be found running at the first [n] polls and exited with status
    [c] at the next.  Then, given more than [n] turns, the call returns [c];
    it has polled [n + 1] times and read no descriptor. *)
Theorem run_rsync_command_returns
    (loaded_at : float) (n fuel : nat) (w : world) (v : vars) (c : Z) :
  n < fuel ->
  (forall k, k <= n -> ready w (n_select w + k) = []) ->
  (forall k, k < n -> status w (n_poll w + k) = None) ->
  status w (n_poll w + n) = Some c ->
  let result := run_rsync_command loaded_at fuel (w, v) in
  fst result = Ok (Some c) /\
  n_poll (fst (snd result)) = n_poll w + n + 1 /\
  n_read (fst (snd result)) = n_read w.
Proof.
  intros Hf Hr Hs Hx result. subst result.
  rewrite run_rsync_command_loop. unfold started.
  match goal with |- context [while_true fuel (?w0, ?v0)] =>
    destruct (@while_true_quiet n fuel w0 v0 c Hf eq_refl Hr Hs Hx)
      as (s' & -> & R1 & R2 & _ & R4) end.
  unfold bind, process_poll. rewrite R1. simpl in *. auto.
Qed.

(** The child runs for three silent turns and is then found to have exited
    with status 23. *)
Lemma run_rsync_command_returns_witness :
  fst (run_rsync_command (Finite 0) 10
         (world_of (fun _ => 0%Q) (fun _ => []) (fun _ _ => [])
                   (fun k => if Nat.ltb k 3 then None else Some 23%Z),
          fresh_vars 0))
  = Ok (Some 23%Z).
Proof.
  apply (@run_rsync_command_returns (Finite 0) 3 10).
  - lia.
  - intros k _. reflexivity.
  - intros k Hk. simpl. destruct (Nat.ltb_spec k 3); [reflexivity|lia].
  - reflexivity.
Defined.

End LoopTheorems.

(* ===================================================================== *)
(** * Watching *)
(* ===================================================================== *)

Module WatchTheorems.
Import SyncDownloadedFiles PolicyFacts Frames FrameFacts Turns TurnFacts WatchFacts.
Local Open Scope nat_scope.
Local Open Scope char_scope.

#[local] Arguments fsub : simpl never.
#[local] Arguments fgt : simpl never.

(** X5.  [watch_rsync_progress] only watches.  Whatever the descriptors
    deliver, and whether it returns or raises: everything it adds to the
    trace is a call of [print] (it sends no signal itself), it neither polls
    the child nor calls [select], and it leaves [last_activity] alone.  When
    it returns it has read every descriptor of [active_fds] exactly once;
    when it raises, which is with a [ValueError] or an [OverflowError], it
    has read at least one and at most all of them. *)
Theorem watch_rsync_progress_only_watches (fds : list fd) (w : world) (v : vars) :
  let result := watch_rsync_progress fds (w, v) in
  let w' := fst (snd result) in
  (exists prints, signals prints = [] /\ trace w' = prints ++ trace w) /\
  n_select w' = n_select w /\ n_poll w' = n_poll w /\
  returncode w' = returncode w /\
  last_activity (snd (snd result)) = last_activity v /\
  match fst result with
  | Ok _ => n_read w' = n_read w + length fds
  | Raise e =>
      n_read w < n_read w' <= n_read w + length fds /\
      exists msg, e = ValueError msg \/ e = OverflowError msg
  end.
Proof.
  intros result w'. subst result w'.
  destruct (watches_watch_rsync_progress fds (w, v))
    as ([_ Hsel _ Hpoll Hcode _ Htrace Hact _] & Herr).
  pose proof (for_each_watch_fd_reads fds false (w, v)) as Hreads.
  unfold watch_rsync_progress in *. simpl in *.
  repeat (split; [assumption|]).
  destruct (fst (for_each fds watch_fd false (w, v))) as [b|e].
  - assumption.
  - split; [assumption|]. apply parser_error_cases. now apply Herr.
Qed.

(** X6.  After [watch_rsync_progress], [states.last_acceptable_rate_time]
    is what it was before the call or it is one of the readings of the clock
    taken during the call: nothing else is ever stored there. *)
Theorem last_acceptable_rate_time_is_a_reading
    (fds : list fd) (w : world) (v : vars) :
  let result := watch_rsync_progress fds (w, v) in
  let t' := last_acceptable_rate_time (states (snd (snd result))) in
  t' = last_acceptable_rate_time (states v) \/
  exists k, n_clock w <= k < n_clock (fst (snd result)) /\
            t' = Finite (clock w k).
Proof.
  intros result t'. subst result t'.
  destruct (watches_watch_rsync_progress fds (w, v)) as ([_ _ _ _ _ _ _ _ H] & _).
  exact H.
Qed.

(** X7.  [should_terminate] is only ever set.  If the descriptors [fds]
    make [watch_rsync_progress] return [True], then with more descriptors
    after them it still returns [True], unless it raises; and the lines that
    follow in a chunk, once the flag is set, cannot clear it either. *)
Theorem should_terminate_stays_set
    (fds more : list fd) (lines : list str) (s : world * vars) :
  fst (watch_rsync_progress fds s) = Ok true ->
  match fst (watch_rsync_progress (fds ++ more) s) with
  | Ok b => b = true
  | Raise _ => True
  end /\
  match fst (for_each lines watch_line true s) with
  | Ok b => b = true
  | Raise _ => True
  end.
Proof.
  intros H. split.
  - unfold watch_rsync_progress in *. rewrite for_each_app. unfold bind.
    destruct (for_each fds watch_fd false s) as ([b|e] & s1); simpl in *.
    + injection H as ->.
      pose proof (@stays_set_for_each fd more watch_fd stays_set_watch_fd s1) as Hs.
      destruct (fst (for_each more watch_fd true s1)); auto.
    + discriminate.
  - pose proof (@stays_set_for_each str lines watch_line stays_set_watch_line s)
      as Hs.
    destruct (fst (for_each lines watch_line true s)); auto.
Qed.

(** Two samples at 1 KB/s in one chunk, 100 seconds after the last
    acceptable rate; then the same chunk on the other descriptor. *)
Lemma should_terminate_stays_set_witness :
  fst (watch_rsync_progress [m_out] (two_low_samples 100, fresh_vars 0))
  = Ok true /\
  match fst (watch_rsync_progress ([m_out] ++ [m_err])
               (two_low_samples 100, fresh_vars 0)) with
  | Ok b => b = true
  | Raise _ => True
  end.
Proof.
  split; [vm_compute; reflexivity|].
  apply (@should_terminate_stays_set [m_out] [m_err] []
           (two_low_samples 100, fresh_vars 0)).
  vm_compute. reflexivity.
Defined.

(** X8.  Lines that are no progress lines do not break a streak.  Take a
    first low sample when the streak is clear, then any number of lines
    without a [%] (file names, messages), then a second low sample: the
    decision is the staleness test, made with the second reading of the
    clock taken for the second sample, as if the two samples had followed
    each other. *)
Theorem streak_survives_other_lines
    (first second : str) (others : list str) (p1 p2 : RsyncProgressStatus)
    (w : world) (v : vars) :
  (forall s : world * vars, parse_progress_line first s = (Ok (Some p1), s)) ->
  (forall s : world * vars, parse_progress_line second s = (Ok (Some p2), s)) ->
  Forall (fun line => ~ In "%" line) others ->
  (transfer_rate p1 <= TRANSFER_RATE_MIN)%Z ->
  (transfer_rate p2 <= TRANSFER_RATE_MIN)%Z ->
  low_xfer_rate (states v) = false ->
  fst (for_each (first :: others ++ [second]) watch_line false (w, v))
  = Ok (fgt (fsub (reading w 1) (last_acceptable_rate_time (states v)))
            RATE_LOW_TIMEOUT).
Proof.
  intros H1 H2 Ho L1 L2 Hv. simpl for_each. unfold bind at 1.
  destruct (@watch_line_sample false first p1 w v H1) as (e1 & S1 & ->).
  rewrite check_transfer_rate_first_low by assumption.
  rewrite for_each_app. unfold bind at 1.
  match goal with |- context [for_each others watch_line false (?w1, ?v1)] =>
    destruct (@watch_other_lines others false w1 v1 Ho)
      as (e2 & v2 & S2 & -> & Hl & Ha) end.
  simpl in Hl, Ha. simpl for_each. unfold bind at 1.
  match goal with |- context [watch_line false second (?w2, _)] =>
    destruct (@watch_line_sample false second p2 w2 v2 H2) as (e3 & S3 & ->) end.
  pose proof (@check_transfer_rate_second_low p2 false
                (printed e3 (printed e2 (printed e1 w))) v2 L2 Hl) as E.
  rewrite !reading_printed, Ha in E.
  destruct (check_transfer_rate p2 false _) as ([b|e] & s'); simpl in *.
  - injection E as ->. destruct (fgt _ _); reflexivity.
  - discriminate.
Qed.

(** Two samples at 1 KB/s with a file name between them, 100 seconds after
    the last acceptable rate. *)
Lemma streak_survives_other_lines_witness :
  fst (for_each [txt "1 1% 1.0KB/s 0:00:01"; txt "file.bin";
                 txt "2 2% 1.0KB/s 0:00:01"]
         watch_line false (quiet_world 100, fresh_vars 0))
  = Ok true.
Proof.
  refine (@streak_survives_other_lines
            (txt "1 1% 1.0KB/s 0:00:01") (txt "2 2% 1.0KB/s 0:00:01")
            [txt "file.bin"]
            {| bytes_transferred := 1; percent_transferred := Finite 1;
               transfer_rate := 1024; eta := txt "0:00:01" |}
            {| bytes_transferred := 2; percent_transferred := Finite 2;
               transfer_rate := 1024; eta := txt "0:00:01" |}
            (quiet_world 100) (fresh_vars 0) _ _ _ _ _ _).
  - intros s. vm_compute. reflexivity.
  - intros s. vm_compute. reflexivity.
  - constructor; [|constructor]. simpl. intuition discriminate.
  - vm_compute. discriminate.
  - vm_compute. discriminate.
  - reflexivity.
Defined.

(** X9.  It takes two low samples in a row.  After a sample above the floor
    of 100000 B/s, the next sample never sets [should_terminate], whatever
    its rate and however late it comes. *)
Theorem acceptable_sample_clears_streak
    (p1 p2 : RsyncProgressStatus) (b1 b2 : bool) (w : world) (v : vars) :
  (transfer_rate p1 > TRANSFER_RATE_MIN)%Z ->
  fst (check_transfer_rate p2 b2 (snd (check_transfer_rate p1 b1 (w, v))))
  = Ok b2.
Proof.
  intros H1. rewrite check_transfer_rate_high by assumption. simpl.
  destruct (Z_le_gt_dec (transfer_rate p2) TRANSFER_RATE_MIN) as [H2|H2].
  - now rewrite check_transfer_rate_first_low.
  - now rewrite check_transfer_rate_high.
Qed.

(** A sample at 200000 B/s, then one at 5 B/s an hour after the last
    acceptable rate. *)
Lemma acceptable_sample_clears_streak_witness :
  let high := {| bytes_transferred := 1; percent_transferred := Finite 1;
                 transfer_rate := 200000; eta := txt "0:00:01" |} in
  let low := {| bytes_transferred := 2; percent_transferred := Finite 2;
                transfer_rate := 5; eta := txt "0:00:01" |} in
  fst (check_transfer_rate low false
         (snd (check_transfer_rate high false
                 (quiet_world 3600, fresh_vars 0))))
  = Ok false.
Proof.
  intros high low.
  apply (@acceptable_sample_clears_streak high low false false
           (quiet_world 3600) (fresh_vars 0)).
  vm_compute. reflexivity.
Defined.

(** X10.  The low-rate timer of a run starts when the module was loaded.
    [run_rsync_command] begins with [States()], whose
    [last_acceptable_rate_time] is the clock at the time the class was
    defined, [loaded_at].  So when the loop of a run starts (in the state
    [started loaded_at w]) and the first two samples are low, the second
    sets [should_terminate] exactly when the clock is more than 30 seconds
    past [loaded_at]: the time at which the run began plays no part. *)
Theorem first_samples_are_timed_from_load
    (loaded_at : float) (p1 p2 : RsyncProgressStatus) (w : world) :
  (transfer_rate p1 <= TRANSFER_RATE_MIN)%Z ->
  (transfer_rate p2 <= TRANSFER_RATE_MIN)%Z ->
  let s0 := started loaded_at w in
  fst (check_transfer_rate p2 false (snd (check_transfer_rate p1 false s0)))
  = Ok (fgt (fsub (reading (fst s0) 1) loaded_at) RATE_LOW_TIMEOUT).
Proof.
  intros H1 H2 s0. subst s0. unfold started.
  rewrite check_transfer_rate_first_low by (assumption || reflexivity).
  cbn [snd]. rewrite check_transfer_rate_second_low by (assumption || reflexivity).
  cbn [states last_acceptable_rate_time after_first_low with_states new_States].
  destruct (fgt _ _); reflexivity.
Qed.

(** The module was loaded at time 0; a run begins at time 1000 and meets
    two low samples at once. *)
Lemma first_samples_are_timed_from_load_witness :
  let low := {| bytes_transferred := 2; percent_transferred := Finite 2;
                transfer_rate := 5; eta := txt "0:00:01" |} in
  fst (check_transfer_rate low false
         (snd (check_transfer_rate low false
                 (started (Finite 0) (quiet_world 1000)))))
  = Ok true.
Proof.
  intros low.
  apply (@first_samples_are_timed_from_load (Finite 0) low low
           (quiet_world 1000)); vm_compute; discriminate.
Defined.

(** X11.  A chunk of nothing but whitespace, or of no bytes at all, changes
    nothing: [watch_fd] returns [should_terminate] as it was, prints nothing
    and leaves the [States] alone; only the read is counted. *)
Theorem blank_chunk_changes_nothing (b : bool) (d : fd) (w : world) (v : vars) :
  Forall (fun c => is_space c = true) (chunk w (n_read w) d) ->
  watch_fd b d (w, v) = (Ok b, (tick_read w, v)).
Proof.
  intros H. unfold watch_fd, bind, os_read. simpl.
  destruct (chunk w (n_read w) d) as [|c data] eqn:E; [reflexivity|].
  rewrite (strip_all_space H). reflexivity.
Qed.

Lemma blank_chunk_changes_nothing_witness :
  let w := chatty_world 0 [" "; LF; CR; " "] in
  watch_fd true m_out (w, fresh_vars 0) = (Ok true, (tick_read w, fresh_vars 0)).
Proof.
  intros w.
  apply (@blank_chunk_changes_nothing true m_out w (fresh_vars 0)).
  repeat constructor.
Defined.

End WatchTheorems.

(* ===================================================================== *)
(** * Rates *)
(* ===================================================================== *)

Module RateExtras.
Import SyncDownloadedFiles RateFacts RateTheorems SignFacts.
Local Open Scope char_scope.

(** X12.  The rate is never negative.  Whatever the text, when [parse_rate]
    returns, it returns zero or more: the pattern has no sign, the float
    of the digits is not negative, and neither the products by 1024 nor the
    truncation change that. *)
Theorem parse_rate_is_not_negative (V : Type) (rate_string : str) (s : world * V) :
  match fst (parse_rate rate_string s) with
  | Ok rate => (0 <= rate)%Z
  | Raise _ => True
  end.
Proof.
  unfold parse_rate. destruct (search rate_pattern rate_string) as [g|].
  - unfold bind, lift. destruct (py_float (group_text "val" g)) as [val|e] eqn:E;
      [|exact I].
    apply py_float_not_negative in E.
    destruct (str_eqb _ _); simpl.
    + destruct (int_of_float _) as [z|e] eqn:Ez; simpl; [|exact I].
      eapply int_of_float_not_negative; [|exact Ez].
      now apply fmul_1024_not_negative.
    + destruct (str_eqb _ _); simpl; [|exact I].
      destruct (int_of_float _) as [z|e] eqn:Ez; simpl; [|exact I].
      eapply int_of_float_not_negative; [|exact Ez].
      now do 2 apply fmul_1024_not_negative.
  - simpl. lia.
Qed.

(** X13.  The case of the unit does not matter.  Two tokens with the same
    digits and points, whose units are letters and differ only in the case
    of the letters, are parsed alike: the same rate or the same exception,
    whether or not the unit is one [parse_rate] knows. *)
Theorem parse_rate_ignores_case
    (V : Type) (dec unit1 unit2 : str) (s : world * V) :
  dec <> [] -> all_in decimal_chars dec ->
  unit1 <> [] -> all_in letters unit1 ->
  unit2 <> [] -> all_in letters unit2 ->
  upper unit1 = upper unit2 ->
  parse_rate (dec ++ unit1 ++ txt "/s") s
  = parse_rate (dec ++ unit2 ++ txt "/s") s.
Proof.
  intros Hd Hd' H1 H1' H2 H2' Hu.
  destruct (decimal_value dec) as [q|] eqn:Hq.
  - rewrite !parse_rate_token with (q := q) by assumption. now rewrite Hu.
  - now rewrite !parse_rate_not_decimal.
Qed.

Lemma parse_rate_ignores_case_witness :
  parse_rate (txt "36.65" ++ txt "mb" ++ txt "/s") (quiet_world 0, tt)
  = parse_rate (txt "36.65" ++ txt "Mb" ++ txt "/s") (quiet_world 0, tt).
Proof.
  apply (@parse_rate_ignores_case unit (txt "36.65") (txt "mb") (txt "Mb")
           (quiet_world 0, tt)).
  - discriminate.
  - repeat constructor.
  - discriminate.
  - repeat constructor.
  - discriminate.
  - repeat constructor.
  - reflexivity.
Defined.

End RateExtras.

(* ===================================================================== *)
(** * The session *)
(* ===================================================================== *)

Module SessionTheorems.
Import SyncDownloadedFiles Process Session Hosts Frames FrameFacts DescriptorFacts
  CountdownFacts SessionFacts ExecuteFacts.
Local Open Scope nat_scope.

(** X14.  [pty_open] closes what it opened.  Let the three calls of
    [pty.openpty()] answer six descriptors, all different and none of them
    open before, and let the body of the [with] leave the table of open
    descriptors as it finds it.  Then, whether the body returns or raises,
    the [with] statement comes to what the body came to, with the world the
    body left, and the descriptors open afterwards are exactly those that
    were open before. *)
Theorem pty_open_closes_what_it_opened
    (A : Type) (body : Ptys -> T A) (w : world) (h : host)
    (a1 b1 a2 b2 a3 b3 : nat) :
  openpty h (n_openpty h) = Some (a1, b1) ->
  openpty h (1 + n_openpty h) = Some (a2, b2) ->
  openpty h (2 + n_openpty h) = Some (a3, b3) ->
  NoDup [a1; b1; a2; b2; a3; b3] ->
  (forall x, In x [a1; b1; a2; b2; a3; b3] -> ~ In x (fds h)) ->
  (forall ptys s, fds (snd (snd (body ptys s))) = fds (snd s)) ->
  let inside :=
    body {| m_out := a1; s_out := b1; m_err := a2; s_err := b2;
            m_in := a3; s_in := b3 |}
         (w, after_openpty 3 (b3 :: a3 :: b2 :: a2 :: b1 :: a1 :: fds h) h) in
  let outside := pty_open body (w, h) in
  fst outside = fst inside /\
  fst (snd outside) = fst (snd inside) /\
  fds (snd (snd outside)) = fds h.
Proof.
  intros H1 H2 H3 Hnd Hnew Hbody inside outside. subst inside outside.
  rewrite (pty_open_frame body w h H1 H2 H3 Hnd Hnew Hbody).
  repeat split.
Qed.

(** A body that raises, on a host with descriptors 0, 1 and 2 open. *)
Lemma pty_open_closes_what_it_opened_witness :
  let outside :=
    pty_open (fun _ => traise CalledProcessError : T unit)
             (quiet_world 0, calm_host) in
  fst outside = Raised CalledProcessError /\
  fds (snd (snd outside)) = [0; 1; 2].
Proof.
  intros outside.
  destruct (@pty_open_closes_what_it_opened unit
              (fun _ => traise CalledProcessError) (quiet_world 0) calm_host
              3 4 5 6 7 8 eq_refl eq_refl eq_refl)
    as (H1 & _ & H3).
  - repeat constructor; simpl; intuition discriminate.
  - simpl. intros x Hx Hin.
    repeat (destruct Hx as [<-|Hx]; [intuition discriminate|]). exact Hx.
  - intros ptys s. reflexivity.
  - split; [exact H1|exact H3].
Defined.

(** X15.  [pty_open] does not close what it opened when a later
    [pty.openpty()] fails.  The three calls are made before the [try]: if
    the first succeeds and the second fails, the [OSError] leaves the
    [with] statement, its body never runs, and the two descriptors of the
    first pair stay open; if the third fails, the four of the first two
    pairs stay open. *)
Theorem pty_open_leaks_when_openpty_fails
    (A : Type) (body : Ptys -> T A) (w : world) (h : host) (a1 b1 : nat) :
  openpty h (n_openpty h) = Some (a1, b1) ->
  let outside := pty_open body (w, h) in
  (openpty h (1 + n_openpty h) = None ->
   fst outside = Raised (OSError "openpty") /\
   fst (snd outside) = w /\
   fds (snd (snd outside)) = b1 :: a1 :: fds h) /\
  (forall a2 b2,
      openpty h (1 + n_openpty h) = Some (a2, b2) ->
      openpty h (2 + n_openpty h) = None ->
      fst outside = Raised (OSError "openpty") /\
      fst (snd outside) = w /\
      fds (snd (snd outside)) = b2 :: a2 :: b1 :: a1 :: fds h).
Proof.
  intros H1 outside. subst outside. split.
  - intros H2. simpl in H2.
    unfold pty_open, tbind, pty_openpty. simpl. rewrite H1. simpl.
    rewrite H2. simpl. auto.
  - intros a2 b2 H2 H3. simpl in H2, H3.
    unfold pty_open, tbind, pty_openpty. simpl. rewrite H1. simpl.
    rewrite H2. simpl. rewrite H3. simpl. auto.
Qed.

Lemma pty_open_leaks_when_openpty_fails_witness :
  let outside :=
    pty_open (fun _ => treturn tt) (quiet_world 0, short_host) in
  fst outside = Raised (OSError "openpty") /\
  fds (snd (snd outside)) = [4; 3; 0; 1; 2].
Proof.
  intros outside.
  destruct (proj1 (@pty_open_leaks_when_openpty_fails unit
                     (fun _ => treturn tt) (quiet_world 0) short_host 3 4
                     eq_refl) eq_refl)
    as (H1 & _ & H3).
  split; [exact H1|exact H3].
Defined.

(** X16.  What a turn of the countdown shows.  Each turn reads the clock
    once and writes one line with three numbers, whether or not its sleep
    is then cut short: hours below 24, minutes and seconds below 60, which
    together are the whole seconds left until [stop_time], modulo one day
    (so the days of a longer wait are not shown, and a time already past
    shows as a time just under 24 hours). *)
Theorem countdown_shows_seconds_left (stop_time : Z) (w : world) (h : host) :
  let remaining := (stop_time - now h (n_now h))%Z in
  exists hours minutes seconds : Z,
    trace (fst (snd (countdown_tick stop_time (w, h))))
    = Print "\rTime remaining: {:02d}:{:02d}:{:02d}"
            [VInt hours; VInt minutes; VInt seconds] :: trace w /\
    (0 <= hours < 24)%Z /\ (0 <= minutes < 60)%Z /\ (0 <= seconds < 60)%Z /\
    (hours * 3600 + minutes * 60 + seconds
     = (remaining / 1000000) mod 86400)%Z.
Proof.
  intros remaining.
  exists (fst (fst (time_fields remaining))), (snd (fst (time_fields remaining))),
         (snd (time_fields remaining)).
  split.
  - destruct (interrupt h (n_sleep h)) eqn:E.
    + now rewrite countdown_tick_interrupted.
    + now rewrite countdown_tick_sleeps.
  - unfold time_fields, timedelta_seconds, microsecond. simpl fst. simpl snd.
    assert (E : ((remaining mod 86400000000) / 1000000
                 = (remaining / 1000000) mod 86400)%Z).
    { change 86400000000%Z with (1000000 * 86400)%Z.
      rewrite Z.rem_mul_r by lia.
      rewrite (Z.mul_comm 1000000 ((remaining / 1000000) mod 86400)).
      rewrite Z.div_add by lia.
      rewrite Z.div_small by (apply Z.mod_pos_bound; lia). lia. }
    rewrite E.
    set (s := ((remaining / 1000000) mod 86400)%Z).
    assert (Hs : (0 <= s < 86400)%Z) by (apply Z.mod_pos_bound; lia).
    clearbody s. clear E.
    pose proof (Z.div_mod s 60 ltac:(lia)) as D1.
    pose proof (Z.mod_pos_bound s 60 ltac:(lia)) as B1.
    pose proof (Z.div_mod (s / 60) 60 ltac:(lia)) as D2.
    pose proof (Z.mod_pos_bound (s / 60) 60 ltac:(lia)) as B2.
    assert (D3 : (s / 3600 = s / 60 / 60)%Z) by (rewrite Z.div_div by lia; reflexivity).
    rewrite D3.
    assert (0 <= s / 60 / 60 < 24)%Z.
    { split; [apply Z.div_pos; [apply Z.div_pos|]; lia|].
      apply Z.div_lt_upper_bound; [lia|].
      apply Z.div_lt_upper_bound; lia. }
    lia.
Qed.

(** X17.  [countdown] returns when the clock says so.  Let the wait be
    representable ([seconds] within a thousand million days, the time to
    stop before the year 10000).  If the readings of the clock at the tests
    of the loop are before [stop_time] for [k] turns and not at the next,
    and no sleep is cut short, then [countdown] returns (given more than
    [k] turns), having read the clock [2k + 3] times, slept [k] times and
    written [k] lines between its two opening lines and its last, empty
    one. *)
Theorem countdown_returns
    (seconds : Z) (k fuel : nat) (w : world) (h : host) :
  let stop_time := (now h (n_now h) + seconds * 1000000)%Z in
  (Z.abs (seconds / 86400) <= 999999999)%Z ->
  (0 <= stop_time < datetime_end)%Z ->
  k < fuel ->
  (forall j, j < k -> (now h (n_now h + 2 + 2 * j) < stop_time)%Z) ->
  (stop_time <= now h (n_now h + 2 + 2 * k))%Z ->
  (forall j, j < k -> interrupt h (n_sleep h + j) = false) ->
  let out := countdown seconds fuel (w, h) in
  fst out = Done true /\
  n_now (snd (snd out)) = n_now h + 2 * k + 3 /\
  n_sleep (snd (snd out)) = n_sleep h + k /\
  exists lines,
    length lines = k /\ signals lines = [] /\
    trace (fst (snd out))
    = Print EmptyString [] :: lines
      ++ [ Print "Will repeat sync at: {:%H:%M:%S}" [VInt stop_time];
           Print "Current time is:     {:%H:%M:%S}"
                 [VInt (now h (S (n_now h)))] ]
      ++ trace w.
Proof.
  intros stop_time Hd Hr Hk Hlt Hge Hint out. subst out.
  rewrite countdown_starts by assumption. fold stop_time.
  match goal with |- context [countdown_loop _ _ (?w1, ?h1)] =>
    destruct (@countdown_loop_finishes stop_time k fuel w1 h1)
      as (lines & Hlen & Hsig & ->) end.
  - assumption.
  - intros j Hj. simpl. specialize (Hlt j Hj).
    match goal with |- (now _ ?i < _)%Z =>
      replace i with (n_now h + 2 + 2 * j) by lia end. exact Hlt.
  - simpl n_now.
    match goal with |- (_ <= now _ ?i)%Z =>
      replace i with (n_now h + 2 + 2 * k) by lia end. exact Hge.
  - intros j Hj. simpl. now apply Hint.
  - simpl. repeat split; try lia. exists lines. repeat split; auto.
Qed.

(** Three seconds, on a clock that moves by one second between two
    readings: at the first test one second is left, at the second none. *)
Lemma countdown_returns_witness :
  fst (countdown 3 5 (quiet_world 0, calm_host)) = Done true /\
  n_sleep (snd (snd (countdown 3 5 (quiet_world 0, calm_host)))) = 1.
Proof.
  destruct (@countdown_returns 3 1 5 (quiet_world 0) calm_host)
    as (H1 & _ & H3 & _).
  - vm_compute. discriminate.
  - vm_compute. split; [discriminate|reflexivity].
  - lia.
  - intros j Hj. assert (j = 0) as -> by lia. vm_compute. reflexivity.
  - vm_compute. discriminate.
  - intros j Hj. reflexivity.
  - split; [exact H1|exact H3].
Defined.

(** X18.  No wait for a time that is not positive.  With [seconds] zero or
    negative (and representable), on a clock that does not run backwards
    between the first reading and the first test, [countdown] writes its two
    opening lines and the empty one and returns at once: no line of time
    remaining, no sleep. *)
Theorem countdown_of_nothing (seconds : Z) (fuel : nat) (w : world) (h : host) :
  let stop_time := (now h (n_now h) + seconds * 1000000)%Z in
  (seconds <= 0)%Z ->
  (Z.abs (seconds / 86400) <= 999999999)%Z ->
  (0 <= stop_time < datetime_end)%Z ->
  (now h (n_now h) <= now h (n_now h + 2))%Z ->
  0 < fuel ->
  countdown seconds fuel (w, h)
  = (Done true,
     (emit (Print EmptyString [])
        (emit (Print "Will repeat sync at: {:%H:%M:%S}" [VInt stop_time])
           (emit (Print "Current time is:     {:%H:%M:%S}"
                        [VInt (now h (S (n_now h)))]) w)),
      advanced 3 0 h)).
Proof.
  intros stop_time Hs Hd Hr Hmono Hf.
  rewrite countdown_starts by assumption. fold stop_time.
  match goal with |- context [countdown_loop _ _ (?w1, ?h1)] =>
    destruct (@countdown_loop_finishes stop_time 0 fuel w1 h1)
      as (lines & Hlen & Hsig & ->) end.
  - assumption.
  - intros j Hj. lia.
  - simpl n_now.
    match goal with |- (_ <= now _ ?i)%Z =>
      replace i with (n_now h + 2) by lia end.
    subst stop_time. simpl now. lia.
  - intros j Hj. lia.
  - destruct lines; [|discriminate]. reflexivity.
Qed.

Lemma countdown_of_nothing_witness :
  n_sleep (snd (snd (countdown (-5) 1 (quiet_world 0, calm_host)))) = 0 /\
  length (trace (fst (snd (countdown (-5) 1 (quiet_world 0, calm_host))))) = 3.
Proof.
  rewrite (@countdown_of_nothing (-5) 1 (quiet_world 0) calm_host).
  - split; reflexivity.
  - lia.
  - vm_compute. discriminate.
  - vm_compute. split; [discriminate|reflexivity].
  - vm_compute. discriminate.
  - lia.
Defined.

(** X19.  The keyboard during the countdown.  If the sleep of a turn of the
    countdown is cut short by a [KeyboardInterrupt], after [k] turns that
    slept through, [countdown] raises [SystemExit(1)]: it has written the
    line of that turn, and no closing empty line. *)
Theorem countdown_interrupted
    (seconds : Z) (k fuel : nat) (w : world) (h : host) :
  let stop_time := (now h (n_now h) + seconds * 1000000)%Z in
  (Z.abs (seconds / 86400) <= 999999999)%Z ->
  (0 <= stop_time < datetime_end)%Z ->
  k < fuel ->
  (forall j, j <= k -> (now h (n_now h + 2 + 2 * j) < stop_time)%Z) ->
  (forall j, j < k -> interrupt h (n_sleep h + j) = false) ->
  interrupt h (n_sleep h + k) = true ->
  let out := countdown seconds fuel (w, h) in
  fst out = Raised (SystemExit 1) /\
  n_sleep (snd (snd out)) = n_sleep h + k + 1 /\
  exists lines,
    length lines = k + 1 /\ signals lines = [] /\
    trace (fst (snd out))
    = lines
      ++ [ Print "Will repeat sync at: {:%H:%M:%S}" [VInt stop_time];
           Print "Current time is:     {:%H:%M:%S}"
                 [VInt (now h (S (n_now h)))] ]
      ++ trace w.
Proof.
  intros stop_time Hd Hr Hk Hlt Hint Hi out. subst out.
  rewrite countdown_starts by assumption. fold stop_time.
  match goal with |- context [countdown_loop _ _ (?w1, ?h1)] =>
    destruct (@countdown_loop_interrupted stop_time k fuel w1 h1)
      as (lines & Hlen & Hsig & ->) end.
  - assumption.
  - intros j Hj. simpl. specialize (Hlt j Hj).
    match goal with |- (now _ ?i < _)%Z =>
      replace i with (n_now h + 2 + 2 * j) by lia end. exact Hlt.
  - intros j Hj. simpl. now apply Hint.
  - exact Hi.
  - simpl. repeat split; try lia. exists lines. repeat split; auto; try lia.
Qed.

Lemma countdown_interrupted_witness :
  fst (countdown 3600 5 (quiet_world 0, interrupted_host))
  = Raised (SystemExit 1).
Proof.
  apply (@countdown_interrupted 3600 0 5 (quiet_world 0) interrupted_host).
  - vm_compute. discriminate.
  - vm_compute. split; [discriminate|reflexivity].
  - lia.
  - intros j Hj. assert (j = 0) as -> by lia. vm_compute. reflexivity.
  - intros j Hj. lia.
  - reflexivity.
Defined.

End SessionTheorems.

Module ExecuteTheorems.
Import SyncDownloadedFiles Process Session Hosts Frames FrameFacts DescriptorFacts
  CountdownFacts SessionFacts ExecuteFacts.
Local Open Scope nat_scope.
Local Open Scope char_scope.

(** X20.  The command line.  Whatever the arguments, [execute_rsync] runs
    [rsync] with [--progress] (the lines the watching code parses), and the
    command line ends with [--exclude *.part], the source
    [server:server_path] and the destination, in this order, after between
    ten and fifteen options.  Neither [--no-exclude] nor the repeat time
    changes it: the exclusion of [*.part] is there with or without the
    flag. *)
Theorem cmd_list_frame (args : Namespace) :
  (exists options,
      cmd_list args
      = txt "rsync" :: options
        ++ [ txt "--exclude"; txt "*.part";
             server args ++ ":" :: server_path args; dest_dir args ] /\
      In (txt "--progress") options /\
      10 <= length options <= 15) /\
  forall (repeat : option Z) (flag : bool),
    cmd_list {| repeat_time := repeat; bwlimit := bwlimit args;
                exclude_file := exclude_file args; no_exclude := flag;
                jump_host := jump_host args; server_path := server_path args;
                server := server args; dest_dir := dest_dir args |}
    = cmd_list args.
Proof.
  split; [|reflexivity]. unfold cmd_list.
  destruct (given (jump_host args)) as [host|];
    destruct (given (exclude_file args)) as [file|];
    destruct (given (bwlimit args)) as [limit|];
    simpl;
    eexists;
    (split; [match goal with
             | |- _ :: ?l = _ :: ?o ++ ?t =>
                 instantiate (1 := firstn (length l - 4) l); reflexivity
             end|]);
    simpl; (split; [tauto|lia]).
Qed.

(** X21.  [execute_rsync] and one run.  Let the three calls of
    [pty.openpty()] answer six new descriptors.  After the three lines that
    announce the run, [run_rsync_command] runs; then
    - whatever comes of it, the descriptors open afterwards are those open
      before the call;
    - if the run raises an exception of the watching code (a [ValueError]
      or an [OverflowError] of the parsers), [execute_rsync] raises the same
      exception, with or without a repeat time: its [except] clauses name
      [KeyboardInterrupt] and [CalledProcessError] only;
    - if the keyboard stops the run in its loop, the handler sleeps, prints
      its line, and [execute_rsync] returns 1, with or without a repeat
      time: no countdown, no second run; and a second [KeyboardInterrupt],
      during that sleep, leaves [execute_rsync];
    - without a repeat time, when the run returns, [execute_rsync] returns
      what the run returned, rsync's exit status. *)
Theorem execute_rsync_one_run (loaded_at : float) (args : Namespace)
    (fuel runs : nat) (w : world) (h : host) (a1 b1 a2 b2 a3 b3 : nat) :
  openpty h (n_openpty h) = Some (a1, b1) ->
  openpty h (1 + n_openpty h) = Some (a2, b2) ->
  openpty h (2 + n_openpty h) = Some (a3, b3) ->
  NoDup [a1; b1; a2; b2; a3; b3] ->
  (forall x, In x [a1; b1; a2; b2; a3; b3] -> ~ In x (fds h)) ->
  let run :=
    run_rsync_command loaded_at fuel
      (announced args w, vars_of (new_States loaded_at) loaded_at) in
  let out := execute_rsync loaded_at args fuel (S runs) (w, h) in
  fds (snd (snd out)) = fds h /\
  (forall e, fst run = Raise e ->
             fst out = Raised (Std e) /\ fst (snd out) = fst (snd run)) /\
  (fst run = Ok None -> keyboard h (n_run h) = true ->
   if interrupt h (n_sleep h) then
     fst out = Raised KeyboardInterrupt /\ fst (snd out) = fst (snd run)
   else
     fst out = Done (Some 1%Z) /\
     fst (snd out)
     = emit (Print "Program terminated with keyboard interrupt.  Exiting..." [])
         (fst (snd run))) /\
  (repeats args = None ->
   forall c, fst run = Ok (Some c) ->
             fst out = Done (Some c) /\ fst (snd out) = fst (snd run)).
Proof.
  intros H1 H2 H3 Hnd Hnew run out. subst run out.
  rewrite (@execute_rsync_frame loaded_at args fuel (S runs) w h
             a1 b1 a2 b2 a3 b3 H1 H2 H3 Hnd Hnew).
  cbn [fst snd]. split; [reflexivity|].
  rewrite sync_loop_first_run.
  destruct (run_rsync_command loaded_at fuel _) as ([[c|]|e] & s);
    cbn [fst snd].
  - split; [discriminate|]. split; [discriminate|].
    intros Hr c' [= <-]. rewrite Hr. auto.
  - split; [discriminate|]. split; [|discriminate].
    intros _ Hk. cbn [after_openpty keyboard n_run interrupt n_sleep].
    rewrite Hk. destruct (interrupt h (n_sleep h)); auto.
  - split; [|split; discriminate]. intros e' [= <-]. auto.
Qed.

(** rsync exits with status 7 before it writes anything; and rsync is
    silent and running, and the keyboard stops it after two turns. *)
Lemma execute_rsync_one_run_witness :
  let out :=
    execute_rsync (Finite 0) (sample_args None) 1 1
                  (finished_world 7, calm_host) in
  let stopped :=
    execute_rsync (Finite 0) (sample_args (Some 3600%Z)) 2 1
                  (quiet_world 0, impatient_host) in
  fst out = Done (Some 7%Z) /\ fds (snd (snd out)) = [0; 1; 2] /\
  fst stopped = Done (Some 1%Z) /\ fds (snd (snd stopped)) = [0; 1; 2].
Proof.
  intros out stopped.
  destruct (@execute_rsync_one_run (Finite 0) (sample_args None) 1 0
              (finished_world 7) calm_host 3 4 5 6 7 8
              eq_refl eq_refl eq_refl)
    as (Hf & _ & _ & Hr).
  - repeat constructor; simpl; intuition discriminate.
  - simpl. intros x Hx Hin.
    repeat (destruct Hx as [<-|Hx]; [intuition discriminate|]). exact Hx.
  - destruct (@execute_rsync_one_run (Finite 0) (sample_args (Some 3600%Z)) 2 0
                (quiet_world 0) impatient_host 3 4 5 6 7 8
                eq_refl eq_refl eq_refl)
      as (Hf' & _ & Hk & _).
    + repeat constructor; simpl; intuition discriminate.
    + simpl. intros x Hx Hin.
      repeat (destruct Hx as [<-|Hx]; [intuition discriminate|]). exact Hx.
    + split; [|split; [exact Hf|split; [|exact Hf']]].
      * apply (Hr eq_refl 7%Z). vm_compute. reflexivity.
      * apply Hk; vm_compute; reflexivity.
Defined.

(** X22.  The keyboard during the countdown ends the program.  With a
    repeat time, let the first run return an exit status, whatever it is,
    and let the first sleep of the countdown that follows be cut short by a
    [KeyboardInterrupt].  Then [execute_rsync] raises [SystemExit(1)]: the
    [except KeyboardInterrupt] of its loop plays no part, no second run is
    started, and the six descriptors are closed on the way out. *)
Theorem interrupt_ends_the_repetition (loaded_at : float) (args : Namespace)
    (fuel runs : nat) (w : world) (h : host) (a1 b1 a2 b2 a3 b3 : nat)
    (seconds c : Z) :
  openpty h (n_openpty h) = Some (a1, b1) ->
  openpty h (1 + n_openpty h) = Some (a2, b2) ->
  openpty h (2 + n_openpty h) = Some (a3, b3) ->
  NoDup [a1; b1; a2; b2; a3; b3] ->
  (forall x, In x [a1; b1; a2; b2; a3; b3] -> ~ In x (fds h)) ->
  repeats args = Some seconds ->
  let run :=
    run_rsync_command loaded_at fuel
      (announced args w, vars_of (new_States loaded_at) loaded_at) in
  fst run = Ok (Some c) ->
  let stop_time := (now h (n_now h) + seconds * 1000000)%Z in
  (Z.abs (seconds / 86400) <= 999999999)%Z ->
  (0 <= stop_time < datetime_end)%Z ->
  (now h (n_now h + 2) < stop_time)%Z ->
  interrupt h (n_sleep h) = true ->
  let out := execute_rsync loaded_at args fuel (S runs) (w, h) in
  fst out = Raised (SystemExit 1) /\
  fds (snd (snd out)) = fds h /\
  n_poll (fst (snd out)) = n_poll (fst (snd run)) /\
  n_select (fst (snd out)) = n_select (fst (snd run)).
Proof.
  intros H1 H2 H3 Hnd Hnew Hrep run Hrun stop_time Hd Hr Hlt Hi out.
  subst run out.
  assert (Hfuel : 0 < fuel).
  { destruct fuel; [|lia]. vm_compute in Hrun. discriminate. }
  rewrite (@execute_rsync_frame loaded_at args fuel (S runs) w h
             a1 b1 a2 b2 a3 b3 H1 H2 H3 Hnd Hnew).
  cbn [fst snd]. rewrite sync_loop_first_run.
  destruct (run_rsync_command loaded_at fuel _) as (o & s) eqn:E.
  cbn [fst snd] in *. subst o. rewrite Hrep.
  match goal with |- context [countdown seconds fuel (?w1, ?h1)] =>
    destruct (@countdown_raises seconds 0 fuel w1 h1)
      as (lines & Hlen & Hsig & ->) end; try assumption.
  - intros j Hj. assert (j = 0) as -> by lia. simpl.
    rewrite Nat.add_0_r. exact Hlt.
  - intros j Hj. lia.
  - simpl. rewrite Nat.add_0_r. exact Hi.
  - simpl. auto.
Qed.

Lemma interrupt_ends_the_repetition_witness :
  let out :=
    execute_rsync (Finite 0) (sample_args (Some 3600%Z)) 1 1
                  (finished_world 0, interrupted_host) in
  fst out = Raised (SystemExit 1) /\ fds (snd (snd out)) = [0; 1; 2].
Proof.
  intros out.
  destruct (@interrupt_ends_the_repetition (Finite 0)
              (sample_args (Some 3600%Z)) 1 0 (finished_world 0)
              interrupted_host 3 4 5 6 7 8 3600 0
              eq_refl eq_refl eq_refl)
    as (Ho & Hf & _).
  - repeat constructor; simpl; intuition discriminate.
  - simpl. intros x Hx Hin.
    repeat (destruct Hx as [<-|Hx]; [intuition discriminate|]). exact Hx.
  - reflexivity.
  - vm_compute. reflexivity.
  - vm_compute. discriminate.
  - vm_compute. split; [discriminate|reflexivity].
  - vm_compute. reflexivity.
  - reflexivity.
  - split; [exact Ho|exact Hf].
Defined.

End ExecuteTheorems.

(* ===================================================================== *)
(** * The script against the module *)
(* ===================================================================== *)

Module VersionFacts.
Import Frames FrameFacts Versions.
Local Open Scope char_scope.

#[local] Arguments fsub : simpl never.
#[local] Arguments fgt : simpl never.
#[local] Arguments search : simpl never.
#[local] Arguments atoi : simpl never.
#[local] Arguments py_float : simpl never.
#[local] Arguments int_of_float : simpl never.
#[local] Arguments SyncDownloadedFiles.parse_rate : simpl never.
#[local] Arguments SyncDownloadedFilesScript.parse_rate : simpl never.

(** [parse_rate] comes to the same, and prints the same, whatever the
    variables of its caller. *)
Lemma parse_rate_uniform (rate_string : str) :
  exists (o : outcome Z) (prints : list event),
    signals prints = [] /\
    forall (V : Type) (s : world * V),
      SyncDownloadedFiles.parse_rate rate_string s
      = (o, (printed prints (fst s), snd s)).
Proof.
  unfold SyncDownloadedFiles.parse_rate.
  destruct (search SyncDownloadedFiles.rate_pattern rate_string) as [g|].
  - unfold bind, lift, ret, raise.
    destruct (py_float _) as [val|e].
    + destruct (str_eqb _ _).
      * eexists _, []. split; [reflexivity|]. intros V s.
        rewrite printed_nil. now destruct s.
      * destruct (str_eqb _ _).
        -- eexists _, []. split; [reflexivity|]. intros V s.
           rewrite printed_nil. now destruct s.
        -- eexists _, []. split; [reflexivity|]. intros V s.
           rewrite printed_nil. now destruct s.
    + eexists _, []. split; [reflexivity|]. intros V s.
      rewrite printed_nil. now destruct s.
  - eexists _, [_; _]. split; [|intros V s; reflexivity]. reflexivity.
Qed.

Lemma same_but_trace_refl (w : world) : same_but_trace w w.
Proof. now repeat split. Qed.

Lemma same_but_trace_printed (a b : list event) (w1 w2 : world) :
  same_but_trace w1 w2 -> same_but_trace (printed a w1) (printed b w2).
Proof. intros H. exact H. Qed.


Ltac monad_unfold :=
  unfold bind, ret, raise, lift, when, get_vars, set_vars, time_time, print,
    process_terminate, do_event,
    SyncDownloadedFiles.get_states, SyncDownloadedFiles.set_states,
    SyncDownloadedFilesScriptLoop.get_locals,
    SyncDownloadedFilesScriptLoop.set_low_rate,
    SyncDownloadedFilesScriptLoop.set_last_good_time,
    SyncDownloadedFilesScriptLoop.set_last_line,
    SyncDownloadedFilesScriptLoop.set_last_was_progress.

Ltac only_signals :=
  unfold signals; simpl; rewrite ?filter_app; simpl;
  repeat match goal with
         | H : filter _ ?p = [] |- context [filter _ ?p] => rewrite H
         end;
  simpl; reflexivity.

Ltac leaf fired :=
  simpl; unfold same_but_trace, same_variables; simpl;
  split; [now repeat split|];
  split; [now repeat split|];
  split; [only_signals|];
  exists fired;
  split; [only_signals|];
  first [ split; [reflexivity|];
          first [ reflexivity
                | symmetry; apply orb_true_r
                | symmetry; apply orb_false_r ] ].

(** One line, in the two versions. *)
Lemma watch_line_agree (d : fd) (line : str) (b0 : bool) (w1 w2 : world)
    (l : SyncDownloadedFilesScriptLoop.locals) (v : SyncDownloadedFiles.vars) :
  same_but_trace w1 w2 -> same_variables l v ->
  let rs := SyncDownloadedFilesScriptLoop.watch_line d line (w1, l) in
  let rm := SyncDownloadedFiles.watch_line b0 line (w2, v) in
  same_but_trace (fst (snd rs)) (fst (snd rm)) /\
  same_variables (snd (snd rs)) (snd (snd rm)) /\
  signals (trace (fst (snd rm))) = signals (trace w2) /\
  exists fired : bool,
    signals (trace (fst (snd rs)))
    = (if fired then [Terminate] else []) ++ signals (trace w1) /\
    match fst rm with
    | Ok b => fst rs = Ok tt /\ b = b0 || fired
    | Raise e => fst rs = Raise e /\ fired = false
    end.
Proof.
  intros Hw Hv rs rm. subst rs rm.
  destruct w1 as [c1 r1 k1 s1 nc1 ns1 nr1 np1 rc1 t1].
  destruct w2 as [c2 r2 k2 s2 nc2 ns2 nr2 np2 rc2 t2].
  destruct l as [lo1 lg1 ll1 lw1 la1]. destruct v as [[lo2 lg2 ll2 lw2] la2].
  unfold same_but_trace, same_variables in Hw, Hv. simpl in Hw, Hv.
  destruct Hw as (-> & -> & -> & -> & -> & -> & -> & -> & ->).
  destruct Hv as (-> & -> & -> & -> & ->).
  unfold SyncDownloadedFilesScriptLoop.watch_line, SyncDownloadedFiles.watch_line,
    SyncDownloadedFiles.parse_progress_line, SyncDownloadedFiles.print_progress,
    SyncDownloadedFiles.check_transfer_rate.
  change SyncDownloadedFilesScriptLoop.progress_pattern
    with SyncDownloadedFiles.progress_pattern.
  change (@SyncDownloadedFilesScript.parse_rate)
    with (@SyncDownloadedFiles.parse_rate).
  change SyncDownloadedFilesScript.group_text
    with SyncDownloadedFiles.group_text.
  destruct (search SyncDownloadedFiles.progress_pattern line) as [g|].
  - destruct (parse_rate_uniform (SyncDownloadedFiles.group_text "rate" g))
      as (o & prints & Hs & Hpr).
    unfold signals in Hs.
    monad_unfold. simpl.
    unfold SyncDownloadedFiles.TRANSFER_RATE_MIN,
      SyncDownloadedFiles.RATE_LOW_TIMEOUT,
      SyncDownloadedFilesScriptLoop.RATE_LOW_TIMEOUT.
    destruct lw2; simpl;
      (destruct (atoi _) as [n|e]; simpl; [|leaf false]);
      (destruct (py_float _) as [f|e]; simpl; [|leaf false]);
      rewrite !Hpr; simpl;
      (destruct o as [rate|e]; simpl; [|leaf false]);
      (destruct (rate >? 100000)%Z; simpl; [leaf false|]);
      (destruct lo2; simpl; [|leaf false]);
      (destruct (fgt _ _); simpl; [leaf true|leaf false]).
  - monad_unfold. simpl.
    destruct lw2; simpl; destruct line; simpl; leaf false.
Qed.



Lemma terminated_app (a b : nat) :
  terminated a ++ terminated b = terminated (a + b).
Proof. unfold terminated. now rewrite repeat_app. Qed.

(** The lines of a chunk, in the two versions. *)
Lemma lines_agree (d : fd) (lines : list str) :
  forall (b0 : bool) (w1 w2 : world)
         (l : SyncDownloadedFilesScriptLoop.locals) (v : SyncDownloadedFiles.vars),
    same_but_trace w1 w2 -> same_variables l v ->
    let rs := for_each lines (fun _ => SyncDownloadedFilesScriptLoop.watch_line d) tt
                (w1, l) in
    let rm := for_each lines SyncDownloadedFiles.watch_line b0 (w2, v) in
    same_but_trace (fst (snd rs)) (fst (snd rm)) /\
    same_variables (snd (snd rs)) (snd (snd rm)) /\
    signals (trace (fst (snd rm))) = signals (trace w2) /\
    exists k : nat,
      signals (trace (fst (snd rs))) = terminated k ++ signals (trace w1) /\
      match fst rm with
      | Ok b => fst rs = Ok tt /\ b = b0 || (0 <? k)%nat
      | Raise e => fst rs = Raise e
      end.
Proof.
  induction lines as [|line lines IH]; intros b0 w1 w2 l v Hw Hv rs rm;
    subst rs rm.
  - simpl. repeat split; try assumption; try apply Hw; try apply Hv.
    exists 0%nat. simpl. split; [reflexivity|]. split; [reflexivity|].
    now rewrite orb_false_r.
  - simpl for_each. unfold bind.
    destruct (@watch_line_agree d line b0 w1 w2 l v Hw Hv)
      as (Hw1 & Hv1 & Hm1 & fired & Hs1 & Ho1).
    destruct (SyncDownloadedFilesScriptLoop.watch_line d line (w1, l))
      as (o1 & (w1' & l')).
    destruct (SyncDownloadedFiles.watch_line b0 line (w2, v))
      as ([b1|e] & (w2' & v')); cbn [fst snd] in *.
    + destruct Ho1 as (-> & ->).
      destruct (IH (b0 || fired) w1' w2' l' v' Hw1 Hv1)
        as (Hw2 & Hv2 & Hm2 & k & Hs2 & Ho2).
      split; [exact Hw2|]. split; [exact Hv2|].
      split; [congruence|].
      exists (k + (if fired then 1 else 0))%nat.
      split.
      * rewrite Hs2, Hs1, app_assoc. f_equal.
        rewrite <- terminated_app. now destruct fired.
      * destruct (fst (for_each lines SyncDownloadedFiles.watch_line _ _));
          [|exact Ho2].
        destruct Ho2 as (-> & ->). split; [reflexivity|].
        destruct b0, fired, k; reflexivity.
    + destruct Ho1 as (-> & ->).
      split; [exact Hw1|]. split; [exact Hv1|]. split; [exact Hm1|].
      exists 0%nat. split; [exact Hs1|reflexivity].
Qed.


(** One descriptor, in the script and in the module. *)
Lemma script_watch_fds_cons (d : fd) (rest : list fd) (w : world)
    (l : SyncDownloadedFilesScriptLoop.locals) :
  SyncDownloadedFilesScriptLoop.watch_fds (d :: rest) (w, l)
  = match chunk w (n_read w) d with
    | [] => (Ok tt, (tick_read w, l))
    | c :: data =>
        bind (for_each (splitlines (strip (c :: data)))
                (fun _ => SyncDownloadedFilesScriptLoop.watch_line d) tt)
             (fun _ => SyncDownloadedFilesScriptLoop.watch_fds rest)
             (tick_read w, l)
    end.
Proof.
  cbn [SyncDownloadedFilesScriptLoop.watch_fds]. unfold bind at 1, os_read.
  cbn [fst snd]. destruct (chunk w (n_read w) d); reflexivity.
Qed.

Lemma module_watch_fd (b : bool) (d : fd) (w : world)
    (v : SyncDownloadedFiles.vars) :
  SyncDownloadedFiles.watch_fd b d (w, v)
  = match chunk w (n_read w) d with
    | [] => (Ok b, (tick_read w, v))
    | c :: data =>
        for_each (splitlines (strip (c :: data)))
          SyncDownloadedFiles.watch_line b (tick_read w, v)
    end.
Proof.
  unfold SyncDownloadedFiles.watch_fd, bind at 1, os_read.
  cbn [fst snd]. destruct (chunk w (n_read w) d); reflexivity.
Qed.

Lemma module_watch_fds_cons (b : bool) (d : fd) (rest : list fd) (w : world)
    (v : SyncDownloadedFiles.vars) :
  for_each (d :: rest) SyncDownloadedFiles.watch_fd b (w, v)
  = match chunk w (n_read w) d with
    | [] => for_each rest SyncDownloadedFiles.watch_fd b (tick_read w, v)
    | c :: data =>
        bind (for_each (splitlines (strip (c :: data)))
                SyncDownloadedFiles.watch_line b)
             (fun b' => for_each rest SyncDownloadedFiles.watch_fd b')
             (tick_read w, v)
    end.
Proof.
  cbn [for_each]. unfold bind at 1. rewrite module_watch_fd.
  destruct (chunk w (n_read w) d); reflexivity.
Qed.

Lemma same_but_trace_tick_read (w1 w2 : world) :
  same_but_trace w1 w2 -> same_but_trace (tick_read w1) (tick_read w2).
Proof.
  intros (A1 & A2 & A3 & A4 & A5 & A6 & A7 & A8 & A9).
  unfold same_but_trace; simpl. repeat split; congruence.
Qed.

(** The descriptors of a turn, in the two versions, when no read is
    empty. *)
Lemma fds_agree (fds : list fd) :
  forall (b0 : bool) (w1 w2 : world)
         (l : SyncDownloadedFilesScriptLoop.locals) (v : SyncDownloadedFiles.vars),
    same_but_trace w1 w2 -> same_variables l v ->
    (forall i d, nth_error fds i = Some d ->
                 chunk w1 (n_read w1 + i) d <> []) ->
    let rs := SyncDownloadedFilesScriptLoop.watch_fds fds (w1, l) in
    let rm := for_each fds SyncDownloadedFiles.watch_fd b0 (w2, v) in
    same_but_trace (fst (snd rs)) (fst (snd rm)) /\
    same_variables (snd (snd rs)) (snd (snd rm)) /\
    signals (trace (fst (snd rm))) = signals (trace w2) /\
    exists k : nat,
      signals (trace (fst (snd rs))) = terminated k ++ signals (trace w1) /\
      match fst rm with
      | Ok b => fst rs = Ok tt /\ b = b0 || (0 <? k)%nat
      | Raise e => fst rs = Raise e
      end.
Proof.
  induction fds as [|d fds IH]; intros b0 w1 w2 l v Hw Hv Hne rs rm;
    subst rs rm.
  - simpl. repeat split; try assumption; try apply Hw; try apply Hv.
    exists 0%nat. simpl. split; [reflexivity|]. split; [reflexivity|].
    now rewrite orb_false_r.
  - pose proof (Hne 0%nat d eq_refl) as H0. rewrite Nat.add_0_r in H0.
    assert (Hc : chunk w2 (n_read w2) d = chunk w1 (n_read w1) d).
    { destruct Hw as (_ & _ & -> & _ & _ & _ & -> & _). reflexivity. }
    rewrite script_watch_fds_cons.
    rewrite module_watch_fds_cons, Hc.
    destruct (chunk w1 (n_read w1) d) as [|c data] eqn:E; [congruence|].
    pose proof (same_but_trace_tick_read Hw) as Hw0.
    destruct (@lines_agree d (splitlines (strip (c :: data))) b0
                (tick_read w1) (tick_read w2) l v Hw0 Hv)
      as (Hw1 & Hv1 & Hm1 & k1 & Hs1 & Ho1).
    destruct (watches_lines_for_each (splitlines (strip (c :: data))) b0
                (tick_read w2, v))
      as ([(_ & _ & Hck & _) _ Hrd _ _ _ _ _ _] & _).
    unfold bind.
    destruct (for_each _ (fun _ => SyncDownloadedFilesScriptLoop.watch_line d) tt _)
      as (o1 & (w1' & l')).
    destruct (for_each _ SyncDownloadedFiles.watch_line b0 _)
      as ([b1|e] & (w2' & v')); cbn [fst snd] in *.
    + destruct Ho1 as (-> & ->).
      destruct (IH (b0 || (0 <? k1)%nat) w1' w2' l' v' Hw1 Hv1)
        as (Hw2 & Hv2 & Hm2 & k & Hs2 & Ho2).
      { intros i x Hi.
        destruct Hw1 as (_ & _ & -> & _ & _ & _ & -> & _).
        rewrite Hck, Hrd.
        cbn [tick_read chunk n_read].
        destruct Hw as (_ & _ & <- & _ & _ & _ & <- & _).
        replace (S (n_read w1) + i)%nat with (n_read w1 + S i)%nat by lia.
        apply Hne. exact Hi. }
      split; [exact Hw2|]. split; [exact Hv2|].
      split; [simpl in Hm1; congruence|].
      exists (k + k1)%nat.
      split.
      * rewrite Hs2, Hs1, app_assoc. simpl. f_equal. apply terminated_app.
      * destruct (fst (for_each fds SyncDownloadedFiles.watch_fd _ _));
          [|exact Ho2].
        destruct Ho2 as (-> & ->). split; [reflexivity|].
        destruct b0, k1, k; reflexivity.
    + subst o1.
      split; [exact Hw1|]. split; [exact Hv1|]. split; [exact Hm1|].
      exists k1. split; [exact Hs1|reflexivity].
Qed.

End VersionFacts.

Module ScriptFacts.
Import Frames FrameFacts Turns TurnFacts Versions VersionFacts ScriptTurns.
Local Open Scope nat_scope.
Local Open Scope char_scope.

#[local] Arguments fsub : simpl never.
#[local] Arguments fgt : simpl never.
#[local] Arguments SyncDownloadedFilesScriptLoop.watch_fds : simpl never.
#[local] Arguments SyncDownloadedFiles.watch_rsync_progress : simpl never.

(** A turn of the script's loop that finds something to read. *)
Lemma script_loop_body_ready (w : world)
    (l : SyncDownloadedFilesScriptLoop.locals) (d : fd) (ds : list fd) :
  ready w (n_select w) = d :: ds ->
  SyncDownloadedFilesScriptLoop.loop_body (w, l) =
  match SyncDownloadedFilesScriptLoop.watch_fds (d :: ds) (script_watching w l) with
  | (Ok _, s) => (Ok SyncDownloadedFiles.Next, s)
  | (Raise e, s) => (Raise e, s)
  end.
Proof.
  intros Hr.
  unfold SyncDownloadedFilesScriptLoop.loop_body, bind at 1, select_select.
  simpl. rewrite Hr.
  unfold bind at 1, time_time. simpl.
  unfold bind at 1, SyncDownloadedFilesScriptLoop.set_last_activity, set_vars.
  simpl.
  unfold bind at 1, script_watching, reading. simpl. rewrite Nat.add_0_r.
  destruct (SyncDownloadedFilesScriptLoop.watch_fds (d :: ds) _) as ([u|e] & s);
    reflexivity.
Qed.

(** A turn with nothing to read is the same turn in the two versions. *)
Lemma silent_turn_agree (w1 w2 : world)
    (l : SyncDownloadedFilesScriptLoop.locals) (v : SyncDownloadedFiles.vars) :
  same_but_trace w1 w2 -> same_variables l v ->
  ready w1 (n_select w1) = [] ->
  let rs := SyncDownloadedFilesScriptLoop.loop_body (w1, l) in
  let rm := SyncDownloadedFiles.loop_body (w2, v) in
  same_but_trace (fst (snd rs)) (fst (snd rm)) /\
  same_variables (snd (snd rs)) (snd (snd rm)) /\
  fst rs = fst rm /\
  exists evs,
    trace (fst (snd rs)) = evs ++ trace w1 /\
    trace (fst (snd rm)) = evs ++ trace w2.
Proof.
  intros Hw Hv Hr rs rm. subst rs rm.
  destruct w1 as [c1 r1 k1 s1 nc1 ns1 nr1 np1 rc1 t1].
  destruct w2 as [c2 r2 k2 s2 nc2 ns2 nr2 np2 rc2 t2].
  destruct Hw as (A1 & A2 & A3 & A4 & A5 & A6 & A7 & A8 & A9).
  simpl in A1, A2, A3, A4, A5, A6, A7, A8, A9, Hr. subst.
  destruct l as [l1 l2 l3 l4 l5]. destruct v as [[m1 m2 m3 m4] m5].
  destruct Hv as (B1 & B2 & B3 & B4 & B5).
  simpl in B1, B2, B3, B4, B5. subst.
  unfold SyncDownloadedFilesScriptLoop.loop_body, SyncDownloadedFiles.loop_body,
    bind, select_select, process_poll, tick_select,
    SyncDownloadedFiles.get_last_activity,
    SyncDownloadedFilesScriptLoop.get_locals, get_vars, ret, when.
  simpl. rewrite Hr.
  destruct rc2 as [c|]; simpl.
  { repeat split. exists []. split; reflexivity. }
  destruct (s2 np2) as [c|]; simpl.
  { repeat split. exists []. split; reflexivity. }
  destruct (fgt _ _); simpl; destruct (fgt _ _); simpl;
    (split; [now repeat split|]); (split; [now repeat split|]);
    (split; [reflexivity|]);
    eexists;
    (split;
     [match goal with
      | |- ?a :: ?b :: ?c :: ?d :: ?e :: ?t = _ =>
          change (a :: b :: c :: d :: e :: t) with ([a; b; c; d; e] ++ t)
      | |- ?a :: ?b :: ?c :: ?t = _ =>
          change (a :: b :: c :: t) with ([a; b; c] ++ t)
      | |- ?a :: ?b :: ?t = _ =>
          change (a :: b :: t) with ([a; b] ++ t)
      | |- ?t = _ => change t with ([] ++ t)
      end; reflexivity
     |reflexivity]).
Qed.


Lemma same_but_trace_watching (w1 w2 : world)
    (l : SyncDownloadedFilesScriptLoop.locals) (v : SyncDownloadedFiles.vars) :
  same_but_trace w1 w2 -> same_variables l v ->
  same_but_trace (fst (script_watching w1 l)) (fst (watching w2 v)) /\
  same_variables (snd (script_watching w1 l)) (snd (watching w2 v)).
Proof.
  intros (A1 & A2 & A3 & A4 & A5 & A6 & A7 & A8 & A9) (B1 & B2 & B3 & B4 & B5).
  unfold same_but_trace, same_variables, script_watching, watching, reading.
  simpl. repeat split; congruence.
Qed.

(** A turn that finds something to read, no read of which is empty, in the
    two versions. *)
Lemma ready_turn_agree (w1 w2 : world)
    (l : SyncDownloadedFilesScriptLoop.locals) (v : SyncDownloadedFiles.vars)
    (d : fd) (ds : list fd) :
  same_but_trace w1 w2 -> same_variables l v ->
  ready w1 (n_select w1) = d :: ds ->
  (forall i x, nth_error (d :: ds) i = Some x ->
               chunk w1 (n_read w1 + i) x <> []) ->
  let rs := SyncDownloadedFilesScriptLoop.loop_body (w1, l) in
  let rm := SyncDownloadedFiles.loop_body (w2, v) in
  same_but_trace (fst (snd rs)) (fst (snd rm)) /\
  same_variables (snd (snd rs)) (snd (snd rm)) /\
  fst rs = fst rm /\
  exists k : nat,
    signals (trace (fst (snd rs))) = terminated k ++ signals (trace w1) /\
    signals (trace (fst (snd rm)))
    = match fst rm with
      | Ok _ => terminated (Nat.min 1 k)
      | Raise _ => []
      end ++ signals (trace w2).
Proof.
  intros Hw Hv Hr Hne rs rm. subst rs rm.
  assert (Hr2 : ready w2 (n_select w2) = d :: ds).
  { destruct Hw as (_ & <- & _ & _ & _ & <- & _). exact Hr. }
  rewrite (@script_loop_body_ready w1 l d ds Hr).
  rewrite (@loop_body_ready w2 v d ds Hr2).
  unfold SyncDownloadedFiles.watch_rsync_progress.
  destruct (same_but_trace_watching Hw Hv) as (Hw0 & Hv0).
  destruct (@fds_agree (d :: ds) false
              (fst (script_watching w1 l)) (fst (watching w2 v))
              (snd (script_watching w1 l)) (snd (watching w2 v)) Hw0 Hv0 Hne)
    as (Hw1 & Hv1 & Hm1 & k & Hs1 & Ho1).
  change (fst (script_watching w1 l), snd (script_watching w1 l))
    with (script_watching w1 l) in *.
  change (fst (watching w2 v), snd (watching w2 v)) with (watching w2 v) in *.
  destruct (SyncDownloadedFilesScriptLoop.watch_fds (d :: ds) _)
    as (o1 & (w1' & l')).
  destruct (for_each (d :: ds) SyncDownloadedFiles.watch_fd false _)
    as ([b|e] & (w2' & v')); cbn [fst snd] in *.
  - destruct Ho1 as (-> & ->). simpl orb.
    destruct k as [|k]; simpl Nat.ltb; cbn [fst snd].
    + repeat (split; [assumption || reflexivity|]).
      exists 0. split; [exact Hs1|exact Hm1].
    + split; [exact Hw1|]. split; [exact Hv1|]. split; [reflexivity|].
      exists (S k). split; [exact Hs1|].
      simpl. now rewrite Hm1.
  - subst o1. cbn [fst snd].
    split; [exact Hw1|]. split; [exact Hv1|]. split; [reflexivity|].
    exists k. split; [exact Hs1|exact Hm1].
Qed.


(** A turn of the loop, in the two versions, when every read gives
    something. *)
Lemma turn_agree (w1 w2 : world)
    (l : SyncDownloadedFilesScriptLoop.locals) (v : SyncDownloadedFiles.vars) :
  same_but_trace w1 w2 -> same_variables l v ->
  (forall i x, nth_error (ready w1 (n_select w1)) i = Some x ->
               chunk w1 (n_read w1 + i) x <> []) ->
  let rs := SyncDownloadedFilesScriptLoop.loop_body (w1, l) in
  let rm := SyncDownloadedFiles.loop_body (w2, v) in
  same_but_trace (fst (snd rs)) (fst (snd rm)) /\
  same_variables (snd (snd rs)) (snd (snd rm)) /\
  fst rs = fst rm /\
  exists sent_s sent_m,
    signals (trace (fst (snd rs))) = sent_s ++ signals (trace w1) /\
    signals (trace (fst (snd rm))) = sent_m ++ signals (trace w2) /\
    match ready w1 (n_select w1) with
    | [] => sent_s = sent_m
    | _ :: _ =>
        exists k : nat,
          sent_s = terminated k /\
          sent_m = match fst rm with
                   | Ok _ => terminated (Nat.min 1 k)
                   | Raise _ => []
                   end
    end.
Proof.
  intros Hw Hv Hne rs rm. subst rs rm.
  destruct (ready w1 (n_select w1)) as [|d ds] eqn:Hr.
  - destruct (@silent_turn_agree w1 w2 l v Hw Hv Hr)
      as (H1 & H2 & H3 & evs & E1 & E2).
    repeat (split; [assumption|]).
    exists (signals evs), (signals evs).
    rewrite E1, E2. unfold signals. rewrite !filter_app. auto.
  - destruct (@ready_turn_agree w1 w2 l v d ds Hw Hv Hr Hne)
      as (H1 & H2 & H3 & k & E1 & E2).
    repeat (split; [assumption|]).
    eexists _, _. split; [exact E1|]. split; [exact E2|].
    exists k. auto.
Qed.

(** The script's loop, like the module's, is left only on a turn that knows
    the child's exit status. *)
Lemma script_loop_body_break
    (s s' : world * SyncDownloadedFilesScriptLoop.locals) :
  SyncDownloadedFilesScriptLoop.loop_body s = (Ok SyncDownloadedFiles.Break, s') ->
  returncode (fst s') <> None.
Proof.
  destruct s as (w & l).
  destruct (ready w (n_select w)) as [|d ds] eqn:Hr.
  - unfold SyncDownloadedFilesScriptLoop.loop_body, bind at 1, select_select.
    simpl. rewrite Hr.
    unfold bind at 1, process_poll. simpl.
    destruct (returncode w) eqn:Hc; simpl.
    + intros [= <-]. simpl. congruence.
    + destruct (status w (n_poll w)) eqn:Hs.
      * intros [= <-]. simpl. congruence.
      * unfold bind, time_time, SyncDownloadedFilesScriptLoop.get_locals,
          get_vars, ret, when. simpl.
        destruct (fgt _ _); simpl; destruct (fgt _ _); simpl; discriminate.
  - rewrite (@script_loop_body_ready w l d ds Hr).
    destruct (SyncDownloadedFilesScriptLoop.watch_fds _ _) as ([u|e] & s1);
      discriminate.
Qed.

Lemma script_while_true_left (fuel : nat)
    (s s' : world * SyncDownloadedFilesScriptLoop.locals) :
  SyncDownloadedFilesScriptLoop.while_true fuel s = (Ok true, s') ->
  returncode (fst s') <> None.
Proof.
  revert s. induction fuel as [|fuel IH]; intros s; simpl.
  - discriminate.
  - unfold bind.
    destruct (SyncDownloadedFilesScriptLoop.loop_body s) as ([[|]|e] & s1) eqn:E.
    + apply IH.
    + intros [= <-]. now apply script_loop_body_break in E.
    + discriminate.
Qed.

(** The loop, in the two versions, when every read gives something. *)
Lemma loop_agree (fuel : nat) :
  forall (w1 w2 : world)
         (l : SyncDownloadedFilesScriptLoop.locals) (v : SyncDownloadedFiles.vars),
    same_but_trace w1 w2 -> same_variables l v ->
    (forall n x, chunk w1 n x <> []) ->
    let rs := SyncDownloadedFilesScriptLoop.while_true fuel (w1, l) in
    let rm := SyncDownloadedFiles.while_true fuel (w2, v) in
    same_but_trace (fst (snd rs)) (fst (snd rm)) /\
    same_variables (snd (snd rs)) (snd (snd rm)) /\
    fst rs = fst rm /\
    exists sent_s sent_m,
      signals (trace (fst (snd rs))) = sent_s ++ signals (trace w1) /\
      signals (trace (fst (snd rm))) = sent_m ++ signals (trace w2) /\
      length sent_m <= length sent_s.
Proof.
  induction fuel as [|fuel IH]; intros w1 w2 l v Hw Hv Hne rs rm; subst rs rm.
  - simpl. repeat (split; [assumption || reflexivity|]).
    exists [], []. auto.
  - cbn [SyncDownloadedFilesScriptLoop.while_true SyncDownloadedFiles.while_true].
    unfold bind.
    destruct (@turn_agree w1 w2 l v Hw Hv (fun i x _ => Hne _ x))
      as (Hw1 & Hv1 & Ho & sent_s & sent_m & Es & Em & Hsent).
    assert (Hlen : length sent_m <= length sent_s).
    { destruct (ready w1 (n_select w1)); [subst; lia|].
      destruct Hsent as (k & -> & ->).
      destruct (fst (SyncDownloadedFiles.loop_body (w2, v)));
        unfold terminated; rewrite ?repeat_length; cbn [length]; lia. }
    clear Hsent.
    destruct (loops_loop_body (w2, v)) as ([(_ & _ & Hck & _) _ _ _] & _).
    destruct (SyncDownloadedFilesScriptLoop.loop_body (w1, l))
      as (o1 & (w1' & l')).
    destruct (SyncDownloadedFiles.loop_body (w2, v)) as (o2 & (w2' & v')).
    cbn [fst snd] in *. subst o1.
    destruct o2 as [[|]|e]; cbn [fst snd].
    + destruct (IH w1' w2' l' v' Hw1 Hv1)
        as (Hw2 & Hv2 & Ho2 & sent_s' & sent_m' & Es' & Em' & Hlen').
      { intros n x. destruct Hw1 as (_ & _ & -> & _). rewrite Hck.
        destruct Hw as (_ & _ & <- & _). apply Hne. }
      repeat (split; [assumption|]).
      exists (sent_s' ++ sent_s), (sent_m' ++ sent_m).
      rewrite Es', Em', Es, Em, !app_assoc, !length_app.
      repeat split. lia.
    + repeat (split; [assumption || reflexivity|]).
      exists sent_s, sent_m. auto.
    + repeat (split; [assumption || reflexivity|]).
      exists sent_s, sent_m. auto.
Qed.


Lemma script_watch_rsync_command_loop (fuel : nat) (w : world)
    (l : SyncDownloadedFilesScriptLoop.locals) :
  SyncDownloadedFilesScriptLoop.watch_rsync_command fuel (w, l) =
  match SyncDownloadedFilesScriptLoop.while_true fuel (script_started w) with
  | (Ok true, s') => bind process_poll (fun code => ret (Some code)) s'
  | (Ok false, s') => (Ok None, s')
  | (Raise e, s') => (Raise e, s')
  end.
Proof.
  unfold SyncDownloadedFilesScriptLoop.watch_rsync_command, bind at 1,
    subprocess_Popen. simpl.
  unfold bind at 1, SyncDownloadedFilesScriptLoop.set_low_rate, set_vars. simpl.
  unfold bind at 1, time_time. simpl.
  unfold bind at 1, SyncDownloadedFilesScriptLoop.set_last_good_time, set_vars.
  simpl.
  unfold bind at 1, SyncDownloadedFilesScriptLoop.set_last_line, set_vars. simpl.
  unfold bind at 1, SyncDownloadedFilesScriptLoop.set_last_was_progress, set_vars.
  simpl.
  unfold bind at 1, time_time. simpl.
  unfold bind at 1, SyncDownloadedFilesScriptLoop.set_last_activity, set_vars.
  simpl.
  unfold bind at 1, script_started, reading. simpl.
  rewrite Nat.add_0_r, Nat.add_1_r.
  match goal with
  | |- context [SyncDownloadedFilesScriptLoop.while_true fuel ?s] =>
      destruct (SyncDownloadedFilesScriptLoop.while_true fuel s)
        as ([[|]|e] & s')
  end; reflexivity.
Qed.

(** The descriptors that follow an empty read, in the module. *)
Lemma module_reads_on (b : bool) (d : fd) (rest : list fd) (w : world)
    (v : SyncDownloadedFiles.vars) :
  chunk w (n_read w) d = [] ->
  let result := for_each (d :: rest) SyncDownloadedFiles.watch_fd b (w, v) in
  match fst result with
  | Ok _ => n_read (fst (snd result)) = n_read w + 1 + length rest
  | Raise _ => n_read w + 1 < n_read (fst (snd result))
  end.
Proof.
  intros Hc result. subst result. rewrite module_watch_fds_cons, Hc.
  pose proof (WatchFacts.for_each_watch_fd_reads rest b (tick_read w, v)) as H.
  cbv zeta in H.
  destruct (for_each rest SyncDownloadedFiles.watch_fd b _) as ([b'|e] & s);
    simpl in *; lia.
Qed.

End ScriptFacts.

Module ScriptSessionFacts.
Import Process Session Hosts DescriptorFacts CountdownFacts SessionFacts
  ScriptSession.
Local Open Scope nat_scope.

Lemma keeps_fds_script_sync_turn (args : Namespace) (fuel : nat) :
  keeps_fds (sync_turn args fuel).
Proof.
  unfold sync_turn.
  apply keeps_fds_bind; [apply keeps_fds_print|]. intros _.
  apply keeps_fds_bind; [apply keeps_fds_print|]. intros _.
  apply keeps_fds_bind; [apply keeps_fds_print|]. intros _.
  apply keeps_fds_bind.
  - apply keeps_fds_try_except.
    + apply keeps_fds_bind; [apply keeps_fds_call_run|]. intros code.
      destruct code; apply keeps_fds_return.
    + intros e h. destruct e; intros [= <-]; keeps_fds.
  - intros tried. destruct tried; try apply keeps_fds_return.
    destruct (repeats args); [|apply keeps_fds_return].
    apply keeps_fds_bind; [apply keeps_fds_countdown|]. intros finished.
    destruct finished; apply keeps_fds_return.
Qed.

Lemma keeps_fds_script_sync_loop (args : Namespace) (fuel runs : nat) :
  keeps_fds (sync_loop args fuel runs).
Proof.
  induction runs as [|runs IH]; simpl.
  - apply keeps_fds_return.
  - apply keeps_fds_bind; [apply keeps_fds_script_sync_turn|]. intros t.
    destruct t; try apply keeps_fds_return. apply IH.
Qed.

(** A turn of the loop of the script's [execute_rsync]. *)
Lemma script_sync_turn_run (args : Namespace) (fuel : nat) (w : world) (h : host) :
  sync_turn args fuel (w, h) =
  match SyncDownloadedFilesScriptLoop.watch_rsync_command fuel
          (announced args w, no_locals) with
  | (Ok (Some _), s) =>
      match repeats args with
      | Some seconds =>
          tbind (countdown seconds fuel)
            (fun finished =>
               if finished then treturn Again else treturn Unfinished)
            (fst s, ran h)
      | None => (Done Leave, (fst s, ran h))
      end
  | (Ok None, s) =>
      if keyboard h (n_run h) then
        if interrupt h (n_sleep h) then
          (Raised KeyboardInterrupt, (fst s, advanced 0 1 (ran h)))
        else
          (Raised (SystemExit 1),
           (emit (Print "Program terminated with keyboard interrupt.  Exiting..." [])
              (fst s),
            advanced 0 1 (ran h)))
      else (Done Unfinished, (fst s, ran h))
  | (Raise e, s) => (Raised (Std e), (fst s, ran h))
  end.
Proof.
  unfold sync_turn, tbind at 1, tprint. simpl.
  unfold tbind at 1. simpl. unfold tbind at 1. simpl.
  unfold tbind at 1, try_except, tbind at 1, call_run, announced. simpl.
  destruct (SyncDownloadedFilesScriptLoop.watch_rsync_command fuel _)
    as ([[c|]|e] & s); simpl; try reflexivity.
  - destruct (repeats args); reflexivity.
  - destruct (keyboard h (n_run h)); [|reflexivity].
    unfold tbind, time_sleep, tprint, sys_exit, traise. simpl.
    destruct (interrupt h (n_sleep h)); reflexivity.
Qed.

(** The first turn of the loop of the script's [execute_rsync]. *)
Lemma script_sync_loop_first_run (args : Namespace) (fuel runs : nat)
    (w : world) (h : host) :
  sync_loop args fuel (S runs) (w, h) =
  match SyncDownloadedFilesScriptLoop.watch_rsync_command fuel
          (announced args w, no_locals) with
  | (Ok (Some _), s) =>
      match repeats args with
      | Some seconds =>
          match countdown seconds fuel (fst s, ran h) with
          | (Done true, s') => sync_loop args fuel runs s'
          | (Done false, s') => (Done false, s')
          | (Raised e, s') => (Raised e, s')
          end
      | None => (Done true, (fst s, ran h))
      end
  | (Ok None, s) =>
      if keyboard h (n_run h) then
        if interrupt h (n_sleep h) then
          (Raised KeyboardInterrupt, (fst s, advanced 0 1 (ran h)))
        else
          (Raised (SystemExit 1),
           (emit (Print "Program terminated with keyboard interrupt.  Exiting..." [])
              (fst s),
            advanced 0 1 (ran h)))
      else (Done false, (fst s, ran h))
  | (Raise e, s) => (Raised (Std e), (fst s, ran h))
  end.
Proof.
  simpl sync_loop. unfold tbind at 1. rewrite script_sync_turn_run.
  destruct (SyncDownloadedFilesScriptLoop.watch_rsync_command fuel _)
    as ([[c|]|e] & s); try reflexivity.
  - destruct (repeats args) as [seconds|]; [|reflexivity].
    unfold tbind. destruct (countdown seconds fuel _) as ([[|]|e] & s');
      reflexivity.
  - destruct (keyboard h (n_run h)); [|reflexivity].
    destruct (interrupt h (n_sleep h)); reflexivity.
Qed.

(** The script's [execute_rsync] when the three calls of [pty.openpty()]
    succeed. *)
Lemma script_execute_rsync_frame (args : Namespace)
    (fuel runs : nat) (w : world) (h : host) (a1 b1 a2 b2 a3 b3 : nat) :
  openpty h (n_openpty h) = Some (a1, b1) ->
  openpty h (1 + n_openpty h) = Some (a2, b2) ->
  openpty h (2 + n_openpty h) = Some (a3, b3) ->
  NoDup [a1; b1; a2; b2; a3; b3] ->
  (forall x, In x [a1; b1; a2; b2; a3; b3] -> ~ In x (fds h)) ->
  let inside :=
    sync_loop args fuel runs
      (w, after_openpty 3 (b3 :: a3 :: b2 :: a2 :: b1 :: a1 :: fds h) h) in
  execute_rsync args fuel runs (w, h)
  = (match fst inside with
     | Done true => Done (Some 0%Z)
     | Done false => Done None
     | Raised e => Raised e
     end,
     (fst (snd inside), with_fds (fds h) (snd (snd inside)))).
Proof.
  intros H1 H2 H3 Hnd Hnew inside. subst inside. unfold execute_rsync.
  unfold tbind.
  rewrite (@pty_open_frame _ (fun _ => sync_loop args fuel runs)
             w h a1 b1 a2 b2 a3 b3 H1 H2 H3 Hnd Hnew).
  - cbn [fst snd].
    destruct (fst (sync_loop args fuel runs _)) as [[|]|e]; reflexivity.
  - intros _. apply keeps_fds_script_sync_loop.
Qed.

End ScriptSessionFacts.

(* ===================================================================== *)
(** * The two versions of the watching loop *)
(* ===================================================================== *)

Module VersionTheorems.
Import Frames FrameFacts Turns TurnFacts WatchFacts Versions VersionFacts
  ScriptTurns ScriptFacts.
Local Open Scope nat_scope.
Local Open Scope char_scope.

#[local] Arguments fsub : simpl never.
#[local] Arguments fgt : simpl never.
#[local] Arguments SyncDownloadedFilesScriptLoop.watch_fds : simpl never.
#[local] Arguments SyncDownloadedFiles.watch_rsync_progress : simpl never.





(** X24.  The whole loop, in the two versions.  When the descriptors never
    give an empty read, the loop of the script and the loop of the module,
    started from worlds that differ in the trace only and from variables
    that hold the same values, come to the same after any number of turns:
    both have left by [break], or both are still running, or both raised
    the same exception, which is a [ValueError] or an [OverflowError] of
    the parsers; the variables hold the same values, the worlds still
    differ in the trace only, and the module has sent no more signals to
    the child than the script. *)
Theorem versions_agree_on_the_loop (fuel : nat) (w1 w2 : world)
    (l : SyncDownloadedFilesScriptLoop.locals) (v : SyncDownloadedFiles.vars) :
  same_but_trace w1 w2 -> same_variables l v ->
  (forall n x, chunk w1 n x <> []) ->
  let rs := SyncDownloadedFilesScriptLoop.while_true fuel (w1, l) in
  let rm := SyncDownloadedFiles.while_true fuel (w2, v) in
  same_but_trace (fst (snd rs)) (fst (snd rm)) /\
  same_variables (snd (snd rs)) (snd (snd rm)) /\
  fst rs = fst rm /\
  (forall e, fst rs = Raise e ->
             exists msg, e = ValueError msg \/ e = OverflowError msg) /\
  exists sent_s sent_m,
    signals (trace (fst (snd rs))) = sent_s ++ signals (trace w1) /\
    signals (trace (fst (snd rm))) = sent_m ++ signals (trace w2) /\
    length sent_m <= length sent_s.
Proof.
  intros Hw Hv Hne rs rm. subst rs rm.
  destruct (@loop_agree fuel w1 w2 l v Hw Hv Hne) as (H1 & H2 & H3 & H4).
  repeat (split; [assumption|]). split; [|exact H4].
  intros e He. rewrite H3 in He.
  destruct (loops_while_true fuel (w2, v)) as (_ & Herr).
  apply parser_error_cases. now apply Herr.
Qed.

(** A child that writes a progress line at every turn, and five turns. *)
Lemma versions_agree_on_the_loop_witness :
  let w := chatty_world 100 (txt "823,915,288  35%   36.65MB/s    0:00:40") in
  fst (SyncDownloadedFilesScriptLoop.while_true 5 (w, ScriptSession.no_locals))
  = fst (SyncDownloadedFiles.while_true 5 (w, fresh_vars 0)).
Proof.
  intros w.
  destruct (@versions_agree_on_the_loop 5 w w ScriptSession.no_locals
              (fresh_vars 0) (same_but_trace_refl w))
    as (_ & _ & Ho & _).
  - now repeat split.
  - intros n x. discriminate.
  - exact Ho.
Defined.

(** X25.  An empty read.  When the first descriptor that [select] reported
    gives no bytes, the script leaves its loop over the descriptors
    ([break]): the turn ends having read once, printed nothing and changed
    nothing but [last_activity], and the descriptors that follow are not
    read on this turn.  The module goes on with them ([continue]): when its
    turn ends without an exception it has read every descriptor that was
    reported, and when a parser raised it had read the next one at
    least. *)
Theorem script_stops_reading_at_an_empty_read (w : world)
    (l : SyncDownloadedFilesScriptLoop.locals) (v : SyncDownloadedFiles.vars)
    (d : fd) (rest : list fd) :
  ready w (n_select w) = d :: rest ->
  chunk w (n_read w) d = [] ->
  let rs := SyncDownloadedFilesScriptLoop.loop_body (w, l) in
  let rm := SyncDownloadedFiles.loop_body (w, v) in
  rs = (Ok SyncDownloadedFiles.Next,
        (tick_read (fst (script_watching w l)), snd (script_watching w l))) /\
  match fst rm with
  | Ok _ => n_read (fst (snd rm)) = n_read w + 1 + length rest
  | Raise _ => n_read w + 1 < n_read (fst (snd rm))
  end.
Proof.
  intros Hr Hc rs rm. subst rs rm. split.
  - rewrite (@script_loop_body_ready w l d rest Hr).
    unfold script_watching. rewrite script_watch_fds_cons.
    cbn [tick_clock tick_select chunk n_read]. rewrite Hc. reflexivity.
  - rewrite (@loop_body_ready w v d rest Hr).
    unfold SyncDownloadedFiles.watch_rsync_progress, watching.
    match goal with
    | |- context [for_each (d :: rest) SyncDownloadedFiles.watch_fd false (?w0, ?v0)] =>
        pose proof (@module_reads_on false d rest w0 v0 Hc) as H;
        cbv zeta in H;
        destruct (for_each (d :: rest) SyncDownloadedFiles.watch_fd false (w0, v0))
          as ([[|]|e] & s)
    end; simpl in *; exact H.
Qed.

(** Both descriptors are ready, and the first gives nothing: the script
    reads one descriptor, the module both. *)
Lemma script_stops_reading_at_an_empty_read_witness :
  n_read (fst (snd (SyncDownloadedFilesScriptLoop.loop_body
                      (closed_stdout, ScriptSession.no_locals)))) = 1 /\
  n_read (fst (snd (SyncDownloadedFiles.loop_body
                      (closed_stdout, fresh_vars 0)))) = 2.
Proof.
  destruct (@script_stops_reading_at_an_empty_read closed_stdout
              ScriptSession.no_locals (fresh_vars 0) m_out [m_err]
              eq_refl eq_refl)
    as (Hs & Hm).
  split.
  - rewrite Hs. reflexivity.
  - vm_compute. reflexivity.
Defined.

(** X26.  What [watch_rsync_command] (the script) returns.  It returns
    [process.poll()], and this is never [None]: when the call returns, the
    value is an exit status, the one [process.returncode] holds, for the
    loop is left only on a turn whose poll has found one.  ([Ok None] is the
    model's answer when the loop is still running after [fuel] turns.) *)
Theorem script_watch_rsync_command_exit_status (fuel : nat) (w : world)
    (l : SyncDownloadedFilesScriptLoop.locals) :
  let result := SyncDownloadedFilesScriptLoop.watch_rsync_command fuel (w, l) in
  match fst result with
  | Ok (Some code) =>
      exists c : Z, code = Some c /\ returncode (fst (snd result)) = Some c
  | _ => True
  end.
Proof.
  intros result. subst result. rewrite script_watch_rsync_command_loop.
  destruct (SyncDownloadedFilesScriptLoop.while_true fuel (script_started w))
    as ([[|]|e] & s') eqn:E; simpl; try exact I.
  apply script_while_true_left in E.
  unfold bind, process_poll.
  destruct (returncode (fst s')) as [c|] eqn:Hc; [|congruence]. simpl.
  exists c. auto.
Qed.

End VersionTheorems.

(* ===================================================================== *)
(** * The script's execute_rsync *)
(* ===================================================================== *)

Module ScriptSessionTheorems.
Import Process Session Hosts DescriptorFacts SessionFacts ScriptSession
  ScriptSessionFacts.
Local Open Scope nat_scope.

(** X27.  The script's [execute_rsync] and one run.  Let the three calls of
    [pty.openpty()] answer six new descriptors.  After the three lines that
    announce the run, [watch_rsync_command] runs; then
    - whatever comes of it, the descriptors open afterwards are those open
      before the call;
    - if the run raises an exception of the watching code (a [ValueError]
      or an [OverflowError] of the parsers), [execute_rsync] raises the same
      exception: its [except] clauses name [KeyboardInterrupt] and
      [CalledProcessError] only;
    - if the keyboard stops the run in its loop, the handler sleeps, prints
      its line and calls [sys.exit(1)]: [execute_rsync] raises
      [SystemExit(1)]; and a second [KeyboardInterrupt], during that sleep,
      leaves [execute_rsync];
    - without a repeat time, if the run returns, [execute_rsync] returns 0
      whatever the run returned: rsync's exit status is dropped. *)
Theorem script_execute_rsync_one_run (args : Namespace)
    (fuel runs : nat) (w : world) (h : host) (a1 b1 a2 b2 a3 b3 : nat) :
  openpty h (n_openpty h) = Some (a1, b1) ->
  openpty h (1 + n_openpty h) = Some (a2, b2) ->
  openpty h (2 + n_openpty h) = Some (a3, b3) ->
  NoDup [a1; b1; a2; b2; a3; b3] ->
  (forall x, In x [a1; b1; a2; b2; a3; b3] -> ~ In x (fds h)) ->
  let run :=
    SyncDownloadedFilesScriptLoop.watch_rsync_command fuel
      (announced args w, no_locals) in
  let out := execute_rsync args fuel (S runs) (w, h) in
  fds (snd (snd out)) = fds h /\
  (forall e, fst run = Raise e ->
             fst out = Raised (Std e) /\ fst (snd out) = fst (snd run)) /\
  (fst run = Ok None -> keyboard h (n_run h) = true ->
   if interrupt h (n_sleep h) then
     fst out = Raised KeyboardInterrupt /\ fst (snd out) = fst (snd run)
   else
     fst out = Raised (SystemExit 1) /\
     fst (snd out)
     = emit (Print "Program terminated with keyboard interrupt.  Exiting..." [])
         (fst (snd run))) /\
  (repeats args = None ->
   forall code, fst run = Ok (Some code) ->
                fst out = Done (Some 0%Z) /\ fst (snd out) = fst (snd run)).
Proof.
  intros H1 H2 H3 Hnd Hnew run out. subst run out.
  rewrite (@script_execute_rsync_frame args fuel (S runs) w h
             a1 b1 a2 b2 a3 b3 H1 H2 H3 Hnd Hnew).
  cbn [fst snd]. split; [reflexivity|].
  rewrite script_sync_loop_first_run.
  destruct (SyncDownloadedFilesScriptLoop.watch_rsync_command fuel _)
    as ([[c|]|e] & s); cbn [fst snd].
  - split; [discriminate|]. split; [discriminate|].
    intros Hr c' _. rewrite Hr. auto.
  - split; [discriminate|]. split; [|intros _ c' [=]].
    intros _ Hk. cbn [after_openpty keyboard n_run interrupt n_sleep].
    rewrite Hk. destruct (interrupt h (n_sleep h)); auto.
  - split; [|split; discriminate]. intros e' [= <-]. auto.
Qed.

(** rsync exits with status 7 before it writes anything: the script's
    [execute_rsync] returns 0.  And rsync is silent and running, and the
    keyboard stops it after two turns: [SystemExit(1)]. *)
Lemma script_execute_rsync_one_run_witness :
  let out := execute_rsync (sample_args None) 1 1 (finished_world 7, calm_host) in
  let stopped :=
    execute_rsync (sample_args None) 2 1 (quiet_world 0, impatient_host) in
  fst out = Done (Some 0%Z) /\ fds (snd (snd out)) = [0; 1; 2] /\
  fst stopped = Raised (SystemExit 1) /\ fds (snd (snd stopped)) = [0; 1; 2].
Proof.
  intros out stopped.
  destruct (@script_execute_rsync_one_run (sample_args None) 1 0
              (finished_world 7) calm_host 3 4 5 6 7 8
              eq_refl eq_refl eq_refl)
    as (Hf & _ & _ & Hr).
  - repeat constructor; simpl; intuition discriminate.
  - simpl. intros x Hx Hin.
    repeat (destruct Hx as [<-|Hx]; [intuition discriminate|]). exact Hx.
  - destruct (@script_execute_rsync_one_run (sample_args None) 2 0
                (quiet_world 0) impatient_host 3 4 5 6 7 8
                eq_refl eq_refl eq_refl)
      as (Hf' & _ & Hk & _).
    + repeat constructor; simpl; intuition discriminate.
    + simpl. intros x Hx Hin.
      repeat (destruct Hx as [<-|Hx]; [intuition discriminate|]). exact Hx.
    + split; [|split; [exact Hf|split; [|exact Hf']]].
      * apply (Hr eq_refl (Some 7%Z)). vm_compute. reflexivity.
      * apply Hk; vm_compute; reflexivity.
Defined.

End ScriptSessionTheorems.
